(** * Bronze Ingestor Pipeline (ingestor.py): model and verification

    The script classifies the regular files of [landing/] by size and moves
    them to [bronze/] (size > 0) or [bad_data/] (size 0).  Its three functions
    [crear_carpetas_destino], [procesar_archivo] and [ejecutar_pipeline] are
    embedded below over

    - a tree-shaped file system rooted at the working directory, in which a
      regular file has an identity (its inode) and a size, so that one file
      can have two names;
    - an environment that may make any file-system call raise, gives the
      size of directories and the readings of the clock;
    - a small monad that threads the file system, carries Python exceptions,
      and collects in order the log lines and the file-system calls of the
      script.

    What the model takes from the platform:

    - a path is a list of names, and [Path(a) / b] adds a name;
    - an entry is a regular file or a directory: the tree has no symbolic
      links;
    - [shutil.move] of a regular file is [os.rename], which replaces a
      regular file at the destination and does nothing when source and
      destination are two names of one file; when the environment makes
      [os.rename] raise, it is [copy2] followed by [os.unlink], each of which
      the environment may make raise too, a failed copy leaving nothing or a
      file of some length at the destination.  The script moves regular files
      only; for a source that is a directory the model keeps to [os.rename]
      and to the errors that [shutil.move] raises by itself, and leaves out
      the copy of a directory tree;
    - the log file [ingestor.log] that the [logging] handler keeps in the
      working directory is not an entry of the tree, and is not a second
      name of a file of the tree: what is appended to it is the sequence of
      the [Log] events of the trace.  Statements about the tree are about
      [landing/], [bronze/], [bad_data/] and the entries other than the log
      file;
    - nothing but the script changes the file system during a run; what
      the outside world does to a call is the exception the environment
      makes it raise;
    - a [logging] call never raises, and every exception is an
      [Exception]. *)

From stdpp Require Import base option gmap list strings fin_maps.
From Stdlib Require Import ZArith Lia.

Open Scope string_scope.
Open Scope list_scope.

(** ** The file system *)

(** A relative path, component by component: [Path("bronze") / "a.csv"] is
    [["bronze"; "a.csv"]]. *)
Definition path := list string.

(** [Path.name]: the last component. *)
Definition name (p : path) : string := List.last p "".

(** A regular file: an identity (its inode) and the size that [stat]
    reports. *)
Record file := File { fid : nat; st_size : nat }.

Local Unset Elimination Schemes.
Inductive entry :=
| EFile (f : file)
| EDir (ch : gmap string entry).
Local Set Elimination Schemes.

(** The file system is the content of the working directory, the log file
    of the script apart. *)
Abbreviation FS := (gmap string entry).

Fixpoint geto (p : path) (o : option entry) : option entry :=
  match p with
  | [] => o
  | x :: p' =>
      match o with
      | Some (EDir ch) => geto p' (ch !! x)
      | _ => None
      end
  end.

(** Replace what is at [p] by [v] ([None] removes it); nothing happens when
    the parent of [p] is not an existing directory. *)
Fixpoint updo (p : path) (v : option entry) (o : option entry) : option entry :=
  match p with
  | [] => v
  | x :: p' =>
      match o with
      | Some (EDir ch) => Some (EDir (partial_alter (updo p' v) x ch))
      | _ => o
      end
  end.

Definition fs_get (p : path) (fs : FS) : option entry := geto p (Some (EDir fs)).

Definition fs_upd (p : path) (v : option entry) (fs : FS) : FS :=
  match p with
  | [] => fs
  | x :: p' => partial_alter (updo p' v) x fs
  end.

Definition is_dir (o : option entry) : bool :=
  match o with Some (EDir _) => true | _ => false end.

Definition is_reg (o : option entry) : bool :=
  match o with Some (EFile _) => true | _ => false end.

(** The regular file at a path, if there is one. *)
Definition file_at (p : path) (fs : FS) : option file :=
  match fs_get p fs with Some (EFile f) => Some f | _ => None end.

Definition parent (p : path) : path := removelast p.

Fixpoint strip_prefix (p q : path) : option path :=
  match p, q with
  | [], _ => Some q
  | x :: p', y :: q' => if decide (x = y) then strip_prefix p' q' else None
  | _ :: _, [] => None
  end.

Definition is_prefix (p q : path) : bool :=
  match strip_prefix p q with Some _ => true | None => false end.

(** An identity that no file of the tree has: one more than the largest. *)
Fixpoint max_fid (e : entry) : nat :=
  match e with
  | EFile f => fid f
  | EDir ch => map_fold (fun _ e' acc => Nat.max (max_fid e') acc) 0%nat ch
  end.

Definition nuevo_fid (fs : FS) : nat := S (max_fid (EDir fs)).

(** ** Exceptions, calls and the trace *)

(** The exception classes the file-system calls raise; all of them derive
    from [Exception]. *)
Inductive exn :=
| FileNotFoundError
| PermissionError
| FileExistsError
| NotADirectoryError
| ShutilError
| SameFileError
| OSError.

(** The file-system calls of the script, and the three calls that
    [shutil.move] makes: [os.rename], [copy2] and [os.unlink]. *)
Inductive syscall :=
| c_mkdir (d : string)
| c_exists (p : path)
| c_iterdir (p : path)
| c_is_file (p : path)
| c_stat (p : path)
| c_move (src dst : path)
| c_glob (p : path)
| c_rename (src dst : path)
| c_copy (src dst : path)
| c_unlink (p : path).

Inductive level := INFO | WARNING | ERROR | CRITICAL.

(** The log messages, one constructor per [logging] call of the script. *)
Inductive mensaje :=
| MSeparador
| MIniciandoPipeline
| MCarpetasOk
| MErrorCarpetas (e : exn)
| MIniciando (n : string)
| MTamanio (t : nat)
| MProcesado (n : string) (t : nat)
| MRechazado (n : string)
| MNoSeEncuentra (n : string)
| MSinPermisos (n : string)
| MInesperado (n : string) (e : exn)
| MFinalizado (n : string)
| MLandingNoExiste
| MLandingCreada
| MNoArchivos
| MEncontrados (k : nat)
| MNoCapturado (n : string) (e : exn)
| MResumen
| MTotal (k : nat)
| MBronze (k : nat)
| MBadData (k : nat)
| MErrores (k : nat)
| MDuracion (d : Z)
| MQuedan (k : nat)
| MCompletado
| MErrorFatal (e : exn).

(** What a run leaves behind, in order: log lines, and file-system calls
    with the exception they raised, if any. *)
Inductive event :=
| Log (lv : level) (m : mensaje)
| Call (c : syscall) (r : option exn).

(** The environment of a run: which calls it makes fail, the size [stat]
    reports for a directory, the readings of the clock, and what a [copy2]
    that it makes fail has written at the destination by then: nothing, or
    a file of so many bytes. *)
Record Env := {
  fault : syscall -> option exn;
  dir_size : path -> nat;
  now : nat -> Z;
  copia_parcial : path -> path -> option nat
}.

(** ** The monad *)

Inductive res (A : Type) :=
| Ok (a : A)
| Raise (e : exn).
Arguments Ok {A} a.
Arguments Raise {A} e.

Definition M (A : Type) : Type := FS -> res A * FS * list event.

Definition ret {A} (a : A) : M A := fun fs => (Ok a, fs, []).

Definition bind {A B} (m : M A) (k : A -> M B) : M B :=
  fun fs =>
    match m fs with
    | (Ok a, fs1, t1) =>
        match k a fs1 with
        | (r, fs2, t2) => (r, fs2, t1 ++ t2)
        end
    | (Raise e, fs1, t1) => (Raise e, fs1, t1)
    end.

Definition raise {A} (e : exn) : M A := fun fs => (Raise e, fs, []).

(** A [logging] call: the line goes to the trace, which stands for the log
    file and for the standard output; the tree is not touched. *)
Definition log (lv : level) (m : mensaje) : M unit :=
  fun fs => (Ok tt, fs, [Log lv m]).

(** [try: m except Exception as e: h e] *)
Definition try_except {A} (m : M A) (h : exn -> M A) : M A :=
  fun fs =>
    match m fs with
    | (Ok a, fs1, t1) => (Ok a, fs1, t1)
    | (Raise e, fs1, t1) =>
        match h e fs1 with
        | (r, fs2, t2) => (r, fs2, t1 ++ t2)
        end
    end.

(** [try: m finally: f]: [f] runs whatever [m] did, and the outcome of [m]
    stands unless [f] raises. *)
Definition try_finally {A} (m : M A) (f : M unit) : M A :=
  fun fs =>
    match m fs with
    | (r, fs1, t1) =>
        match f fs1 with
        | (Ok _, fs2, t2) => (r, fs2, t1 ++ t2)
        | (Raise e, fs2, t2) => (Raise e, fs2, t1 ++ t2)
        end
    end.

Declare Scope m_scope.
Delimit Scope m_scope with M.
Notation "x <- c1 ;; c2" := (bind c1 (fun x => c2))
  (at level 100, c1 at next level, right associativity) : m_scope.
Notation "c1 ;; c2" := (bind c1 (fun _ => c2))
  (at level 100, right associativity) : m_scope.
Open Scope m_scope.

Definition raised {A} (r : res A) : option exn :=
  match r with Ok _ => None | Raise e => Some e end.

Definition result_of {A} (x : res A * FS * list event) : res A := x.1.1.
Definition fs_of {A} (x : res A * FS * list event) : FS := x.1.2.
Definition trace_of {A} (x : res A * FS * list event) : list event := x.2.

(** ** The counters of a run *)

(** [procesados], [rechazados] and [errores] of [ejecutar_pipeline]. *)
Record contadores := Contadores {
  procesados : nat;
  rechazados : nat;
  errores : nat
}.

(** ** The file-system calls *)

(** Walking [p] runs into a regular file before its end: the call fails with
    [NotADirectoryError] rather than [FileNotFoundError]. *)
Fixpoint under_file (p : path) (o : option entry) : bool :=
  match p with
  | [] => false
  | x :: p' =>
      match o with
      | Some (EFile _) => true
      | Some (EDir ch) => under_file p' (ch !! x)
      | None => false
      end
  end.

Definition missing_exn (p : path) (fs : FS) : exn :=
  if under_file p (Some (EDir fs)) then NotADirectoryError else FileNotFoundError.

(** [os.rename(src, dst)] within the tree: the entry at [src] is relocated
    to [dst], replacing a regular file that is there; when [src] and [dst]
    are two names of one file nothing is done, and the call succeeds.  For a
    directory the errors are those that [shutil.move] ends with. *)
Definition rename (src dst : path) (fs : FS) : res path * FS :=
  match fs_get src fs with
  | None => (Raise (missing_exn src fs), fs)
  | Some e =>
      if is_dir (Some e) && is_prefix src dst then (Raise ShutilError, fs)
      else if negb (is_dir (fs_get (parent dst) fs)) then (Raise (missing_exn dst fs), fs)
      else
        match fs_get dst fs, e with
        | Some (EDir _), _ => (Raise OSError, fs)
        | Some (EFile _), EDir _ => (Raise FileExistsError, fs)
        | Some (EFile g), EFile f =>
            if decide (fid g = fid f) then (Ok dst, fs)
            else (Ok dst, fs_upd dst (Some e) (fs_upd src None fs))
        | None, _ => (Ok dst, fs_upd dst (Some e) (fs_upd src None fs))
        end
  end.

(** What writing [k] bytes to [p] leaves there: the regular file that is
    at [p] keeps its identity, a file that is created gets one of its own. *)
Definition escrito (p : path) (k : nat) (fs : FS) : FS :=
  fs_upd p
    (Some (EFile (File (match file_at p fs with
                        | Some g => fid g
                        | None => nuevo_fid fs
                        end) k))) fs.

(** [f] and the file at hand are one file. *)
Definition mismo_archivo (f : file) (o : option file) : bool :=
  match o with
  | Some g => bool_decide (fid g = fid f)
  | None => false
  end.

Section WithEnv.

Variable env : Env.

(** A call first meets the environment, which may make it raise, and then
    acts on the file system; it leaves one [Call] event. *)
Definition call {A} (c : syscall) (sem : FS -> res A * FS) : M A :=
  fun fs =>
    match fault env c with
    | Some e => (Raise e, fs, [Call c (Some e)])
    | None =>
        match sem fs with
        | (r, fs') => (r, fs', [Call c (raised r)])
        end
    end.

(** [Path(d).mkdir(parents=True, exist_ok=True)] for a directory [d] of the
    working directory. *)
Definition mkdir (d : string) : M unit :=
  call (c_mkdir d) (fun fs =>
    match fs !! d with
    | Some (EDir _) => (Ok tt, fs)
    | Some (EFile _) => (Raise FileExistsError, fs)
    | None => (Ok tt, <[d := EDir ∅]> fs)
    end).

(** [Path.exists()] *)
Definition exists_ (p : path) : M bool :=
  call (c_exists p) (fun fs =>
    (Ok (match fs_get p fs with Some _ => true | None => false end), fs)).

(** [Path.iterdir()]: the paths of the entries of the directory. *)
Definition iterdir (p : path) : M (list path) :=
  call (c_iterdir p) (fun fs =>
    match fs_get p fs with
    | Some (EDir ch) => (Ok ((fun kv => p ++ [kv.1]) <$> map_to_list ch), fs)
    | Some (EFile _) => (Raise NotADirectoryError, fs)
    | None => (Raise (missing_exn p fs), fs)
    end).

(** [Path.is_file()] *)
Definition is_file (p : path) : M bool :=
  call (c_is_file p) (fun fs => (Ok (is_reg (fs_get p fs)), fs)).

(** [Path.stat().st_size] *)
Definition stat_size (p : path) : M nat :=
  call (c_stat p) (fun fs =>
    match fs_get p fs with
    | Some (EFile f) => (Ok (st_size f), fs)
    | Some (EDir _) => (Ok (dir_size env p), fs)
    | None => (Raise (missing_exn p fs), fs)
    end).

(** [shutil.copy2(src, dst)] for the regular file [f] at [src]: it refuses
    to copy a file onto itself, and otherwise writes the bytes of [f] to
    [dst].  When the environment makes it raise, [dst] is as it was or holds
    the bytes written by then. *)
Definition copy2 (src dst : path) (f : file) (fs : FS) : res unit * FS :=
  if mismo_archivo f (file_at dst fs) then (Raise SameFileError, fs)
  else
    let abre := is_dir (fs_get (parent dst) fs) && negb (is_dir (fs_get dst fs)) in
    match fault env (c_copy src dst) with
    | Some e =>
        (Raise e,
         match copia_parcial env src dst with
         | Some k => if abre then escrito dst (Nat.min k (st_size f)) fs else fs
         | None => fs
         end)
    | None =>
        if negb (is_dir (fs_get (parent dst) fs)) then (Raise (missing_exn dst fs), fs)
        else if is_dir (fs_get dst fs) then (Raise OSError, fs)
        else (Ok tt, escrito dst (st_size f) fs)
    end.

(** [os.unlink(p)] *)
Definition unlink (p : path) (fs : FS) : res unit * FS :=
  match fault env (c_unlink p) with
  | Some e => (Raise e, fs)
  | None =>
      match fs_get p fs with
      | Some (EFile _) => (Ok tt, fs_upd p None fs)
      | Some (EDir _) => (Raise OSError, fs)
      | None => (Raise (missing_exn p fs), fs)
      end
  end.

(** The end of [shutil.move]: [os.rename(src, dst)] and, when the
    environment makes it raise for a regular file, [copy2(src, dst)] followed
    by [os.unlink(src)]. *)
Definition mover_a (src dst : path) (fs : FS) : res path * FS :=
  match fs_get src fs, fault env (c_rename src dst) with
  | Some (EFile f), Some _ =>
      match copy2 src dst f fs with
      | (Raise e, fs1) => (Raise e, fs1)
      | (Ok _, fs1) =>
          match unlink src fs1 with
          | (Raise e, fs2) => (Raise e, fs2)
          | (Ok _, fs2) => (Ok dst, fs2)
          end
      end
  | _, _ => rename src dst fs
  end.

(** [shutil.move(src, dst)]: when [dst] is an existing directory the source
    is moved inside it, and the move fails when the name is taken there.  The
    call leaves one event, with the exception that left it, if any. *)
Definition shutil_move (src dst : path) : M path :=
  fun fs =>
    match
      (if is_dir (fs_get dst fs) then
         if decide (src = dst) then (Ok dst, fs)
         else
           let real_dst := dst ++ [name src] in
           match fs_get real_dst fs with
           | Some _ => (Raise ShutilError, fs)
           | None => mover_a src real_dst fs
           end
       else mover_a src dst fs)
    with
    | (r, fs') => (r, fs', [Call (c_move src dst) (raised r)])
    end.

(** [list(Path.glob("*"))]: every entry of the directory, none when there
    is no such directory. *)
Definition glob_all (p : path) : M (list path) :=
  call (c_glob p) (fun fs =>
    match fs_get p fs with
    | Some (EDir ch) => (Ok ((fun kv => p ++ [kv.1]) <$> map_to_list ch), fs)
    | _ => (Ok [], fs)
    end).

(** [[f for f in l if f.is_file()]] *)
Fixpoint filter_is_file (l : list path) : M (list path) :=
  match l with
  | [] => ret []
  | f :: l' =>
      b <- is_file f ;;
      rest <- filter_is_file l' ;;
      ret (if b then f :: rest else rest)
  end.

(** ** The script *)

(** [crear_carpetas_destino()] *)
Definition crear_carpetas_destino : M unit :=
  try_except
    (mkdir "bronze" ;;
     mkdir "bad_data" ;;
     log INFO MCarpetasOk)
    (fun e =>
       log CRITICAL (MErrorCarpetas e) ;;
       raise e).

(** [procesar_archivo(archivo)] *)
Definition procesar_archivo (archivo : path) : M bool :=
  try_finally
    (try_except
       (log INFO (MIniciando (name archivo)) ;;
        tamanio <- stat_size archivo ;;
        log INFO (MTamanio tamanio) ;;
        if (0 <? tamanio)%nat then
          let destino := ["bronze"; name archivo] in
          shutil_move archivo destino ;;
          log INFO (MProcesado (name archivo) tamanio) ;;
          ret true
        else
          let destino := ["bad_data"; name archivo] in
          shutil_move archivo destino ;;
          log WARNING (MRechazado (name archivo)) ;;
          ret true)
       (fun e =>
          match e with
          | FileNotFoundError =>
              log ERROR (MNoSeEncuentra (name archivo)) ;;
              ret false
          | PermissionError =>
              log ERROR (MSinPermisos (name archivo)) ;;
              ret false
          | _ =>
              log ERROR (MInesperado (name archivo) e) ;;
              ret false
          end))
    (log INFO (MFinalizado (name archivo))).

(** The body of [for archivo in archivos]: one file, and the counters it
    updates. *)
Definition paso (archivo : path) (c : contadores) : M contadores :=
  try_except
    (resultado <- procesar_archivo archivo ;;
     if resultado : bool then
       en_bronze <- exists_ ["bronze"; name archivo] ;;
       if en_bronze : bool then
         ret (Contadores (procesados c + 1)%nat (rechazados c) (errores c))
       else
         ret (Contadores (procesados c) (rechazados c + 1)%nat (errores c))
     else
       ret (Contadores (procesados c) (rechazados c) (errores c + 1)%nat))
    (fun e =>
       log ERROR (MNoCapturado (name archivo) e) ;;
       ret (Contadores (procesados c) (rechazados c) (errores c + 1)%nat)).

Fixpoint bucle (archivos : list path) (c : contadores) : M contadores :=
  match archivos with
  | [] => ret c
  | archivo :: resto =>
      c' <- paso archivo c ;;
      bucle resto c'
  end.

(** [ejecutar_pipeline()] *)
Definition ejecutar_pipeline : M unit :=
  let inicio := now env 0%nat in
  log INFO MSeparador ;;
  log INFO MIniciandoPipeline ;;
  log INFO MSeparador ;;
  try_except
    (crear_carpetas_destino ;;
     let carpeta_landing := ["landing"] in
     existe <- exists_ carpeta_landing ;;
     if negb existe then
       log ERROR MLandingNoExiste ;;
       mkdir "landing" ;;
       log WARNING MLandingCreada ;;
       ret tt
     else
       entradas <- iterdir carpeta_landing ;;
       archivos <- filter_is_file entradas ;;
       match archivos with
       | [] =>
           log WARNING MNoArchivos ;;
           ret tt
       | _ :: _ =>
           log INFO (MEncontrados (length archivos)) ;;
           c <- bucle archivos (Contadores 0%nat 0%nat 0%nat) ;;
           let fin := now env 1%nat in
           let duracion := (fin - inicio)%Z in
           log INFO MSeparador ;;
           log INFO MResumen ;;
           log INFO MSeparador ;;
           log INFO (MTotal (length archivos)) ;;
           log INFO (MBronze (procesados c)) ;;
           log INFO (MBadData (rechazados c)) ;;
           log INFO (MErrores (errores c)) ;;
           log INFO (MDuracion duracion) ;;
           log INFO MSeparador ;;
           archivos_restantes <- glob_all carpeta_landing ;;
           match archivos_restantes with
           | _ :: _ => log WARNING (MQuedan (length archivos_restantes))
           | [] => log INFO MCompletado
           end
       end)
    (fun e =>
       log CRITICAL (MErrorFatal e) ;;
       raise e).

(** [if __name__ == "__main__": ejecutar_pipeline()]: the exit status of the
    process is 1 when the exception leaves the entry point. *)
Definition main (fs : FS) : nat * FS * list event :=
  match ejecutar_pipeline fs with
  | (Ok _, fs', t) => (0%nat, fs', t)
  | (Raise _, fs', t) => (1%nat, fs', t)
  end.

End WithEnv.

(** ** Notions used in the statements *)

(** What is at a path, up to the content of a directory. *)
Inductive kind := KNone | KFile (f : file) | KDir.

Definition kind_of (o : option entry) : kind :=
  match o with
  | None => KNone
  | Some (EFile f) => KFile f
  | Some (EDir _) => KDir
  end.

(** The parent of [p] is a chain of existing directories from [o]. *)
Fixpoint chain (p : path) (o : option entry) : Prop :=
  match p with
  | [] => True
  | x :: p' =>
      match o with
      | Some (EDir ch) => chain p' (ch !! x)
      | _ => False
      end
  end.


(** The directory a file of size [tamanio] is sent to. *)
Definition destino_de (tamanio : nat) : string :=
  if (0 <? tamanio)%nat then "bronze" else "bad_data".

(** Where [shutil.move] puts a file named [n] that it is asked to move to
    [d/n]: inside [d/n] when that is a directory. *)
Definition destino_real (d n : string) (fs : FS) : path :=
  if is_dir (fs_get [d; n] fs) then [d; n; n] else [d; n].

(** [g] is the file [f] itself, or a copy of it: a file of its length. *)
Definition es_o_copia (f g : file) : Prop :=
  fid g = fid f \/ st_size g = st_size f.

(** The error line that [procesar_archivo] logs for an exception. *)
Definition linea_error (n : string) (e : exn) : mensaje :=
  match e with
  | FileNotFoundError => MNoSeEncuentra n
  | PermissionError => MSinPermisos n
  | _ => MInesperado n e
  end.

(** The line that [procesar_archivo] logs after a successful move. *)
Definition linea_movido (n : string) (tamanio : nat) : event :=
  if (0 <? tamanio)%nat then Log INFO (MProcesado n tamanio)
  else Log WARNING (MRechazado n).

(** The trace records a successful move of [archivo]. *)
Definition movido (t : list event) (archivo : path) : Prop :=
  exists dst, In (Call (c_move archivo dst) None) t.

(** The trace records an exception raised while reading the size of
    [archivo] or while moving it. *)
Definition fallo (t : list event) (archivo : path) : Prop :=
  exists e, In (Call (c_stat archivo) (Some e)) t \/
            exists dst, In (Call (c_move archivo dst) (Some e)) t.

(** The file [f], named [n], lies in the destination directory [d]: at
    [d/n], or inside [d/n] when that was already a directory. *)
Definition en_destino (d n : string) (f : file) (fs : FS) : Prop :=
  file_at [d; n] fs = Some f \/ file_at [d; n; n] fs = Some f.

(** The three ways [paso] updates the counters. *)
Definition mas_procesado (c : contadores) : contadores :=
  Contadores (procesados c + 1) (rechazados c) (errores c).
Definition mas_rechazado (c : contadores) : contadores :=
  Contadores (procesados c) (rechazados c + 1) (errores c).
Definition mas_error (c : contadores) : contadores :=
  Contadores (procesados c) (rechazados c) (errores c + 1).

Definition total (c : contadores) : nat :=
  procesados c + rechazados c + errores c.

(** The effect of a successful [mkdir] of [d]. *)
Definition asegurar (d : string) (fs : FS) : FS :=
  match fs !! d with
  | None => <[d := EDir ∅]> fs
  | Some _ => fs
  end.

(** The three lines that open every run. *)
Definition cabecera : list event :=
  [Log INFO MSeparador; Log INFO MIniciandoPipeline; Log INFO MSeparador].

(** The body of the [try] of [ejecutar_pipeline] once the destination
    directories are there, as in the definition of [ejecutar_pipeline]. *)
Definition tras_crear (env : Env) : M unit :=
     let inicio := now env 0%nat in
     let carpeta_landing := ["landing"] in
     existe <- exists_ env carpeta_landing ;;
     if negb existe then
       log ERROR MLandingNoExiste ;;
       mkdir env "landing" ;;
       log WARNING MLandingCreada ;;
       ret tt
     else
       entradas <- iterdir env carpeta_landing ;;
       archivos <- filter_is_file env entradas ;;
       match archivos with
       | [] =>
           log WARNING MNoArchivos ;;
           ret tt
       | _ :: _ =>
           log INFO (MEncontrados (length archivos)) ;;
           c <- bucle env archivos (Contadores 0%nat 0%nat 0%nat) ;;
           let fin := now env 1%nat in
           let duracion := (fin - inicio)%Z in
           log INFO MSeparador ;;
           log INFO MResumen ;;
           log INFO MSeparador ;;
           log INFO (MTotal (length archivos)) ;;
           log INFO (MBronze (procesados c)) ;;
           log INFO (MBadData (rechazados c)) ;;
           log INFO (MErrores (errores c)) ;;
           log INFO (MDuracion duracion) ;;
           log INFO MSeparador ;;
           archivos_restantes <- glob_all env carpeta_landing ;;
           match archivos_restantes with
           | _ :: _ => log WARNING (MQuedan (length archivos_restantes))
           | [] => log INFO MCompletado
           end
       end.

(** The call is one of the two [mkdir] of [crear_carpetas_destino]. *)
Definition es_mkdir_destino (c : syscall) : Prop :=
  c = c_mkdir "bronze" \/ c = c_mkdir "bad_data".

(** The entries of [landing/], and those that are regular files: what the
    scan of the run finds. *)
Definition entradas_de (fs : FS) : list path :=
  match fs_get ["landing"] fs with
  | Some (EDir ch) => (fun kv => ["landing"] ++ [kv.1]) <$> map_to_list ch
  | _ => []
  end.

Definition archivos_de (fs : FS) : list path :=
  List.filter (fun p => is_reg (fs_get p fs)) (entradas_de fs).

(** The summary of a run over [k] files that ends with the counters [c]
    after [d] units of time. *)
Definition lineas_resumen (k : nat) (c : contadores) (d : Z) : list event :=
  [Log INFO MSeparador; Log INFO MResumen; Log INFO MSeparador;
   Log INFO (MTotal k); Log INFO (MBronze (procesados c));
   Log INFO (MBadData (rechazados c)); Log INFO (MErrores (errores c));
   Log INFO (MDuracion d); Log INFO MSeparador].

(** The last line of a complete run: a warning when [landing/] still has
    entries, the confirmation otherwise. *)
Definition linea_final (fs : FS) : event :=
  match entradas_de fs with
  | _ :: _ => Log WARNING (MQuedan (length (entradas_de fs)))
  | [] => Log INFO MCompletado
  end.

Definition es_llamada (ev : event) : Prop := exists c r, ev = Call c r.

(** The lines that only a run that found files emits. *)
Definition es_resumen (ev : event) : bool :=
  match ev with
  | Log _ (MEncontrados _) | Log _ MResumen | Log _ (MTotal _)
  | Log _ (MBronze _) | Log _ (MBadData _) | Log _ (MErrores _)
  | Log _ (MDuracion _) | Log _ (MQuedan _) | Log _ MCompletado => true
  | _ => false
  end.

Definition c0 : contadores := Contadores 0 0 0.

(** The branches of [tras_crear]: each constructor is one way through the
    body, with its outcome, its file system and its trace. *)
Inductive rama (env : Env) (fs : FS) : res unit * FS * list event -> Prop :=
| rama_exists_falla e :
    fault env (c_exists ["landing"]) = Some e ->
    rama env fs (Raise e, fs, [Call (c_exists ["landing"]) (Some e)])
| rama_landing_no_creada e :
    fault env (c_exists ["landing"]) = None ->
    fs_get ["landing"] fs = None ->
    fault env (c_mkdir "landing") = Some e ->
    rama env fs
      (Raise e, fs,
       [Call (c_exists ["landing"]) None; Log ERROR MLandingNoExiste;
        Call (c_mkdir "landing") (Some e)])
| rama_landing_creada :
    fault env (c_exists ["landing"]) = None ->
    fs_get ["landing"] fs = None ->
    fault env (c_mkdir "landing") = None ->
    rama env fs
      (Ok tt, asegurar "landing" fs,
       [Call (c_exists ["landing"]) None; Log ERROR MLandingNoExiste;
        Call (c_mkdir "landing") None; Log WARNING MLandingCreada])
| rama_iterdir_falla e :
    fault env (c_exists ["landing"]) = None ->
    fs_get ["landing"] fs <> None ->
    result_of (iterdir env ["landing"] fs) = Raise e ->
    rama env fs
      (Raise e, fs,
       [Call (c_exists ["landing"]) None; Call (c_iterdir ["landing"]) (Some e)])
| rama_is_file_falla e :
    fault env (c_exists ["landing"]) = None ->
    is_dir (fs_get ["landing"] fs) = true ->
    fault env (c_iterdir ["landing"]) = None ->
    result_of (filter_is_file env (entradas_de fs) fs) = Raise e ->
    rama env fs
      (Raise e, fs,
       [Call (c_exists ["landing"]) None; Call (c_iterdir ["landing"]) None] ++
       trace_of (filter_is_file env (entradas_de fs) fs))
| rama_sin_archivos :
    fault env (c_exists ["landing"]) = None ->
    is_dir (fs_get ["landing"] fs) = true ->
    fault env (c_iterdir ["landing"]) = None ->
    result_of (filter_is_file env (entradas_de fs) fs) = Ok (archivos_de fs) ->
    archivos_de fs = [] ->
    rama env fs
      (Ok tt, fs,
       [Call (c_exists ["landing"]) None; Call (c_iterdir ["landing"]) None] ++
       trace_of (filter_is_file env (entradas_de fs) fs) ++
       [Log WARNING MNoArchivos])
| rama_completa c fs' tl :
    fault env (c_exists ["landing"]) = None ->
    is_dir (fs_get ["landing"] fs) = true ->
    fault env (c_iterdir ["landing"]) = None ->
    result_of (filter_is_file env (entradas_de fs) fs) = Ok (archivos_de fs) ->
    archivos_de fs <> [] ->
    bucle env (archivos_de fs) c0 fs = (Ok c, fs', tl) ->
    fault env (c_glob ["landing"]) = None ->
    rama env fs
      (Ok tt, fs',
       [Call (c_exists ["landing"]) None; Call (c_iterdir ["landing"]) None] ++
       trace_of (filter_is_file env (entradas_de fs) fs) ++
       [Log INFO (MEncontrados (length (archivos_de fs)))] ++ tl ++
       lineas_resumen (length (archivos_de fs)) c (now env 1 - now env 0) ++
       [Call (c_glob ["landing"]) None; linea_final fs'])
| rama_glob_falla c fs' tl e :
    fault env (c_exists ["landing"]) = None ->
    is_dir (fs_get ["landing"] fs) = true ->
    fault env (c_iterdir ["landing"]) = None ->
    result_of (filter_is_file env (entradas_de fs) fs) = Ok (archivos_de fs) ->
    archivos_de fs <> [] ->
    bucle env (archivos_de fs) c0 fs = (Ok c, fs', tl) ->
    fault env (c_glob ["landing"]) = Some e ->
    rama env fs
      (Raise e, fs',
       [Call (c_exists ["landing"]) None; Call (c_iterdir ["landing"]) None] ++
       trace_of (filter_is_file env (entradas_de fs) fs) ++
       [Log INFO (MEncontrados (length (archivos_de fs)))] ++ tl ++
       lineas_resumen (length (archivos_de fs)) c (now env 1 - now env 0) ++
       [Call (c_glob ["landing"]) (Some e)]).

Definition sin_resumen (t : list event) : Prop :=
  Forall (fun ev => es_resumen ev = false) t.

(** Processing the file named [n] cannot change what is at [q]: [q] is a
    directory of the working directory, or goes through another name. *)
Definition ajeno (n : string) (q : path) : Prop :=
  match q with
  | _ :: m :: _ => m <> n
  | _ => True
  end.

(** The trace has no call to [shutil.move]. *)
Definition sin_movimientos (t : list event) : Prop :=
  forall src dst r, ~ In (Call (c_move src dst) r) t.

(** The scan of [landing/] meets no failure: the directory is there and
    the environment lets [exists], [iterdir] and [is_file] through. *)
Definition escaneo_sin_fallos (env : Env) (fs : FS) : Prop :=
  fault env (c_exists ["landing"]) = None /\
  is_dir (fs_get ["landing"] fs) = true /\
  fault env (c_iterdir ["landing"]) = None /\
  (forall p, In p (entradas_de fs) -> fault env (c_is_file p) = None).

(** The trace of the scan. *)
Definition traza_escaneo (fs : FS) : list event :=
  [Call (c_exists ["landing"]) None; Call (c_iterdir ["landing"]) None] ++
  ((fun p => Call (c_is_file p) None) <$> entradas_de fs).

(** The trace holds the summary of a run, and the line that closes a
    complete run. *)
Definition resumen_emitido (t : list event) : Prop :=
  exists k c d, incl (lineas_resumen k c d) t.

Definition cierre_emitido (t : list event) : Prop :=
  In (Log INFO MCompletado) t \/ exists k, In (Log WARNING (MQuedan k)) t.

(** An environment in which no call fails. *)
Definition sin_fallos : Env :=
  {| fault := fun _ => None; dir_size := fun _ => 4096; now := fun k => Z.of_nat k;
     copia_parcial := fun _ _ => None |}.

(** An empty [landing/] next to the destination directories. *)
Definition fs_landing_vacia : FS :=
  {[ "landing" := EDir ∅; "bronze" := EDir ∅; "bad_data" := EDir ∅ ]}.




(** The file [f] is at [q0] and nowhere else: no other path holds a file
    with its identity. *)
Definition unico_en (f : file) (q0 : path) (fs : FS) : Prop :=
  file_at q0 fs = Some f /\
  forall q g, file_at q fs = Some g -> fid g = fid f -> q = q0.

(** The trace holds the error line of [procesar_archivo] for [n]. *)
Definition errado (t : list event) (n : string) : Prop :=
  exists e, In (Log ERROR (linea_error n e)) t.

(** Successful moves into the directory [d] recorded by a trace. *)
Definition es_move_a (d : string) (ev : event) : bool :=
  match ev with
  | Call (c_move _ (d' :: _)) None => bool_decide (d' = d)
  | _ => false
  end.

Definition movidos_a (d : string) (t : list event) : nat :=
  length (List.filter (es_move_a d) t).

(** An empty file in [landing/] whose name is already taken in [bronze/]. *)
Definition fs_colision : FS :=
  {[ "landing" := EDir {[ "a.csv" := EFile (File 1 0) ]};
     "bronze" := EDir {[ "a.csv" := EFile (File 2 5) ]};
     "bad_data" := EDir ∅ ]}.

(** Two files in [landing/], one of them empty, and empty destinations. *)
Definition fs_ejemplo : FS :=
  {[ "landing" := EDir {[ "a.csv" := EFile (File 1 10); "b.csv" := EFile (File 2 0) ]};
     "bronze" := EDir ∅;
     "bad_data" := EDir ∅ ]}.

(** A working directory without [landing/]. *)
Definition fs_sin_landing : FS := {[ "bronze" := EDir ∅ ]}.

(** An environment that refuses the creation of [bad_data/]. *)
Definition sin_permiso : Env :=
  {| fault := fun c =>
       match c with
       | c_mkdir d => if String.eqb d "bad_data" then Some PermissionError else None
       | _ => None
       end;
     dir_size := fun _ => 4096;
     now := fun k => Z.of_nat k;
     copia_parcial := fun _ _ => None |}.

(** ** Notions used in the further properties *)

Definition es_critico (ev : event) : bool :=
  match ev with Log CRITICAL _ => true | _ => false end.

(** The trace has no [CRITICAL] line. *)
Definition sin_critico (t : list event) : Prop :=
  Forall (fun ev => es_critico ev = false) t.

(** How many times the trace calls [stat], and [shutil.move], on
    [archivo]. *)
Definition es_stat_de (archivo : path) (ev : event) : bool :=
  match ev with
  | Call (c_stat p) _ => bool_decide (p = archivo)
  | _ => false
  end.

Definition es_move_de (archivo : path) (ev : event) : bool :=
  match ev with
  | Call (c_move p _) _ => bool_decide (p = archivo)
  | _ => false
  end.

Definition veces_stat (archivo : path) (t : list event) : nat :=
  length (List.filter (es_stat_de archivo) t).

Definition veces_move (archivo : path) (t : list event) : nat :=
  length (List.filter (es_move_de archivo) t).

(** No call fails in the environment. *)
Definition entorno_sin_fallos (env : Env) : Prop :=
  forall c, fault env c = None.

(** A path of the tree that is not the log file of the script. *)
Definition fuera_del_log (q : path) : Prop :=
  match q with
  | x :: _ => x <> "ingestor.log"
  | [] => False
  end.



(** ** Inputs of the further properties *)


(** A working directory where [bronze] is a regular file. *)
Definition fs_bronze_archivo : FS := {[ "bronze" := EFile (File 7 3) ]}.

(** A working directory that holds an empty [landing/] only. *)
Definition fs_solo_landing : FS := {[ "landing" := EDir ∅ ]}.

(** A working directory where [landing] is a regular file. *)
Definition fs_landing_archivo : FS := {[ "landing" := EFile (File 1 10) ]}.

(** A file of [landing/] whose name is that of a regular file of
    [bronze/]. *)
Definition fs_sobrescribe : FS :=
  {[ "landing" := EDir {[ "a.csv" := EFile (File 1 10) ]};
     "bronze" := EDir {[ "a.csv" := EFile (File 2 5) ]};
     "bad_data" := EDir ∅ ]}.

(** A file of [landing/] whose name is that of a directory of [bronze/]
    that holds an entry of that name. *)
Definition fs_ocupado : FS :=
  {[ "landing" := EDir {[ "a.csv" := EFile (File 1 10) ]};
     "bronze" := EDir {[ "a.csv" := EDir {[ "a.csv" := EFile (File 2 5) ]} ]};
     "bad_data" := EDir ∅ ]}.

(** An environment that refuses the creation of [landing/]. *)
Definition sin_permiso_landing : Env :=
  {| fault := fun c =>
       match c with
       | c_mkdir d => if String.eqb d "landing" then Some PermissionError else None
       | _ => None
       end;
     dir_size := fun _ => 4096;
     now := fun k => Z.of_nat k;
     copia_parcial := fun _ _ => None |}.

(** An environment where [exists] fails on the entries of a directory. *)
Definition sin_verificacion : Env :=
  {| fault := fun c =>
       match c with
       | c_exists [_; _] => Some OSError
       | _ => None
       end;
     dir_size := fun _ => 4096;
     now := fun k => Z.of_nat k;
     copia_parcial := fun _ _ => None |}.

(** An environment where [is_file] fails. *)
Definition sin_is_file : Env :=
  {| fault := fun c =>
       match c with
       | c_is_file _ => Some PermissionError
       | _ => None
       end;
     dir_size := fun _ => 4096;
     now := fun k => Z.of_nat k;
     copia_parcial := fun _ _ => None |}.

(** An environment where [glob] fails. *)
Definition sin_glob : Env :=
  {| fault := fun c =>
       match c with
       | c_glob _ => Some OSError
       | _ => None
       end;
     dir_size := fun _ => 4096;
     now := fun k => Z.of_nat k;
     copia_parcial := fun _ _ => None |}.


(** An environment in which [landing/] is on another device than the
    destinations: [os.rename] fails, and [shutil.move] copies. *)
Definition otro_dispositivo : Env :=
  {| fault := fun c =>
       match c with
       | c_rename _ _ => Some OSError
       | _ => None
       end;
     dir_size := fun _ => 4096;
     now := fun k => Z.of_nat k;
     copia_parcial := fun _ _ => None |}.
(** * Paths and updates *)

Lemma geto_None p : geto p None = None.
Proof. by destruct p. Qed.

Lemma geto_app p r o : geto (p ++ r) o = geto r (geto p o).
Proof.
  revert o. induction p as [|x p IH]; intros o; simpl; [done|].
  destruct o as [[f|ch]|]; simpl; auto using geto_None.
  all: by rewrite geto_None.
Qed.

Lemma strip_prefix_Some p q r : strip_prefix p q = Some r <-> q = p ++ r.
Proof.
  revert q. induction p as [|x p IH]; intros q; simpl.
  - split; congruence.
  - destruct q as [|y q]; [split; congruence|].
    case_decide; subst.
    + rewrite IH. split; congruence.
    + split; congruence.
Qed.

Lemma strip_prefix_app p r : strip_prefix p (p ++ r) = Some r.
Proof. by apply strip_prefix_Some. Qed.

Lemma is_prefix_true p q : is_prefix p q = true <-> exists r, q = p ++ r.
Proof.
  unfold is_prefix. destruct (strip_prefix p q) as [r|] eqn:E.
  - apply strip_prefix_Some in E. split; eauto.
  - split; [done|]. intros [r ->]. by rewrite strip_prefix_app in E.
Qed.

(** Under the updated path one reads the new content. *)
Lemma geto_updo_under p r v o :
  chain p o -> geto (p ++ r) (updo p v o) = geto r v.
Proof.
  revert o. induction p as [|x p IH]; intros o Hc; simpl in *; [done|].
  destruct o as [[f|ch]|]; try done.
  rewrite lookup_partial_alter_eq. by apply IH.
Qed.

(** Away from the updated path nothing changes but the content of the
    directories above it. *)
Lemma kind_updo_away p q v o :
  strip_prefix p q = None -> kind_of (geto q (updo p v o)) = kind_of (geto q o).
Proof.
  revert q o. induction p as [|x p IH]; intros q o Hs; simpl in *; [done|].
  destruct o as [[f|ch]|]; try done.
  destruct q as [|y q]; simpl; [done|].
  case_decide; subst.
  - rewrite lookup_partial_alter_eq. by apply IH.
  - by rewrite lookup_partial_alter_ne.
Qed.

Lemma chain_parent p o :
  p <> [] -> is_dir (geto (parent p) o) = true -> chain p o.
Proof.
  revert o. induction p as [|x p IH]; intros o Hp Hd; [done|].
  destruct p as [|y p].
  - simpl in *. by destruct o as [[f|ch]|].
  - change (parent (x :: y :: p)) with (x :: parent (y :: p)) in Hd.
    simpl in Hd. destruct o as [[f|ch]|]; try done.
    simpl. apply (IH (ch !! x)); done.
Qed.

Lemma chain_get p o e : geto p o = Some e -> chain p o.
Proof.
  revert o. induction p as [|x p IH]; intros o H; simpl in *; [done|].
  destruct o as [[f|ch]|]; try done. by apply IH.
Qed.

Lemma fs_get_upd_under p r v (fs : FS) :
  p <> [] -> chain p (Some (EDir fs)) ->
  fs_get (p ++ r) (fs_upd p v fs) = geto r v.
Proof.
  intros Hp Hc. destruct p as [|x p]; [done|].
  unfold fs_get, fs_upd. apply (geto_updo_under (x :: p) r v (Some (EDir fs)) Hc).
Qed.

Lemma kind_fs_upd_away p q v (fs : FS) :
  strip_prefix p q = None ->
  kind_of (fs_get q (fs_upd p v fs)) = kind_of (fs_get q fs).
Proof.
  intros Hs. destruct p as [|x p]; [done|].
  unfold fs_get, fs_upd. apply (kind_updo_away (x :: p) q v (Some (EDir fs)) Hs).
Qed.

Lemma file_at_kind q (fs1 fs2 : FS) :
  kind_of (fs_get q fs1) = kind_of (fs_get q fs2) -> file_at q fs1 = file_at q fs2.
Proof.
  unfold file_at. destruct (fs_get q fs1) as [[?|?]|], (fs_get q fs2) as [[?|?]|];
    simpl; congruence.
Qed.

Lemma is_dir_kind (o1 o2 : option entry) :
  kind_of o1 = kind_of o2 -> is_dir o1 = is_dir o2.
Proof. destruct o1 as [[?|?]|], o2 as [[?|?]|]; simpl; congruence. Qed.

(** * The file-system calls *)

Lemma parent_prefix p : p <> [] -> exists x, p = parent p ++ [x].
Proof. intros Hp. exists (List.last p ""). by apply app_removelast_last. Qed.

Lemma rename_raise src dst fs e fs' :
  rename src dst fs = (Raise e, fs') -> fs' = fs.
Proof.
  unfold rename. intros H.
  repeat (match type of H with
          | context [match ?x with _ => _ end] => destruct x
          end; simpl in H); congruence.
Qed.

(** A successful rename does nothing when source and destination are two
    names of one file; otherwise it relocates the entry: it is read under
    [dst], it is gone from [src], and the rest of the tree keeps its shape. *)
Lemma rename_ok src dst fs p fs' :
  rename src dst fs = (Ok p, fs') ->
  p = dst /\
  exists e, fs_get src fs = Some e /\
    ((exists f, e = EFile f /\ mismo_archivo f (file_at dst fs) = true /\ fs' = fs) \/
     ((forall f, e = EFile f -> mismo_archivo f (file_at dst fs) = false) /\
      (forall r, fs_get (dst ++ r) fs' = geto r (Some e)) /\
      (forall q, strip_prefix dst q = None -> is_prefix src q = true ->
                 kind_of (fs_get q fs') = KNone) /\
      (forall q, strip_prefix dst q = None -> is_prefix src q = false ->
                 kind_of (fs_get q fs') = kind_of (fs_get q fs)))).
Proof.
  unfold rename. intros H.
  destruct (fs_get src fs) as [e|] eqn:Hsrc; [|congruence].
  destruct (is_dir (Some e) && is_prefix src dst) eqn:Hg; [congruence|].
  destruct (is_dir (fs_get (parent dst) fs)) eqn:Hpar; simpl in H; [|congruence].
  assert (Hdst : dst <> []).
  { intros ->. simpl in H. unfold fs_get in H. simpl in H. congruence. }
  assert (Hs : src <> []).
  { intros ->. unfold fs_get in Hsrc. simpl in Hsrc. injection Hsrc as <-.
    simpl in Hg. unfold is_prefix in Hg. simpl in Hg. congruence. }
  assert (Hfs' : p = dst /\
            ((exists f, e = EFile f /\ mismo_archivo f (file_at dst fs) = true /\ fs' = fs) \/
             ((forall f, e = EFile f -> mismo_archivo f (file_at dst fs) = false) /\
              fs' = fs_upd dst (Some e) (fs_upd src None fs)))).
  { unfold file_at, mismo_archivo.
    destruct (fs_get dst fs) as [[g|?]|], e as [f|?]; simpl in H; try congruence.
    - destruct (decide (fid g = fid f)) as [Hfid|Hfid]; injection H as <- <-.
      + split; [done|]. left. exists f. by rewrite bool_decide_eq_true_2.
      + split; [done|]. right. split; [|done].
        intros f0 [= <-]. by rewrite bool_decide_eq_false_2.
    - injection H as <- <-. split; [done|]. right. by split.
    - injection H as <- <-. split; [done|]. right. by split. }
  destruct Hfs' as [-> [Hsame|[Hdif ->]]]; (split; [done|]); exists e;
    (split; [done|]); [by left|right].
  split; [done|].
  assert (Hnp : strip_prefix src (parent dst) = None).
  { destruct (strip_prefix src (parent dst)) as [r|] eqn:E; [|done].
    apply strip_prefix_Some in E.
    destruct (parent_prefix dst Hdst) as [x Hx].
    assert (Hpre : is_prefix src dst = true).
    { apply is_prefix_true. exists (r ++ [x]). rewrite Hx at 1. rewrite E.
      by rewrite <- app_assoc. }
    rewrite Hpre, andb_true_r in Hg.
    unfold fs_get in Hpar, Hsrc. rewrite E, geto_app, Hsrc in Hpar.
    destruct e as [f|ch]; [|done].
    destruct r; simpl in Hpar; done. }
  assert (Hchain : chain dst (Some (EDir (fs_upd src None fs)))).
  { apply chain_parent; [done|].
    rewrite <- Hpar. apply is_dir_kind. by apply kind_fs_upd_away. }
  split; [|split].
  - intros r. by apply fs_get_upd_under.
  - intros q Hq Hsq. rewrite kind_fs_upd_away by done.
    apply is_prefix_true in Hsq as [r ->].
    rewrite fs_get_upd_under; [by rewrite geto_None|done|].
    by apply (chain_get _ _ e).
  - intros q Hq Hsq. rewrite kind_fs_upd_away by done.
    apply kind_fs_upd_away. unfold is_prefix in Hsq.
    by destruct (strip_prefix src q).
Qed.

Section Calls.

Variable env : Env.

Lemma call_inv {A} c (sem : FS -> res A * FS) fs r fs' t :
  call env c sem fs = (r, fs', t) ->
  (exists e, fault env c = Some e /\ r = Raise e /\ fs' = fs /\ t = [Call c (Some e)]) \/
  (fault env c = None /\ sem fs = (r, fs') /\ t = [Call c (raised r)]).
Proof.
  unfold call. destruct (fault env c) as [e|].
  - intros [= <- <- <-]. left. eauto.
  - destruct (sem fs) as [r0 fs0]. intros [= <- <- <-]. right. eauto.
Qed.

Lemma fs_of_eq {A} (r : res A) (fs : FS) (t : list event) : fs_of (r, fs, t) = fs.
Proof. done. Qed.

Lemma trace_of_eq {A} (r : res A) (fs : FS) (t : list event) :
  trace_of (r, fs, t) = t.
Proof. done. Qed.

Lemma result_of_eq {A} (r : res A) (fs : FS) (t : list event) :
  result_of (r, fs, t) = r.
Proof. done. Qed.

Lemma kind_None_iff (o : option entry) : kind_of o = KNone <-> o = None.
Proof. destruct o as [[?|?]|]; split; done. Qed.

Lemma file_at_get q f fs : file_at q fs = Some f <-> fs_get q fs = Some (EFile f).
Proof.
  unfold file_at. destruct (fs_get q fs) as [[g|ch]|]; split; congruence.
Qed.

Lemma is_prefix_false p q : is_prefix p q = false <-> strip_prefix p q = None.
Proof. unfold is_prefix. destruct (strip_prefix p q); split; congruence. Qed.

(** What [escrito] leaves at [p], and that it leaves the rest alone. *)
Lemma kind_escrito_away p q k fs :
  strip_prefix p q = None ->
  kind_of (fs_get q (escrito p k fs)) = kind_of (fs_get q fs).
Proof. apply kind_fs_upd_away. Qed.

Lemma file_at_escrito p k fs :
  is_dir (fs_get (parent p) fs) = true -> is_dir (fs_get p fs) = false ->
  file_at p (escrito p k fs) =
    Some (File (match file_at p fs with
                | Some g => fid g
                | None => nuevo_fid fs
                end) k).
Proof.
  intros Hpar Hnd.
  assert (Hp : p <> []) by (by intros ->).
  pose proof (fs_get_upd_under p []
                (Some (EFile (File (match file_at p fs with
                                    | Some g => fid g
                                    | None => nuevo_fid fs
                                    end) k))) fs Hp
                (chain_parent p _ Hp Hpar)) as H.
  rewrite app_nil_r in H. unfold file_at at 1, escrito. by rewrite H.
Qed.

(** [copy2] changes nothing, or writes at most the bytes of the file to a
    destination that can be opened and is not the file itself. *)
Lemma copy2_inv src dst f fs r fs' :
  copy2 env src dst f fs = (r, fs') ->
  (fs' = fs /\ r <> Ok tt) \/
  (is_dir (fs_get (parent dst) fs) = true /\ is_dir (fs_get dst fs) = false /\
   mismo_archivo f (file_at dst fs) = false /\
   exists k, fs' = escrito dst k fs /\ k <= st_size f /\ (r = Ok tt -> k = st_size f)).
Proof.
  unfold copy2. destruct (mismo_archivo f (file_at dst fs)) eqn:Hm.
  { intros [= <- <-]. by left. }
  destruct (fault env (c_copy src dst)) as [e|].
  - destruct (copia_parcial env src dst) as [k|]; [|intros [= <- <-]; by left].
    destruct (is_dir (fs_get (parent dst) fs)) eqn:Hpar; simpl;
      [|intros [= <- <-]; by left].
    destruct (is_dir (fs_get dst fs)) eqn:Hd; simpl; intros [= <- <-]; [by left|].
    right. split; [done|]. split; [done|]. split; [done|].
    exists (Nat.min k (st_size f)). split; [done|]. split; [lia|done].
  - destruct (is_dir (fs_get (parent dst) fs)) eqn:Hpar; simpl;
      [|intros [= <- <-]; by left].
    destruct (is_dir (fs_get dst fs)) eqn:Hd; intros [= <- <-]; [by left|].
    right. split; [done|]. split; [done|]. split; [done|].
    exists (st_size f). split; [done|]. split; [lia|done].
Qed.

Lemma unlink_inv p fs r fs' :
  unlink env p fs = (r, fs') ->
  match r with
  | Ok _ => is_reg (fs_get p fs) = true /\ fs' = fs_upd p None fs
  | Raise _ => fs' = fs
  end.
Proof.
  unfold unlink. destruct (fault env (c_unlink p)); [by intros [= <- <-]|].
  destruct (fs_get p fs) as [[g|ch]|]; by intros [= <- <-].
Qed.

(** Whatever [mover_a] does, it is done at [dst] and under [src]. *)
Lemma mover_a_marco src dst fs r fs' :
  mover_a env src dst fs = (r, fs') ->
  forall q, strip_prefix dst q = None -> is_prefix src q = false ->
    kind_of (fs_get q fs') = kind_of (fs_get q fs).
Proof.
  unfold mover_a. intros H q Hq Hsq.
  assert (Hren : forall r0 fs0, rename src dst fs = (r0, fs0) ->
            kind_of (fs_get q fs0) = kind_of (fs_get q fs)).
  { intros [p|e] fs0 Hr.
    - apply rename_ok in Hr as (_ & e & _ & [(f & _ & _ & ->)|(_ & _ & _ & Hrest)]);
        [done|by apply Hrest].
    - by apply rename_raise in Hr as ->. }
  destruct (fs_get src fs) as [[f|ch]|] eqn:Hsrc; try (by eapply Hren).
  destruct (fault env (c_rename src dst)) as [e0|]; [|by eapply Hren].
  destruct (copy2 env src dst f fs) as [[u|e] fs1] eqn:Hc;
    apply copy2_inv in Hc as [[-> Hno]|(_ & _ & _ & k & -> & _)].
  - by destruct u.
  - destruct (unlink env src (escrito dst k fs)) as [[u'|e'] fs2] eqn:Hu;
      apply unlink_inv in Hu; injection H as <- <-.
    + destruct Hu as [_ ->]. apply is_prefix_false in Hsq.
      rewrite kind_fs_upd_away by done. by apply kind_escrito_away.
    + subst fs2. by apply kind_escrito_away.
  - by injection H as <- <-.
  - injection H as <- <-. by apply kind_escrito_away.
Qed.

(** [mover_a] on a regular file [f]: when it returns, [src] and [dst] were
    two names of [f] and nothing was done, or [f] was relocated to [dst], or
    (the rename having failed) [dst] holds a copy of [f] and [src] is gone;
    when it raises, [f] is still at [src], and [dst] may hold what a copy has
    written. *)
Lemma mover_a_archivo src dst f fs r fs' :
  file_at src fs = Some f ->
  strip_prefix dst src = None -> strip_prefix src dst = None ->
  mover_a env src dst fs = (r, fs') ->
  match r with
  | Ok p =>
      p = dst /\
      ((fault env (c_rename src dst) = None /\
        mismo_archivo f (file_at dst fs) = true /\ fs' = fs) \/
       (fault env (c_rename src dst) = None /\
        mismo_archivo f (file_at dst fs) = false /\
        file_at dst fs' = Some f /\ fs_get src fs' = None) \/
       (fault env (c_rename src dst) <> None /\
        mismo_archivo f (file_at dst fs) = false /\
        fs_get src fs' = None /\
        exists g, file_at dst fs' = Some g /\ st_size g = st_size f /\
                  (forall g0, file_at dst fs = Some g0 -> fid g = fid g0) /\
                  (file_at dst fs = None -> fid g = nuevo_fid fs)))
  | Raise e =>
      file_at src fs' = Some f /\
      (fs' = fs \/
       (fault env (c_rename src dst) <> None /\
        mismo_archivo f (file_at dst fs) = false /\
        exists g, file_at dst fs' = Some g /\ st_size g <= st_size f))
  end.
Proof.
  intros Hf Hds Hsd H. pose proof Hf as Hsrc. apply file_at_get in Hsrc.
  unfold mover_a in H. rewrite Hsrc in H.
  destruct (fault env (c_rename src dst)) as [e0|] eqn:Hfr.
  - destruct (copy2 env src dst f fs) as [[u|e] fs1] eqn:Hc;
      apply copy2_inv in Hc as [[-> Hno]|(Hpar & Hnd & Hm & k & -> & Hk & Hok)].
    + by destruct u.
    + specialize (Hok ltac:(by destruct u)). subst k.
      pose proof (file_at_escrito dst (st_size f) fs Hpar Hnd) as Hw.
      assert (Hs1 : fs_get src (escrito dst (st_size f) fs) = Some (EFile f)).
      { apply file_at_get. rewrite <- Hf. apply file_at_kind.
        by apply kind_escrito_away. }
      destruct (unlink env src (escrito dst (st_size f) fs)) as [[u'|e'] fs2] eqn:Hu;
        apply unlink_inv in Hu; injection H as <- <-.
      * destruct Hu as [_ ->]. split; [done|]. right. right.
        split; [done|]. split; [done|]. split.
        { assert (Hs : src <> []) by (intros ->; by destruct dst).
          pose proof (fs_get_upd_under src [] None _ Hs (chain_get _ _ _ Hs1)) as Hg.
          by rewrite app_nil_r in Hg. }
        eexists. split.
        { rewrite <- Hw. apply file_at_kind. by apply kind_fs_upd_away. }
        split; [done|]. split.
        -- by intros g0 ->.
        -- by intros ->.
      * subst fs2. split; [by apply file_at_get|]. right.
        split; [done|]. split; [done|]. eexists. split; [exact Hw|]. simpl. lia.
    + injection H as <- <-. split; [done|]. by left.
    + injection H as <- <-.
      pose proof (file_at_escrito dst k fs Hpar Hnd) as Hw.
      split.
      { rewrite <- Hf. apply file_at_kind. by apply kind_escrito_away. }
      right. split; [done|]. split; [done|]. eexists. split; [exact Hw|]. done.
  - destruct r as [p|e].
    + apply rename_ok in H as (-> & e & He & [(f0 & -> & Hm & ->)|(Hm & Hunder & Hgone & _)]);
        rewrite Hsrc in He; injection He as <-; (split; [done|]).
      * by left.
      * right. left. split; [done|]. split; [by apply Hm|]. split.
        -- apply file_at_get. specialize (Hunder []). by rewrite app_nil_r in Hunder.
        -- apply kind_None_iff. apply Hgone; [done|]. apply is_prefix_true.
           exists []. by rewrite app_nil_r.
    + apply rename_raise in H as ->. split; [done|]. by left.
Qed.

(** [shutil.move] leaves one event, and what it does is done at its
    destination and under its source. *)
Lemma shutil_move_traza src dst fs :
  trace_of (shutil_move env src dst fs) =
    [Call (c_move src dst) (raised (result_of (shutil_move env src dst fs)))].
Proof.
  unfold shutil_move.
  by destruct (if is_dir (fs_get dst fs) then _ else _) as [r fs'].
Qed.

Lemma shutil_move_marco src dst fs :
  let p := if is_dir (fs_get dst fs) then dst ++ [name src] else dst in
  forall q, strip_prefix p q = None -> is_prefix src q = false ->
    kind_of (fs_get q (fs_of (shutil_move env src dst fs))) = kind_of (fs_get q fs).
Proof.
  unfold shutil_move. destruct (is_dir (fs_get dst fs)); cbv zeta.
  - destruct (decide (src = dst)); [done|].
    destruct (fs_get (dst ++ [name src]) fs); [done|].
    intros q Hq Hsq.
    destruct (mover_a env src (dst ++ [name src]) fs) as [r fs'] eqn:Hm.
    unfold fs_of. simpl. by apply (mover_a_marco _ _ _ _ _ Hm).
  - intros q Hq Hsq.
    destruct (mover_a env src dst fs) as [r fs'] eqn:Hm.
    unfold fs_of. simpl. by apply (mover_a_marco _ _ _ _ _ Hm).
Qed.

End Calls.

(** * [procesar_archivo] *)

Section Procesar.

Variable env : Env.

Lemma stat_size_inv p fs r fs' t :
  stat_size env p fs = (r, fs', t) ->
  fs' = fs /\ t = [Call (c_stat p) (raised r)].
Proof.
  intros H. apply call_inv in H as [(e & _ & -> & -> & ->)|(_ & H & ->)]; [done|].
  split; [|done]. cbv beta in H.
  destruct (fs_get p fs) as [[?|?]|]; congruence.
Qed.

Lemma shutil_move_inv src dst fs r fs' t :
  shutil_move env src dst fs = (r, fs', t) -> t = [Call (c_move src dst) (raised r)].
Proof.
  intros H. pose proof (shutil_move_traza env src dst fs) as Ht.
  rewrite H in Ht. exact Ht.
Qed.

(** What [procesar_archivo] does, case by case: the size cannot be read,
    the move fails, or the file is moved. *)
Lemma procesar_archivo_cases archivo fs :
  let n := name archivo in
  (exists e,
      stat_size env archivo fs = (Raise e, fs, [Call (c_stat archivo) (Some e)]) /\
      procesar_archivo env archivo fs =
        (Ok false, fs,
         [Log INFO (MIniciando n); Call (c_stat archivo) (Some e);
          Log ERROR (linea_error n e); Log INFO (MFinalizado n)])) \/
  (exists tamanio e fs',
      stat_size env archivo fs = (Ok tamanio, fs, [Call (c_stat archivo) None]) /\
      shutil_move env archivo [destino_de tamanio; n] fs =
        (Raise e, fs', [Call (c_move archivo [destino_de tamanio; n]) (Some e)]) /\
      procesar_archivo env archivo fs =
        (Ok false, fs',
         [Log INFO (MIniciando n); Call (c_stat archivo) None;
          Log INFO (MTamanio tamanio);
          Call (c_move archivo [destino_de tamanio; n]) (Some e);
          Log ERROR (linea_error n e); Log INFO (MFinalizado n)])) \/
  (exists tamanio p fs',
      stat_size env archivo fs = (Ok tamanio, fs, [Call (c_stat archivo) None]) /\
      shutil_move env archivo [destino_de tamanio; n] fs =
        (Ok p, fs', [Call (c_move archivo [destino_de tamanio; n]) None]) /\
      procesar_archivo env archivo fs =
        (Ok true, fs',
         [Log INFO (MIniciando n); Call (c_stat archivo) None;
          Log INFO (MTamanio tamanio);
          Call (c_move archivo [destino_de tamanio; n]) None;
          linea_movido n tamanio; Log INFO (MFinalizado n)])).
Proof.
  intros n. unfold procesar_archivo, try_finally, try_except, bind, log, ret.
  fold n. simpl.
  destruct (stat_size env archivo fs) as [[[tamanio|e] fs1] ts] eqn:Hs;
    apply stat_size_inv in Hs as Hs'; destruct Hs' as [-> ->]; simpl.
  - right. unfold destino_de, linea_movido.
    destruct (0 <? tamanio)%nat eqn:Hz.
    + destruct (shutil_move env archivo ["bronze"; n] fs) as [[[p|e] fs2] tm] eqn:Hm;
        apply shutil_move_inv in Hm as Hm'; subst tm; simpl.
      * right. exists tamanio, p, fs2. by rewrite Hz.
      * left. exists tamanio, e, fs2. rewrite Hz. by destruct e.
    + destruct (shutil_move env archivo ["bad_data"; n] fs) as [[[p|e] fs2] tm] eqn:Hm;
        apply shutil_move_inv in Hm as Hm'; subst tm; simpl.
      * right. exists tamanio, p, fs2. by rewrite Hz.
      * left. exists tamanio, e, fs2. rewrite Hz. by destruct e.
  - left. exists e. by destruct e.
Qed.

Lemma destino_de_no_landing tamanio : destino_de tamanio <> "landing".
Proof. unfold destino_de. by destruct (0 <? tamanio)%nat. Qed.

Lemma destino_de_cases tamanio :
  destino_de tamanio = "bronze" \/ destino_de tamanio = "bad_data".
Proof. unfold destino_de. destruct (0 <? tamanio)%nat; auto. Qed.

Lemma destino_real_cases d n fs :
  destino_real d n fs = [d; n] \/ destino_real d n fs = [d; n; n].
Proof. unfold destino_real. destruct (is_dir (fs_get [d; n] fs)); auto. Qed.

(** The move of a regular file of [landing/] to another directory. *)
Lemma shutil_move_landing n d f fs r fs' t :
  d <> "landing" ->
  file_at ["landing"; n] fs = Some f ->
  shutil_move env ["landing"; n] [d; n] fs = (r, fs', t) ->
  let src := ["landing"; n] in
  let p := destino_real d n fs in
  match r with
  | Ok p' =>
      p' = p /\
      ((fault env (c_rename src p) = None /\
        mismo_archivo f (file_at p fs) = true /\ fs' = fs) \/
       (fault env (c_rename src p) = None /\
        mismo_archivo f (file_at p fs) = false /\
        file_at p fs' = Some f /\ fs_get src fs' = None) \/
       (fault env (c_rename src p) <> None /\
        mismo_archivo f (file_at p fs) = false /\
        fs_get src fs' = None /\
        exists g, file_at p fs' = Some g /\ st_size g = st_size f /\
                  (forall g0, file_at p fs = Some g0 -> fid g = fid g0) /\
                  (file_at p fs = None -> fid g = nuevo_fid fs)))
  | Raise e =>
      file_at src fs' = Some f /\
      (fs' = fs \/
       (fault env (c_rename src p) <> None /\
        mismo_archivo f (file_at p fs) = false /\
        exists g, file_at p fs' = Some g /\ st_size g <= st_size f))
  end.
Proof.
  intros Hd Hf H src p. subst src p. unfold destino_real.
  unfold shutil_move in H.
  destruct (is_dir (fs_get [d; n] fs)) eqn:Hdir.
  - rewrite decide_False in H by congruence.
    change ([d; n] ++ [name ["landing"; n]]) with [d; n; n] in H.
    destruct (fs_get [d; n; n] fs) eqn:Hnn.
    { injection H as <- <- <-. split; [done|]. by left. }
    destruct (mover_a env ["landing"; n] [d; n; n] fs) as [r0 fs0] eqn:Hm.
    injection H as <- <- <-.
    apply (mover_a_archivo env _ _ f) in Hm; [done|done| |];
      simpl; by rewrite decide_False by congruence.
  - destruct (mover_a env ["landing"; n] [d; n] fs) as [r0 fs0] eqn:Hm.
    injection H as <- <- <-.
    apply (mover_a_archivo env _ _ f) in Hm; [done|done| |];
      simpl; by rewrite decide_False by congruence.
Qed.

Lemma stat_size_file a fs f tamanio fs1 t :
  file_at a fs = Some f ->
  stat_size env a fs = (Ok tamanio, fs1, t) -> tamanio = st_size f.
Proof.
  unfold file_at. intros Hf H.
  apply call_inv in H as [(e & _ & [=] & _)|(_ & H & _)]. cbv beta in H.
  destruct (fs_get a fs) as [[g|ch]|]; try done. congruence.
Qed.

(** What [procesar_archivo] does to a regular file [f] of [landing/].
    When it returns [False] the file is still there, and the destination is
    as it was or holds what a failed copy has written.  When it returns
    [True] the file was already in the destination under the same name and
    nothing was done, or it was relocated, or it was copied and removed. *)
Lemma procesar_archivo_efecto n f fs :
  file_at ["landing"; n] fs = Some f ->
  let x := procesar_archivo env ["landing"; n] fs in
  let src := ["landing"; n] in
  let d := destino_de (st_size f) in
  let p := destino_real d n fs in
  (result_of x = Ok false /\
   file_at src (fs_of x) = Some f /\
   (fs_of x = fs \/
    (fault env (c_rename src p) <> None /\
     mismo_archivo f (file_at p fs) = false /\
     exists g, file_at p (fs_of x) = Some g /\ st_size g <= st_size f))) \/
  (result_of x = Ok true /\
   In (Call (c_stat src) None) (trace_of x) /\
   In (Call (c_move src [d; n]) None) (trace_of x) /\
   ((fault env (c_rename src p) = None /\
     mismo_archivo f (file_at p fs) = true /\ fs_of x = fs) \/
    (fault env (c_rename src p) = None /\
     mismo_archivo f (file_at p fs) = false /\
     file_at p (fs_of x) = Some f /\ fs_get src (fs_of x) = None) \/
    (fault env (c_rename src p) <> None /\
     mismo_archivo f (file_at p fs) = false /\
     fs_get src (fs_of x) = None /\
     exists g, file_at p (fs_of x) = Some g /\ st_size g = st_size f /\
               (forall g0, file_at p fs = Some g0 -> fid g = fid g0) /\
               (file_at p fs = None -> fid g = nuevo_fid fs)))).
Proof.
  intros Hf x src d p. subst x src d p.
  destruct (procesar_archivo_cases ["landing"; n] fs)
    as [(e & _ & ->)|[(tam & e & fs' & Hs & Hm & ->)|(tam & q & fs' & Hs & Hm & ->)]];
    unfold result_of, fs_of, trace_of; cbn [fst snd].
  - left. split; [done|]. split; [done|]. by left.
  - apply (stat_size_file _ _ f) in Hs as ->; [|done].
    change (name ["landing"; n]) with n in Hm.
    apply (shutil_move_landing n _ f) in Hm; [|apply destino_de_no_landing|done].
    left. split; [done|]. exact Hm.
  - apply (stat_size_file _ _ f) in Hs as ->; [|done].
    change (name ["landing"; n]) with n in *.
    apply (shutil_move_landing n _ f) in Hm; [|apply destino_de_no_landing|done].
    right. split; [done|]. split; [simpl; auto|]. split; [simpl; auto 10|].
    apply Hm.
Qed.

(** Whatever [procesar_archivo] does to the tree, it does it under the path
    it is given and at the place in [bronze/] or [bad_data/] that goes with
    the name. *)
Lemma procesar_archivo_marco n fs :
  exists d p,
    (d = "bronze" \/ d = "bad_data") /\ (p = [d; n] \/ p = [d; n; n]) /\
    forall q, strip_prefix p q = None -> is_prefix ["landing"; n] q = false ->
      kind_of (fs_get q (fs_of (procesar_archivo env ["landing"; n] fs))) =
      kind_of (fs_get q fs).
Proof.
  destruct (procesar_archivo_cases ["landing"; n] fs)
    as [(e & _ & ->)|[(tam & e & fs' & _ & Hm & ->)|(tam & q0 & fs' & _ & Hm & ->)]];
    unfold fs_of; cbn [fst snd].
  - exists "bronze", ["bronze"; n]. auto.
  - change (name ["landing"; n]) with n in Hm.
    pose proof (shutil_move_marco env ["landing"; n] [destino_de tam; n] fs) as Hfr.
    rewrite Hm in Hfr. unfold fs_of in Hfr. cbn [fst snd] in Hfr.
    exists (destino_de tam), (destino_real (destino_de tam) n fs).
    split; [apply destino_de_cases|]. split; [apply destino_real_cases|]. exact Hfr.
  - change (name ["landing"; n]) with n in Hm.
    pose proof (shutil_move_marco env ["landing"; n] [destino_de tam; n] fs) as Hfr.
    rewrite Hm in Hfr. unfold fs_of in Hfr. cbn [fst snd] in Hfr.
    exists (destino_de tam), (destino_real (destino_de tam) n fs).
    split; [apply destino_de_cases|]. split; [apply destino_real_cases|]. exact Hfr.
Qed.

(** The same for a regular file, whose size gives the place. *)
Lemma procesar_archivo_marco_archivo n f fs :
  file_at ["landing"; n] fs = Some f ->
  forall q, strip_prefix (destino_real (destino_de (st_size f)) n fs) q = None ->
            is_prefix ["landing"; n] q = false ->
    kind_of (fs_get q (fs_of (procesar_archivo env ["landing"; n] fs))) =
    kind_of (fs_get q fs).
Proof.
  intros Hf.
  destruct (procesar_archivo_cases ["landing"; n] fs)
    as [(e & _ & ->)|[(tam & e & fs' & Hs & Hm & ->)|(tam & q0 & fs' & Hs & Hm & ->)]];
    unfold fs_of; cbn [fst snd]; [done| |];
    apply (stat_size_file _ _ f) in Hs as ->; try done;
    change (name ["landing"; n]) with n in Hm;
    pose proof (shutil_move_marco env ["landing"; n] [destino_de (st_size f); n] fs)
      as Hfr;
    rewrite Hm in Hfr; unfold fs_of in Hfr; cbn [fst snd] in Hfr; exact Hfr.
Qed.


End Procesar.

(** The outcome of [procesar_archivo] against its trace. *)
Lemma procesar_archivo_resultado env archivo fs :
  exists b,
    result_of (procesar_archivo env archivo fs) = Ok b /\
    (b = true <-> movido (trace_of (procesar_archivo env archivo fs)) archivo) /\
    (b = false <-> fallo (trace_of (procesar_archivo env archivo fs)) archivo) /\
    (b = false -> ~ movido (trace_of (procesar_archivo env archivo fs)) archivo).
Proof.
  destruct (procesar_archivo_cases env archivo fs)
    as [(e & _ & ->)|[(tam & e & fs' & _ & _ & ->)|(tam & p & fs' & _ & _ & ->)]];
    unfold result_of, trace_of, fs_of, movido, fallo, linea_movido; simpl.
  - exists false. split; [done|]. split; [|split].
    + split; [done|]. intros [dst Hm]. intuition congruence.
    + split; [|done]. intros _. exists e. by left; right; left.
    + intros _ [dst Hm]. intuition congruence.
  - exists false. split; [done|]. split; [|split].
    + split; [done|]. intros [dst Hm]. intuition congruence.
    + split; [|done]. intros _. exists e. right. eexists. do 3 right. by left.
    + intros _ [dst Hm]. intuition congruence.
  - exists true. split; [done|]. split; [|split].
    + split; [|done]. intros _. eexists. do 3 right. by left.
    + split; [done|].
      intros [e [Hm|[dst Hm]]]; destruct (0 <? tam)%nat; intuition congruence.
    + done.
Qed.

Lemma en_destino_real d n g fs fs' :
  file_at (destino_real d n fs) fs' = Some g -> en_destino d n g fs'.
Proof.
  unfold en_destino. destruct (destino_real_cases d n fs) as [-> | ->]; auto.
Qed.

Lemma mismo_archivo_false f o :
  mismo_archivo f o = false <-> forall g, o = Some g -> fid g <> fid f.
Proof.
  unfold mismo_archivo. destruct o as [g|]; [|split; [by intros _ g|done]].
  rewrite bool_decide_eq_false. split.
  - by intros H g0 [= <-].
  - intros H. by apply H.
Qed.

(** The effect of [procesar_archivo] on a regular file of [landing/], as
    the statements below use it. *)
Lemma procesar_archivo_en_landing env n f fs :
  file_at ["landing"; n] fs = Some f ->
  let x := procesar_archivo env ["landing"; n] fs in
  let d := destino_de (st_size f) in
  (result_of x = Ok true ->
     In (Call (c_stat ["landing"; n]) None) (trace_of x) /\
     In (Call (c_move ["landing"; n] [d; n]) None) (trace_of x) /\
     (exists g, en_destino d n g (fs_of x) /\ es_o_copia f g) /\
     (mismo_archivo f (file_at (destino_real d n fs) fs) = false ->
        file_at ["landing"; n] (fs_of x) = None) /\
     (mismo_archivo f (file_at (destino_real d n fs) fs) = true ->
        file_at ["landing"; n] (fs_of x) = Some f) /\
     (fault env (c_rename ["landing"; n] (destino_real d n fs)) = None ->
      mismo_archivo f (file_at (destino_real d n fs) fs) = false ->
        file_at (destino_real d n fs) (fs_of x) = Some f)) /\
  (result_of x = Ok false -> file_at ["landing"; n] (fs_of x) = Some f).
Proof.
  intros Hf x d. subst x d.
  destruct (procesar_archivo_efecto env n f fs Hf)
    as [(Hr & Hl & _)|(Hr & Hst & Hmv & Hcases)].
  { split; [congruence|done]. }
  split; [|congruence]. intros _. split; [done|]. split; [done|].
  set (p := destino_real (destino_de (st_size f)) n fs) in *.
  destruct Hcases as [(Hfr & Hm & ->)|[(Hfr & Hm & Hp & Hgone)|(Hfr & Hm & Hgone & g & Hp & Hsz & _)]].
  - split; [|split; [congruence|split; [done|congruence]]].
    unfold mismo_archivo in Hm. destruct (file_at p fs) as [g|] eqn:Hg; [|done].
    apply bool_decide_eq_true in Hm. exists g. split; [|by left].
    by apply (en_destino_real _ _ _ fs).
  - split; [|split; [|split; [congruence|done]]].
    + exists f. split; [by apply (en_destino_real _ _ _ fs)|by left].
    + intros _. unfold file_at. by rewrite Hgone.
  - split; [|split; [|split; [congruence|done]]].
    + exists g. split; [by apply (en_destino_real _ _ _ fs)|by right].
    + intros _. unfold file_at. by rewrite Hgone.
Qed.

(** C10. [procesar_archivo] never raises: it returns a boolean for every
    path and every file system.  It returns [True] exactly when its move
    succeeded (whichever the destination), and [False] exactly when reading
    the size or moving raised, and then no move succeeded.  For a regular
    file [f] of [landing/], [True] means that the destination that goes with
    the size of [f] holds [f] or a copy of it, and that [f] has left
    [landing/] unless it already was in the destination under the same name;
    [False] means that [f] is still in [landing/]. *)
Theorem procesar_archivo_total env archivo fs :
  let x := procesar_archivo env archivo fs in
  exists b,
    result_of x = Ok b /\
    (b = true <-> movido (trace_of x) archivo) /\
    (b = false <-> fallo (trace_of x) archivo) /\
    (b = false -> ~ movido (trace_of x) archivo) /\
    (forall n f,
       archivo = ["landing"; n] -> file_at archivo fs = Some f ->
       let d := destino_de (st_size f) in
       (b = true ->
          (exists g, en_destino d n g (fs_of x) /\ es_o_copia f g) /\
          (mismo_archivo f (file_at (destino_real d n fs) fs) = false ->
             file_at archivo (fs_of x) = None) /\
          (mismo_archivo f (file_at (destino_real d n fs) fs) = true ->
             file_at archivo (fs_of x) = Some f)) /\
       (b = false -> file_at archivo (fs_of x) = Some f)).
Proof.
  intros x. subst x.
  destruct (procesar_archivo_resultado env archivo fs) as (b & Hb & Hmov & Hfal & Hno).
  exists b. split; [done|]. split; [done|]. split; [done|]. split; [done|].
  intros n f -> Hf d. subst d.
  destruct (procesar_archivo_en_landing env n f fs Hf) as [Ht Hf'].
  split.
  - intros ->. destruct (Ht Hb) as (_ & _ & Hg & Hgone & Hstay & _). auto.
  - intros ->. by apply Hf'.
Qed.

(** C1. A regular file of [landing/] whose size is read and whose move
    succeeds goes to [bronze/] when its size is positive and to [bad_data/]
    when its size is 0: the move is to that directory, which then holds the
    file or a copy of it (the file itself when [os.rename] was not made to
    fail), and the file is no longer in [landing/], unless it already was in
    the destination under the same name. *)
Theorem clasificacion_por_tamanio env n f fs :
  file_at ["landing"; n] fs = Some f ->
  In (Call (c_stat ["landing"; n]) None)
     (trace_of (procesar_archivo env ["landing"; n] fs)) ->
  movido (trace_of (procesar_archivo env ["landing"; n] fs)) ["landing"; n] ->
  let fs' := fs_of (procesar_archivo env ["landing"; n] fs) in
  let t := trace_of (procesar_archivo env ["landing"; n] fs) in
  let movida (d : string) :=
    In (Call (c_move ["landing"; n] [d; n]) None) t /\
    (exists g, en_destino d n g fs' /\ es_o_copia f g) /\
    (mismo_archivo f (file_at (destino_real d n fs) fs) = false ->
       file_at ["landing"; n] fs' = None) /\
    (fault env (c_rename ["landing"; n] (destino_real d n fs)) = None ->
     mismo_archivo f (file_at (destino_real d n fs) fs) = false ->
       en_destino d n f fs') in
  (0 < st_size f -> movida "bronze") /\
  (st_size f = 0 -> movida "bad_data").
Proof.
  intros Hf Hstat Hmov fs' t movida. subst fs' t movida. cbv beta.
  destruct (procesar_archivo_resultado env ["landing"; n] fs) as (b & Hb & Hm & _).
  apply Hm in Hmov. subst b.
  destruct (procesar_archivo_en_landing env n f fs Hf) as [Ht _].
  destruct (Ht Hb) as (_ & Hmv & Hg & Hgone & _ & Hren).
  assert (Hen : fault env (c_rename ["landing"; n]
                  (destino_real (destino_de (st_size f)) n fs)) = None ->
                mismo_archivo f (file_at (destino_real (destino_de (st_size f)) n fs) fs)
                  = false ->
                en_destino (destino_de (st_size f)) n f
                  (fs_of (procesar_archivo env ["landing"; n] fs))).
  { intros H1 H2. apply (en_destino_real _ _ _ fs). by apply Hren. }
  unfold destino_de in *. split; intros Hsz.
  - assert ((0 <? st_size f)%nat = true) as Hz by (apply Nat.ltb_lt; lia).
    rewrite Hz in *. auto.
  - rewrite Hsz in *. simpl in *. auto.
Qed.

(** * The loop *)

Section Bucle.

Variable env : Env.

Lemma exists_inv p fs r fs' t :
  exists_ env p fs = (r, fs', t) ->
  fs' = fs /\
  ((exists e, fault env (c_exists p) = Some e /\ r = Raise e /\
              t = [Call (c_exists p) (Some e)]) \/
   (fault env (c_exists p) = None /\
    r = Ok (match fs_get p fs with Some _ => true | None => false end) /\
    t = [Call (c_exists p) None])).
Proof.
  intros H. apply call_inv in H as [(e & He & -> & -> & ->)|(He & H & ->)].
  - split; [done|]. left. eauto.
  - injection H as <- <-. split; [done|]. right. eauto.
Qed.

(** One iteration: the outcome of [procesar_archivo], then the counter it
    increments. *)
Lemma paso_cases archivo c fs :
  let n := name archivo in
  let fs1 := fs_of (procesar_archivo env archivo fs) in
  let tp := trace_of (procesar_archivo env archivo fs) in
  (result_of (procesar_archivo env archivo fs) = Ok false /\
   paso env archivo c fs = (Ok (mas_error c), fs1, tp)) \/
  (result_of (procesar_archivo env archivo fs) = Ok true /\
   ((exists e, fault env (c_exists ["bronze"; n]) = Some e /\
       paso env archivo c fs =
         (Ok (mas_error c), fs1,
          tp ++ [Call (c_exists ["bronze"; n]) (Some e); Log ERROR (MNoCapturado n e)])) \/
    (fault env (c_exists ["bronze"; n]) = None /\
     is_Some (fs_get ["bronze"; n] fs1) /\
     paso env archivo c fs =
       (Ok (mas_procesado c), fs1, tp ++ [Call (c_exists ["bronze"; n]) None])) \/
    (fault env (c_exists ["bronze"; n]) = None /\
     fs_get ["bronze"; n] fs1 = None /\
     paso env archivo c fs =
       (Ok (mas_rechazado c), fs1, tp ++ [Call (c_exists ["bronze"; n]) None])))).
Proof.
  intros n fs1 tp. subst fs1 tp.
  destruct (procesar_archivo_resultado env archivo fs) as (b & Hb & _).
  unfold paso, try_except, bind, ret, log. fold n.
  destruct (procesar_archivo env archivo fs) as [[r fs1] tp].
  unfold result_of, fs_of, trace_of in *. simpl in *. subst r. destruct b.
  - right. split; [done|].
    destruct (exists_ env ["bronze"; n] fs1) as [[r fs2] tx] eqn:Hx.
    apply exists_inv in Hx as [-> [(e & He & -> & ->)|(He & -> & ->)]].
    + left. exists e. split; [done|]. simpl. by rewrite <- app_assoc.
    + right.
      destruct (fs_get ["bronze"; n] fs1) eqn:Hg.
      * left. simpl. rewrite ?app_nil_r. eauto.
      * right. simpl. rewrite ?app_nil_r. eauto.
  - left. split; [done|]. by rewrite ?app_nil_r.
Qed.

Lemma paso_total archivo c fs :
  exists c' tx,
    paso env archivo c fs =
      (Ok c', fs_of (procesar_archivo env archivo fs),
       trace_of (procesar_archivo env archivo fs) ++ tx) /\
    total c' = S (total c) /\
    (c' = mas_procesado c \/ c' = mas_rechazado c \/ c' = mas_error c) /\
    Forall (fun ev => ev = Call (c_exists ["bronze"; name archivo]) (fault env (c_exists ["bronze"; name archivo])) \/
                      exists e, ev = Log ERROR (MNoCapturado (name archivo) e)) tx.
Proof.
  destruct (paso_cases archivo c fs)
    as [[_ H]|[_ [(e & He & H)|[(He & _ & H)|(He & _ & H)]]]].
  - exists (mas_error c), []. rewrite app_nil_r.
    split; [done|]. split; [unfold total; simpl; lia|]. split; [auto|constructor].
  - eexists (mas_error c), _. split; [exact H|].
    split; [unfold total; simpl; lia|]. split; [auto|].
    rewrite He. repeat (apply Forall_cons_2; [eauto|]). apply Forall_nil_2.
  - eexists (mas_procesado c), _. split; [exact H|].
    split; [unfold total; simpl; lia|]. split; [auto|].
    rewrite He. repeat (apply Forall_cons_2; [eauto|]). apply Forall_nil_2.
  - eexists (mas_rechazado c), _. split; [exact H|].
    split; [unfold total; simpl; lia|]. split; [auto|].
    rewrite He. repeat (apply Forall_cons_2; [eauto|]). apply Forall_nil_2.
Qed.

Lemma bucle_cons archivo resto c fs c1 fs1 t1 :
  paso env archivo c fs = (Ok c1, fs1, t1) ->
  bucle env (archivo :: resto) c fs =
    (result_of (bucle env resto c1 fs1), fs_of (bucle env resto c1 fs1),
     t1 ++ trace_of (bucle env resto c1 fs1)).
Proof.
  intros H. simpl. unfold bind. rewrite H.
  by destruct (bucle env resto c1 fs1) as [[? ?] ?].
Qed.

(** The loop never raises, and each file adds one to exactly one counter. *)
Lemma bucle_total archivos c fs :
  exists c', result_of (bucle env archivos c fs) = Ok c' /\
             total c' = total c + length archivos.
Proof.
  revert c fs. induction archivos as [|a l IH]; intros c fs.
  - exists c. split; [done|]. simpl. lia.
  - destruct (paso_total a c fs) as (c1 & tx & Hp & Ht & _).
    rewrite (bucle_cons _ _ _ _ _ _ _ Hp).
    destruct (IH c1 (fs_of (procesar_archivo env a fs))) as (c' & Hr & Hc).
    exists c'. split; [done|]. simpl. lia.
Qed.

(** Every file of the list is attempted. *)
Lemma bucle_intenta archivos c fs a :
  In a archivos ->
  In (Log INFO (MIniciando (name a))) (trace_of (bucle env archivos c fs)) /\
  In (Log INFO (MFinalizado (name a))) (trace_of (bucle env archivos c fs)).
Proof.
  revert c fs. induction archivos as [|a' l IH]; intros c fs Hin; [done|].
  destruct (paso_total a' c fs) as (c1 & tx & Hp & _).
  rewrite (bucle_cons _ _ _ _ _ _ _ Hp). unfold trace_of at 1 3. simpl.
  destruct Hin as [->|Hin].
  - rewrite !in_app_iff.
    destruct (procesar_archivo_cases env a fs)
      as [(e & _ & ->)|[(tam & e & fs0 & _ & _ & ->)|(tam & p & fs' & _ & _ & ->)]];
      unfold trace_of; simpl; split; left; left; intuition.
  - rewrite !in_app_iff.
    destruct (IH c1 (fs_of (procesar_archivo env a' fs)) Hin). auto.
Qed.

End Bucle.

(** A file that is no longer there makes [stat] raise. *)
Lemma archivo_ausente env archivo fs :
  fs_get archivo fs = None ->
  fallo (trace_of (procesar_archivo env archivo fs)) archivo.
Proof.
  intros Hnone.
  destruct (procesar_archivo_cases env archivo fs)
    as [(e & _ & ->)|[(tam & e & fs0 & Hs & _)|(tam & p & fs' & Hs & _)]].
  - exists e. left. unfold trace_of. simpl. auto.
  - apply call_inv in Hs as [(e' & _ & [=] & _)|(_ & Hs & _)].
    cbv beta in Hs. by rewrite Hnone in Hs.
  - apply call_inv in Hs as [(e' & _ & [=] & _)|(_ & Hs & _)].
    cbv beta in Hs. by rewrite Hnone in Hs.
Qed.

(** C5. An exception raised while the size of a file is read or while it
    is moved stays inside the processing of that file, whatever the exception
    and also when the file is no longer there: [procesar_archivo] returns
    [False] and logs the error, the iteration counts the file as errored and
    nothing else, and the loop goes on with the remaining files from where
    the failed attempt left, attempts every one of them and returns normally.
    A regular file of [landing/] whose processing raised is still in
    [landing/]. *)
Theorem error_contenido env archivo resto c fs :
  fs_get archivo fs = None \/
  fallo (trace_of (procesar_archivo env archivo fs)) archivo ->
  let x := procesar_archivo env archivo fs in
  result_of x = Ok false /\
  (exists e, In (Log ERROR (linea_error (name archivo) e)) (trace_of x)) /\
  paso env archivo c fs = (Ok (mas_error c), fs_of x, trace_of x) /\
  bucle env (archivo :: resto) c fs =
    (result_of (bucle env resto (mas_error c) (fs_of x)),
     fs_of (bucle env resto (mas_error c) (fs_of x)),
     trace_of x ++ trace_of (bucle env resto (mas_error c) (fs_of x))) /\
  (exists c', result_of (bucle env (archivo :: resto) c fs) = Ok c') /\
  (forall a, In a (archivo :: resto) ->
     In (Log INFO (MIniciando (name a)))
        (trace_of (bucle env (archivo :: resto) c fs))) /\
  (forall n f, archivo = ["landing"; n] -> file_at archivo fs = Some f ->
     file_at archivo (fs_of x) = Some f).
Proof.
  intros Hf x. subst x.
  assert (Hf' : fallo (trace_of (procesar_archivo env archivo fs)) archivo).
  { destruct Hf as [Hnone|Hf]; [|done]. by apply archivo_ausente. }
  clear Hf. rename Hf' into Hf.
  destruct (procesar_archivo_resultado env archivo fs) as (b & Hb & _ & Hfalse & _).
  apply Hfalse in Hf as Hbf. subst b.
  assert (Hpaso : paso env archivo c fs =
            (Ok (mas_error c), fs_of (procesar_archivo env archivo fs),
             trace_of (procesar_archivo env archivo fs))).
  { by destruct (paso_cases env archivo c fs) as [[_ H]|[H _]]; [|congruence]. }
  split; [done|]. split.
  { destruct (procesar_archivo_cases env archivo fs)
      as [(e & _ & ->)|[(tam & e & fs0 & _ & _ & ->)|(tam & p & fs' & _ & _ & Hp)]].
    - exists e. unfold trace_of. simpl. auto.
    - exists e. unfold trace_of. simpl. intuition.
    - rewrite Hp in Hb. discriminate. }
  split; [done|]. split; [by apply bucle_cons|]. split; [|split].
  - destruct (bucle_total env (archivo :: resto) c fs) as (c' & H & _). eauto.
  - intros a Ha. by apply bucle_intenta.
  - intros n f -> Hfile.
    by apply (procesar_archivo_en_landing env n f fs Hfile).
Qed.

(** * [crear_carpetas_destino] *)

Section Crear.

Variable env : Env.

Lemma mkdir_inv d fs r fs' t :
  mkdir env d fs = (r, fs', t) ->
  t = [Call (c_mkdir d) (raised r)] /\
  ((exists e, r = Raise e /\ fs' = fs) \/
   (r = Ok tt /\ fault env (c_mkdir d) = None /\ fs' = asegurar d fs /\
    is_reg (fs !! d) = false)).
Proof.
  intros H. apply call_inv in H as [(e & _ & -> & -> & ->)|(He & H & ->)].
  - split; [done|]. left. eauto.
  - split; [done|]. cbv beta in H. unfold asegurar.
    destruct (fs !! d) as [[f|ch]|] eqn:E; injection H as <- <-; eauto 10.
Qed.

Lemma is_dir_asegurar d fs : is_dir (asegurar d fs !! d) = negb (is_reg (fs !! d)).
Proof.
  unfold asegurar. destruct (fs !! d) as [[f|ch]|] eqn:E; rewrite ?E; try done.
  by rewrite lookup_insert_eq.
Qed.

Lemma lookup_asegurar_ne d x fs : d <> x -> asegurar d fs !! x = fs !! x.
Proof.
  intros Hne. unfold asegurar. destruct (fs !! d); [done|].
  by rewrite lookup_insert_ne.
Qed.

Lemma fs_get_asegurar_ne d x q fs :
  d <> x -> fs_get (x :: q) (asegurar d fs) = fs_get (x :: q) fs.
Proof. intros Hne. unfold fs_get. simpl. by rewrite lookup_asegurar_ne. Qed.

(** The three outcomes of [crear_carpetas_destino]. *)
Lemma crear_carpetas_destino_cases fs :
  (crear_carpetas_destino env fs =
     (Ok tt, asegurar "bad_data" (asegurar "bronze" fs),
      [Call (c_mkdir "bronze") None; Call (c_mkdir "bad_data") None;
       Log INFO MCarpetasOk]) /\
   is_reg (fs !! "bronze") = false /\ is_reg (fs !! "bad_data") = false) \/
  (exists e,
     crear_carpetas_destino env fs =
       (Raise e, fs,
        [Call (c_mkdir "bronze") (Some e); Log CRITICAL (MErrorCarpetas e)])) \/
  (exists e,
     crear_carpetas_destino env fs =
       (Raise e, asegurar "bronze" fs,
        [Call (c_mkdir "bronze") None; Call (c_mkdir "bad_data") (Some e);
         Log CRITICAL (MErrorCarpetas e)])).
Proof.
  unfold crear_carpetas_destino, try_except, bind, log, raise.
  destruct (mkdir env "bronze" fs) as [[r1 fs1] t1] eqn:H1.
  apply mkdir_inv in H1 as [-> [(e & -> & ->)|(-> & _ & -> & Hb)]]; simpl.
  { right. left. by exists e. }
  destruct (mkdir env "bad_data" (asegurar "bronze" fs)) as [[r2 fs2] t2] eqn:H2.
  apply mkdir_inv in H2 as [-> [(e & -> & ->)|(-> & _ & -> & Hd)]]; simpl.
  { right. right. by exists e. }
  left. split; [done|]. split; [done|].
  by rewrite lookup_asegurar_ne in Hd.
Qed.

Lemma crear_carpetas_destino_ok fs :
  result_of (crear_carpetas_destino env fs) = Ok tt ->
  crear_carpetas_destino env fs =
     (Ok tt, asegurar "bad_data" (asegurar "bronze" fs),
      [Call (c_mkdir "bronze") None; Call (c_mkdir "bad_data") None;
       Log INFO MCarpetasOk]) /\
  is_reg (fs !! "bronze") = false /\ is_reg (fs !! "bad_data") = false.
Proof.
  intros H.
  destruct (crear_carpetas_destino_cases fs) as [Hc|[(e & Hc)|(e & Hc)]];
    [done| |]; by rewrite Hc in H.
Qed.

Lemma ejecutar_pipeline_eq :
  ejecutar_pipeline env =
    (log INFO MSeparador ;;
     log INFO MIniciandoPipeline ;;
     log INFO MSeparador ;;
     try_except
       (crear_carpetas_destino env ;; tras_crear env)
       (fun e => log CRITICAL (MErrorFatal e) ;; raise e)).
Proof. reflexivity. Qed.

(** The run, in terms of its two stages. *)
Lemma ejecutar_pipeline_etapas fs :
  ejecutar_pipeline env fs =
    match crear_carpetas_destino env fs with
    | (Raise e, fs1, t1) =>
        (Raise e, fs1, cabecera ++ t1 ++ [Log CRITICAL (MErrorFatal e)])
    | (Ok _, fs1, t1) =>
        match tras_crear env fs1 with
        | (Ok u, fs2, t2) => (Ok u, fs2, cabecera ++ t1 ++ t2)
        | (Raise e, fs2, t2) =>
            (Raise e, fs2, cabecera ++ t1 ++ t2 ++ [Log CRITICAL (MErrorFatal e)])
        end
    end.
Proof.
  rewrite ejecutar_pipeline_eq. unfold bind at 1 2 3. unfold log at 1 2 3.
  unfold try_except, bind at 1.
  destruct (crear_carpetas_destino env fs) as [[[u|e] fs1] t1]; simpl; [|done].
  destruct (tras_crear env fs1) as [[[u'|e] fs2] t2]; simpl; [done|].
  by rewrite <- app_assoc.
Qed.

End Crear.

(** C6. When a destination directory cannot be created the run aborts:
    the exception is logged at [CRITICAL] level by [crear_carpetas_destino]
    and by [ejecutar_pipeline], it leaves [ejecutar_pipeline], the process
    exits with status 1, the only file-system calls of the run are the
    [mkdir] of the destination directories, and [landing/] is untouched. *)
Theorem fallo_al_crear_destino env fs e :
  result_of (crear_carpetas_destino env fs) = Raise e ->
  let t := trace_of (ejecutar_pipeline env fs) in
  result_of (ejecutar_pipeline env fs) = Raise e /\
  (main env fs).1.1 = 1 /\
  In (Log CRITICAL (MErrorCarpetas e)) t /\
  List.last t (Log INFO MSeparador) = Log CRITICAL (MErrorFatal e) /\
  (forall c r, In (Call c r) t -> es_mkdir_destino c) /\
  (forall q, fs_get ("landing" :: q) (fs_of (ejecutar_pipeline env fs)) =
             fs_get ("landing" :: q) fs).
Proof.
  intros H t. subst t. unfold main.
  rewrite ejecutar_pipeline_etapas.
  destruct (crear_carpetas_destino_cases env fs) as [[Hc _]|[(e' & Hc)|(e' & Hc)]];
    rewrite Hc in *; unfold result_of, trace_of, fs_of, es_mkdir_destino in *;
    simpl in *; try discriminate; injection H as ->.
  - repeat split; auto.
    + intuition.
    + intros c r Hin. intuition congruence.
  - repeat split; auto.
    + intuition.
    + intros c r Hin. intuition congruence.
    + intros q. by apply fs_get_asegurar_ne.
Qed.

(** * The scan and the run *)

Section Run.

Variable env : Env.

Lemma filter_is_file_spec l fs :
  fs_of (filter_is_file env l fs) = fs /\
  Forall es_llamada (trace_of (filter_is_file env l fs)) /\
  (forall l', result_of (filter_is_file env l fs) = Ok l' ->
              l' = List.filter (fun p => is_reg (fs_get p fs)) l) /\
  ((forall p, In p l -> fault env (c_is_file p) = None) ->
   result_of (filter_is_file env l fs) =
     Ok (List.filter (fun p => is_reg (fs_get p fs)) l)).
Proof.
  induction l as [|p l IH].
  - simpl. unfold ret, fs_of, trace_of, result_of. simpl.
    repeat split; auto. by intros l' [= <-].
  - destruct IH as (IHfs & IHt & IHr & IHok).
    simpl. unfold bind, ret.
    destruct (is_file env p fs) as [[r fs1] t1] eqn:Hi.
    apply call_inv in Hi as [(e & He & -> & -> & ->)|(He & Hi & ->)].
    + unfold fs_of, trace_of, result_of. simpl.
      split; [done|]. split; [|split].
      * repeat constructor. by exists (c_is_file p), (Some e).
      * by intros l' [=].
      * intros Hall. rewrite Hall in He; [done|by left].
    + injection Hi as <- <-.
      destruct (filter_is_file env l fs) as [[[l1|e] fs2] t2];
        unfold fs_of, trace_of, result_of in *; simpl in *; subst.
      * split; [done|]. split; [|split].
        -- rewrite app_nil_r. constructor; [by exists (c_is_file p), None|done].
        -- intros l' [= <-]. rewrite (IHr l1 eq_refl).
           by destruct (is_reg (fs_get p fs)).
        -- intros Hall. specialize (IHok (fun q Hq => Hall q (or_intror Hq))).
           injection IHok as ->. by destruct (is_reg (fs_get p fs)).
      * split; [done|]. split; [|split].
        -- constructor; [by exists (c_is_file p), None|done].
        -- by intros l' [=].
        -- intros Hall. specialize (IHok (fun q Hq => Hall q (or_intror Hq))).
           discriminate.
Qed.

Lemma iterdir_inv fs r fs' t :
  iterdir env ["landing"] fs = (r, fs', t) ->
  fs' = fs /\ t = [Call (c_iterdir ["landing"]) (raised r)] /\
  (forall l, r = Ok l ->
     l = entradas_de fs /\ is_dir (fs_get ["landing"] fs) = true /\
     fault env (c_iterdir ["landing"]) = None).
Proof.
  intros H. apply call_inv in H as [(e & He & -> & -> & ->)|(He & H & ->)].
  - split; [done|]. split; [done|]. intros l [=].
  - cbv beta in H. unfold entradas_de.
    destruct (fs_get ["landing"] fs) as [[f|ch]|]; injection H as <- <-;
      (split; [done|]); (split; [done|]); intros l [=]. by subst.
Qed.

Lemma glob_all_inv fs r fs' t :
  glob_all env ["landing"] fs = (r, fs', t) ->
  fs' = fs /\ t = [Call (c_glob ["landing"]) (raised r)] /\
  ((exists e, fault env (c_glob ["landing"]) = Some e /\ r = Raise e) \/
   (fault env (c_glob ["landing"]) = None /\ r = Ok (entradas_de fs))).
Proof.
  intros H. apply call_inv in H as [(e & He & -> & -> & ->)|(He & H & ->)].
  - repeat split; eauto.
  - cbv beta in H. unfold entradas_de.
    destruct (fs_get ["landing"] fs) as [[f|ch]|]; injection H as <- <-;
      repeat split; auto.
Qed.

(** Every run of [tras_crear] follows one of the branches. *)
Lemma tras_crear_rama fs : rama env fs (tras_crear env fs).
Proof.
  unfold tras_crear. unfold bind at 1.
  destruct (exists_ env ["landing"] fs) as [[rx fsx] tx] eqn:Hx.
  apply exists_inv in Hx as [-> [(e & He & -> & ->)|(He & -> & ->)]].
  { by constructor. }
  destruct (fs_get ["landing"] fs) as [ent|] eqn:Hl; simpl.
  2:{ unfold bind, log, ret.
      destruct (mkdir env "landing" fs) as [[rm fsm] tm] eqn:Hm.
      apply call_inv in Hm as [(e & Hf & -> & -> & ->)|(Hf & Hm & ->)]; simpl.
      - by constructor.
      - cbv beta in Hm. unfold fs_get in Hl. simpl in Hl.
        rewrite Hl in Hm. injection Hm as <- <-.
        assert (asegurar "landing" fs = <["landing" := EDir ∅]> fs) as <-
          by (unfold asegurar; by rewrite Hl).
        by constructor. }
  unfold bind at 1.
  destruct (iterdir env ["landing"] fs) as [[ri fsi] ti] eqn:Hi.
  apply iterdir_inv in Hi as Hi'. destruct Hi' as (-> & -> & Hok).
  destruct ri as [l|e]; simpl.
  2:{ apply rama_iterdir_falla; [done|congruence|by rewrite Hi]. }
  destruct (Hok l eq_refl) as (-> & Hdir & Hfi).
  unfold bind at 1.
  destruct (filter_is_file_spec (entradas_de fs) fs) as (Hffs & _ & Hfr & _).
  destruct (filter_is_file env (entradas_de fs) fs) as [[rf fsf] tf] eqn:Hf.
  unfold fs_of, result_of in Hffs, Hfr. simpl in Hffs, Hfr. subst fsf.
  destruct rf as [archivos|e].
  2:{ pose proof (rama_is_file_falla env fs e He Hdir Hfi) as R.
      rewrite Hf in R. by apply R. }
  specialize (Hfr archivos eq_refl). fold (archivos_de fs) in Hfr. subst archivos.
  destruct (archivos_de fs) as [|a l] eqn:Ha.
  { unfold bind, log, ret. simpl.
    pose proof (rama_sin_archivos env fs He Hdir Hfi) as R.
    rewrite Hf, Ha in R. by apply R. }
  rewrite <- Ha. unfold bind at 1 2. unfold log at 1.
  destruct (bucle_total env (archivos_de fs) c0 fs) as (c & Hc & _).
  fold c0.
  destruct (bucle env (archivos_de fs) c0 fs) as [[rb fs'] tl] eqn:Hb.
  unfold result_of in Hc. simpl in Hc. subst rb.
  unfold bind, log.
  destruct (glob_all env ["landing"] fs') as [[rg fsg] tg] eqn:Hg.
  apply glob_all_inv in Hg as (-> & -> & [(e & Hge & ->)|(Hge & ->)]).
  - pose proof (rama_glob_falla env fs c fs' tl e He Hdir Hfi) as R.
    rewrite Hf, Hb in R. simpl in *. rewrite <- ?app_assoc. simpl.
    apply R; rewrite ?Ha; done.
  - pose proof (rama_completa env fs c fs' tl He Hdir Hfi) as R.
    rewrite Hf, Hb in R. unfold linea_final in R.
    destruct (entradas_de fs') eqn:He'; simpl in *; rewrite <- ?app_assoc; simpl;
      apply R; rewrite ?Ha; done.
Qed.

End Run.

(** * The summary *)

Lemma sin_resumen_app t1 t2 :
  sin_resumen (t1 ++ t2) <-> sin_resumen t1 /\ sin_resumen t2.
Proof. apply Forall_app. Qed.

Lemma sin_resumen_cons ev t :
  es_resumen ev = false -> sin_resumen t -> sin_resumen (ev :: t).
Proof. intros. by apply Forall_cons_2. Qed.

Ltac sin_resumen_tac :=
  repeat first
    [ apply Forall_nil_2
    | apply sin_resumen_cons; [reflexivity|]
    | apply sin_resumen_app; split
    | assumption ].

Section Resumen.

Variable env : Env.

Lemma sin_resumen_In t ev : sin_resumen t -> In ev t -> es_resumen ev = false.
Proof.
  unfold sin_resumen. rewrite Forall_forall. intros H Hin.
  apply H. by apply list_elem_of_In.
Qed.

Lemma llamadas_sin_resumen t : Forall es_llamada t -> sin_resumen t.
Proof.
  unfold sin_resumen. intros H. eapply Forall_impl; [exact H|].
  by intros ev (c & r & ->).
Qed.

Lemma procesar_archivo_sin_resumen archivo fs :
  sin_resumen (trace_of (procesar_archivo env archivo fs)).
Proof.
  destruct (procesar_archivo_cases env archivo fs)
    as [(e & _ & ->)|[(tam & e & fs0 & _ & _ & ->)|(tam & p & fs' & _ & _ & ->)]];
    unfold trace_of, sin_resumen, linea_movido; simpl.
  - repeat (apply Forall_cons_2; [by try destruct e|]). apply Forall_nil_2.
  - repeat (apply Forall_cons_2; [by try destruct e|]). apply Forall_nil_2.
  - repeat (apply Forall_cons_2; [by try destruct (0 <? tam)%nat|]).
    apply Forall_nil_2.
Qed.

Lemma bucle_sin_resumen archivos c fs :
  sin_resumen (trace_of (bucle env archivos c fs)).
Proof.
  revert c fs. induction archivos as [|a l IH]; intros c fs.
  - apply Forall_nil_2.
  - destruct (paso_total env a c fs) as (c1 & tx & Hp & _ & _ & Htx).
    rewrite (bucle_cons _ _ _ _ _ _ _ _ Hp). unfold trace_of at 1. simpl.
    rewrite !sin_resumen_app. split; [split|].
    + apply procesar_archivo_sin_resumen.
    + eapply Forall_impl; [exact Htx|]. by intros ev [->|(e & ->)].
    + apply IH.
Qed.

Lemma entradas_de_ext (fs1 fs2 : FS) :
  fs1 !! "landing" = fs2 !! "landing" -> entradas_de fs1 = entradas_de fs2.
Proof. unfold entradas_de, fs_get. simpl. by intros ->. Qed.

Lemma entradas_de_forma fs p :
  In p (entradas_de fs) -> exists x, p = ["landing"; x].
Proof.
  unfold entradas_de. destruct (fs_get ["landing"] fs) as [[f|ch]|]; try done.
  intros H. apply list_elem_of_In, list_elem_of_fmap in H as ([k v] & -> & _).
  by exists k.
Qed.

Lemma archivos_de_ext (fs1 fs2 : FS) :
  fs1 !! "landing" = fs2 !! "landing" -> archivos_de fs1 = archivos_de fs2.
Proof.
  intros H. unfold archivos_de. rewrite (entradas_de_ext _ _ H).
  apply List.filter_ext_in. intros p Hp.
  apply entradas_de_forma in Hp as [x ->].
  unfold fs_get. simpl. by rewrite H.
Qed.

Lemma landing_tras_crear fs :
  asegurar "bad_data" (asegurar "bronze" fs) !! "landing" = fs !! "landing".
Proof. by rewrite !lookup_asegurar_ne. Qed.

(** A summary line in the trace of [tras_crear] comes from the branches
    that ran the loop. *)
Lemma rama_resumen fs x ev :
  rama env fs x -> es_resumen ev = true -> In ev (trace_of x) ->
  exists c tl,
    bucle env (archivos_de fs) c0 fs = (Ok c, fs_of x, tl) /\
    archivos_de fs <> [] /\
    incl (lineas_resumen (length (archivos_de fs)) c (now env 1 - now env 0))
         (trace_of x) /\
    (ev = Log INFO (MEncontrados (length (archivos_de fs))) \/
     In ev (lineas_resumen (length (archivos_de fs)) c (now env 1 - now env 0)) \/
     (ev = linea_final (fs_of x) /\ result_of x = Ok tt)).
Proof.
  pose proof (filter_is_file_spec env (entradas_de fs) fs) as (_ & Hll & _).
  apply llamadas_sin_resumen in Hll.
  intros R Hev Hin.
  destruct R as [e' Hx|e' Hx Hn Hm|Hx Hn Hm|e' Hx Hn Hi
                 |e' Hx Hd Hi Hf|Hx Hd Hi Hf Hnil
                 |c fs' tl Hx Hd Hi Hf Hne Hb Hg
                 |c fs' tl e' Hx Hd Hi Hf Hne Hb Hg];
    unfold trace_of, fs_of, result_of in *; cbn [fst snd] in *.
  1-6: exfalso; cut (es_resumen ev = false); [congruence|];
       eapply sin_resumen_In; [|exact Hin]; sin_resumen_tac.
  - exists c, tl. split; [done|]. split; [done|].
    split; [intros y Hyin; rewrite !in_app_iff; auto 10|].
    pose proof (bucle_sin_resumen (archivos_de fs) c0 fs) as Hsl.
    rewrite Hb in Hsl. unfold trace_of in Hsl. cbn [snd] in Hsl.
    rewrite !in_app_iff in Hin.
    destruct Hin as [Hin|[Hin|[Hin|[Hin|[Hin|Hin]]]]].
    + simpl in Hin. destruct Hin as [<-|[<-|[]]]; discriminate.
    + apply (sin_resumen_In _ _ Hll) in Hin. congruence.
    + simpl in Hin. destruct Hin as [<-|[]]. by left.
    + apply (sin_resumen_In _ _ Hsl) in Hin. congruence.
    + right. by left.
    + simpl in Hin. destruct Hin as [<-|[<-|[]]]; [discriminate|].
      right. right. done.
  - exists c, tl. split; [done|]. split; [done|].
    split; [intros y Hyin; rewrite !in_app_iff; auto 10|].
    pose proof (bucle_sin_resumen (archivos_de fs) c0 fs) as Hsl.
    rewrite Hb in Hsl. unfold trace_of in Hsl. cbn [snd] in Hsl.
    rewrite !in_app_iff in Hin.
    destruct Hin as [Hin|[Hin|[Hin|[Hin|[Hin|Hin]]]]].
    + simpl in Hin. destruct Hin as [<-|[<-|[]]]; discriminate.
    + apply (sin_resumen_In _ _ Hll) in Hin. congruence.
    + simpl in Hin. destruct Hin as [<-|[]]. by left.
    + apply (sin_resumen_In _ _ Hsl) in Hin. congruence.
    + right. by left.
    + simpl in Hin. destruct Hin as [<-|[]]. discriminate.
Qed.

(** The same for the whole run. *)
Lemma pipeline_resumen fs ev :
  es_resumen ev = true -> In ev (trace_of (ejecutar_pipeline env fs)) ->
  result_of (crear_carpetas_destino env fs) = Ok tt /\
  exists c tl,
    bucle env (archivos_de fs) c0 (fs_of (crear_carpetas_destino env fs)) =
      (Ok c, fs_of (ejecutar_pipeline env fs), tl) /\
    archivos_de fs <> [] /\
    incl (lineas_resumen (length (archivos_de fs)) c (now env 1 - now env 0))
         (trace_of (ejecutar_pipeline env fs)) /\
    (ev = Log INFO (MEncontrados (length (archivos_de fs))) \/
     In ev (lineas_resumen (length (archivos_de fs)) c (now env 1 - now env 0)) \/
     (ev = linea_final (fs_of (ejecutar_pipeline env fs)) /\
      result_of (ejecutar_pipeline env fs) = Ok tt)).
Proof.
  intros Hev. rewrite ejecutar_pipeline_etapas.
  destruct (crear_carpetas_destino_cases env fs) as [[Hc _]|[(e' & Hc)|(e' & Hc)]];
    rewrite Hc; unfold trace_of at 1; simpl.
  2,3: intros Hin; exfalso; intuition (subst; discriminate).
  set (fs1 := asegurar "bad_data" (asegurar "bronze" fs)).
  assert (Ha : archivos_de fs1 = archivos_de fs)
    by apply archivos_de_ext, landing_tras_crear.
  pose proof (tras_crear_rama env fs1) as R.
  pose proof (rama_resumen fs1 _ ev R Hev) as Hr. rewrite Ha in Hr.
  destruct (tras_crear env fs1) as [[[u|e'] fs2] t2];
    unfold trace_of, fs_of, result_of in *; simpl in *.
  - intros [<-|[<-|[<-|[<-|[<-|[<-|Hin]]]]]]; try discriminate.
    split; [done|]. destruct u.
    destruct (Hr Hin) as (c & tl & Hb & Hne & Hinc & Hcases).
    exists c, tl. split; [done|]. split; [done|]. split; [|done].
    intros x Hxin. do 6 right. by apply Hinc.
  - intros [<-|[<-|[<-|[<-|[<-|[<-|Hin]]]]]]; try discriminate.
    rewrite in_app_iff in Hin. destruct Hin as [Hin|[<-|[]]]; [|discriminate].
    split; [done|]. destruct (Hr Hin) as (c & tl & Hb & Hne & Hinc & Hcases).
    exists c, tl. split; [done|]. split; [done|]. split.
    { intros x Hxin. do 6 right. rewrite in_app_iff. left. by apply Hinc. }
    destruct Hcases as [?|[?|[_ ?]]]; auto. discriminate.
Qed.

End Resumen.

(** C4. Whenever a run emits its tallies, their sum is the number of
    regular files that [landing/] held when the run started, which is also
    the total the summary reports; and every iteration of the loop adds one
    to exactly one of the three counters. *)
Theorem suma_de_contadores env fs p r e :
  let t := trace_of (ejecutar_pipeline env fs) in
  In (Log INFO (MBronze p)) t ->
  In (Log INFO (MBadData r)) t ->
  In (Log INFO (MErrores e)) t ->
  p + r + e = length (archivos_de fs) /\
  In (Log INFO (MTotal (length (archivos_de fs)))) t /\
  (forall archivo c fs0,
     exists c', result_of (paso env archivo c fs0) = Ok c' /\
                total c' = S (total c) /\
                (c' = mas_procesado c \/ c' = mas_rechazado c \/ c' = mas_error c)).
Proof.
  intros t Hp Hr He. subst t.
  apply pipeline_resumen in Hp as (_ & c & tl & Hb & _ & Hinc & Hp); [|done].
  apply pipeline_resumen in Hr as (_ & c2 & tl2 & Hb2 & _ & _ & Hr); [|done].
  apply pipeline_resumen in He as (_ & c3 & tl3 & Hb3 & _ & _ & He); [|done].
  rewrite Hb in Hb2, Hb3. injection Hb2 as <- <-. injection Hb3 as <- <-.
  assert (Hfin : forall m, Log INFO (m : mensaje) =
                   linea_final (fs_of (ejecutar_pipeline env fs)) -> m = MCompletado).
  { intros m. unfold linea_final.
    destruct (entradas_de (fs_of (ejecutar_pipeline env fs))); congruence. }
  destruct Hp as [Hp|[Hp|[Hp _]]]; [discriminate| |apply Hfin in Hp; discriminate].
  destruct Hr as [Hr|[Hr|[Hr _]]]; [discriminate| |apply Hfin in Hr; discriminate].
  destruct He as [He|[He|[He _]]]; [discriminate| |apply Hfin in He; discriminate].
  simpl in Hp, Hr, He.
  assert (p = procesados c) as -> by (intuition congruence).
  assert (r = rechazados c) as -> by (intuition congruence).
  assert (e = errores c) as -> by (intuition congruence).
  destruct (bucle_total env (archivos_de fs) c0 (fs_of (crear_carpetas_destino env fs)))
    as (c' & Hc' & Ht).
  rewrite Hb in Hc'. injection Hc' as <-.
  split; [unfold total, c0 in Ht; simpl in Ht; lia|]. split.
  - apply Hinc. simpl. auto.
  - intros archivo c1 fs0.
    destruct (paso_total env archivo c1 fs0) as (c' & tx & H & Ht' & Hc & _).
    exists c'. by rewrite H.
Qed.

(** * What the loop leaves in place *)

Section Marco.

Variable env : Env.

Lemma kind_procesar_ajeno n fs q :
  ajeno n q ->
  kind_of (fs_get q (fs_of (procesar_archivo env ["landing"; n] fs))) =
  kind_of (fs_get q fs).
Proof.
  intros Hq.
  destruct (procesar_archivo_marco env n fs) as (d & p & _ & Hp & Hrest).
  apply Hrest.
  - destruct q as [|x [|m r]]; destruct Hp as [-> | ->]; simpl in *;
      repeat case_decide; try done; congruence.
  - unfold is_prefix. destruct q as [|x [|m r]]; simpl in *;
      repeat case_decide; try done; congruence.
Qed.

Lemma kind_bucle_ajeno archivos c fs q :
  (forall a, In a archivos -> exists m, a = ["landing"; m] /\ ajeno m q) ->
  kind_of (fs_get q (fs_of (bucle env archivos c fs))) = kind_of (fs_get q fs).
Proof.
  revert c fs. induction archivos as [|a l IH]; intros c fs Hall; [done|].
  destruct (paso_total env a c fs) as (c1 & tx & Hp & _).
  rewrite (bucle_cons _ _ _ _ _ _ _ _ Hp). unfold fs_of at 1. simpl.
  rewrite IH by (intros; apply Hall; by right).
  destruct (Hall a (or_introl eq_refl)) as (m & -> & Hm).
  by apply kind_procesar_ajeno.
Qed.

Lemma archivos_de_forma fs a :
  In a (archivos_de fs) ->
  exists m, a = ["landing"; m] /\ is_reg (fs_get ["landing"; m] fs) = true.
Proof.
  unfold archivos_de. rewrite List.filter_In. intros [Hin Hreg].
  apply entradas_de_forma in Hin as [m ->]. eauto.
Qed.

(** The directories of the working directory other than [landing/] keep
    their kind through [tras_crear]. *)
Lemma tras_crear_conserva fs d :
  d <> "landing" ->
  kind_of (fs_get [d] (fs_of (tras_crear env fs))) = kind_of (fs_get [d] fs).
Proof.
  intros Hd. pose proof (tras_crear_rama env fs) as R.
  destruct (tras_crear env fs) as [[r fs2] t2]. unfold fs_of. simpl.
  inversion R as [e' Hx|e' Hx Hn Hm|Hx Hn Hm|e' Hx Hn Hi
                 |e' Hx Hdir Hi Hf|Hx Hdir Hi Hf Hnil
                 |c fs' tl Hx Hdir Hi Hf Hne Hb Hg
                 |c fs' tl e' Hx Hdir Hi Hf Hne Hb Hg]; subst; try done.
  - by rewrite fs_get_asegurar_ne.
  - change fs2 with (fs_of (Ok c, fs2, tl)). rewrite <- Hb.
    apply kind_bucle_ajeno. intros a Ha.
    apply archivos_de_forma in Ha as (m & -> & _). by exists m.
  - change fs2 with (fs_of (Ok c, fs2, tl)). rewrite <- Hb.
    apply kind_bucle_ajeno. intros a Ha.
    apply archivos_de_forma in Ha as (m & -> & _). by exists m.
Qed.

End Marco.

(** The destination directories come first and stay. *)
Lemma pipeline_destinos env fs :
  let x := ejecutar_pipeline env fs in
  (result_of x = Ok tt -> result_of (crear_carpetas_destino env fs) = Ok tt) /\
  (result_of (crear_carpetas_destino env fs) = Ok tt ->
     (exists t2,
        trace_of x =
          cabecera ++
          [Call (c_mkdir "bronze") None; Call (c_mkdir "bad_data") None;
           Log INFO MCarpetasOk] ++ t2 /\
        t2 = trace_of (tras_crear env (fs_of (crear_carpetas_destino env fs))) ++
             match result_of x with
             | Ok _ => []
             | Raise e => [Log CRITICAL (MErrorFatal e)]
             end) /\
     is_dir (fs_get ["bronze"] (fs_of x)) = true /\
     is_dir (fs_get ["bad_data"] (fs_of x)) = true).
Proof.
  intros x. subst x. rewrite ejecutar_pipeline_etapas.
  destruct (crear_carpetas_destino_cases env fs)
    as [(Hc & Hb & Hd)|[(e' & Hc)|(e' & Hc)]]; rewrite Hc;
    unfold result_of at 1 2 3; simpl; try (split; intros; discriminate).
  set (fs1 := asegurar "bad_data" (asegurar "bronze" fs)).
  assert (Kb := tras_crear_conserva env fs1 "bronze").
  assert (Kd := tras_crear_conserva env fs1 "bad_data").
  specialize (Kb ltac:(discriminate)). specialize (Kd ltac:(discriminate)).
  apply is_dir_kind in Kb, Kd.
  assert (Hb1 : is_dir (fs_get ["bronze"] fs1) = true).
  { unfold fs1, fs_get. simpl. rewrite lookup_asegurar_ne by done.
    rewrite is_dir_asegurar. by rewrite Hb. }
  assert (Hd1 : is_dir (fs_get ["bad_data"] fs1) = true).
  { unfold fs1, fs_get. simpl. rewrite is_dir_asegurar.
    rewrite lookup_asegurar_ne by done. by rewrite Hd. }
  rewrite Hb1 in Kb. rewrite Hd1 in Kd.
  destruct (tras_crear env fs1) as [[[[]|e'] fs2] t2] eqn:Ht;
    unfold result_of, trace_of, fs_of in *; simpl in *; fold fs1; rewrite ?Ht.
  - split; [done|]. intros _. split; [|done].
    eexists. split; [|reflexivity]. simpl. by rewrite ?app_nil_r.
  - split; [done|]. intros _. split; [|done].
    eexists. split; [|reflexivity]. done.
Qed.

(** C9. A run first creates [bronze/] and [bad_data/]: when their
    creation succeeds the trace of the run starts with the header and the two
    successful [mkdir], before any other file-system call, and both
    directories exist when the run ends, however it ends; a run that returns
    normally is such a run. *)
Theorem destinos_antes_de_landing env fs :
  let x := ejecutar_pipeline env fs in
  (result_of x = Ok tt -> result_of (crear_carpetas_destino env fs) = Ok tt) /\
  (result_of (crear_carpetas_destino env fs) = Ok tt ->
     (exists t2,
        trace_of x =
          cabecera ++
          [Call (c_mkdir "bronze") None; Call (c_mkdir "bad_data") None;
           Log INFO MCarpetasOk] ++ t2 /\
        t2 = trace_of (tras_crear env (fs_of (crear_carpetas_destino env fs))) ++
             match result_of x with
             | Ok _ => []
             | Raise e => [Log CRITICAL (MErrorFatal e)]
             end) /\
     is_dir (fs_get ["bronze"] (fs_of x)) = true /\
     is_dir (fs_get ["bad_data"] (fs_of x)) = true).
Proof. apply pipeline_destinos. Qed.

(** * Nothing to do *)

Section Vacia.

Variable env : Env.

Lemma entradas_de_vacia fs :
  fs_get ["landing"] fs = Some (EDir ∅) -> entradas_de fs = [].
Proof. unfold entradas_de. intros ->. by rewrite map_to_list_empty. Qed.

Lemma archivos_de_vacia fs :
  fs_get ["landing"] fs = Some (EDir ∅) -> archivos_de fs = [].
Proof. unfold archivos_de. intros H. by rewrite entradas_de_vacia. Qed.

Lemma tras_crear_ausente fs :
  fs_get ["landing"] fs = None ->
  fault env (c_exists ["landing"]) = None ->
  fault env (c_mkdir "landing") = None ->
  tras_crear env fs =
    (Ok tt, asegurar "landing" fs,
     [Call (c_exists ["landing"]) None; Log ERROR MLandingNoExiste;
      Call (c_mkdir "landing") None; Log WARNING MLandingCreada]).
Proof.
  intros Hl Hx Hm. pose proof (tras_crear_rama env fs) as R.
  inversion R; try congruence.
  all: match goal with
       | H : is_dir (fs_get ["landing"] _) = true |- _ => by rewrite Hl in H
       end.
Qed.

Lemma tras_crear_vacia fs :
  fs_get ["landing"] fs = Some (EDir ∅) ->
  fault env (c_exists ["landing"]) = None ->
  fault env (c_iterdir ["landing"]) = None ->
  tras_crear env fs =
    (Ok tt, fs,
     [Call (c_exists ["landing"]) None; Call (c_iterdir ["landing"]) None;
      Log WARNING MNoArchivos]).
Proof.
  intros Hl Hx Hi. pose proof (tras_crear_rama env fs) as R.
  pose proof (archivos_de_vacia fs Hl) as Ha.
  pose proof (entradas_de_vacia fs Hl) as He.
  inversion R as [e' Hx'|e' Hx' Hn Hm|Hx' Hn Hm|e' Hx' Hn Hi'
                 |e' Hx' Hdir Hi' Hf|Hx' Hdir Hi' Hf Hnil
                 |c fs' tl Hx' Hdir Hi' Hf Hne Hb Hg
                 |c fs' tl e' Hx' Hdir Hi' Hf Hne Hb Hg]; try congruence.
  - exfalso. revert Hi'. unfold iterdir, call, result_of. rewrite Hi, Hl. done.
  - exfalso. revert Hf. rewrite He. done.
  - rewrite He. done.
Qed.

(** Whatever the environment does, a run of [tras_crear] over an empty
    [landing/] leaves the file system as it is. *)
Lemma tras_crear_vacia_fs fs :
  fs_get ["landing"] fs = Some (EDir ∅) -> fs_of (tras_crear env fs) = fs.
Proof.
  intros Hl. pose proof (tras_crear_rama env fs) as R.
  pose proof (archivos_de_vacia fs Hl) as Ha.
  inversion R; unfold fs_of; simpl; congruence.
Qed.

Lemma tras_crear_vacia_sin_movimientos fs :
  fs_get ["landing"] fs = Some (EDir ∅) ->
  sin_movimientos (trace_of (tras_crear env fs)).
Proof.
  intros Hl. pose proof (tras_crear_rama env fs) as R.
  pose proof (archivos_de_vacia fs Hl) as Ha.
  pose proof (entradas_de_vacia fs Hl) as He.
  inversion R; try congruence; unfold trace_of; simpl; rewrite ?He; simpl;
    intros src dst r Hin; simpl in Hin; intuition congruence.
Qed.

Lemma asegurar_dir d fs : is_dir (fs !! d) = true -> asegurar d fs = fs.
Proof. unfold asegurar. by destruct (fs !! d). Qed.

(** Nor does [crear_carpetas_destino] change a file system that has both
    destination directories. *)
Lemma crear_carpetas_destino_fs fs :
  is_dir (fs_get ["bronze"] fs) = true ->
  is_dir (fs_get ["bad_data"] fs) = true ->
  fs_of (crear_carpetas_destino env fs) = fs.
Proof.
  unfold fs_get. simpl. intros Hb Hd.
  destruct (crear_carpetas_destino_cases env fs) as [[Hc _]|[(e' & Hc)|(e' & Hc)]];
    rewrite Hc; unfold fs_of; simpl; rewrite ?(asegurar_dir "bronze") by done;
    try done.
  by apply asegurar_dir.
Qed.

End Vacia.

(** C7, as amended.  With an absent or an empty [landing/], a run whose
    destination directories can be created, and in which the calls that
    examine or create [landing/] do not fail, returns normally and moves
    nothing: an absent [landing/] is created empty and the run ends after its
    warning; an empty one gives the warning that no file was found; in both
    cases [bronze/] and [bad_data/] are what [crear_carpetas_destino] left.
    And a run that follows a completed run and finds [landing/] empty leaves
    [bronze/], [bad_data/] and [landing/] as it found them and moves nothing,
    whatever the environment does. *)
Theorem sin_archivos_sin_movimientos env fs :
  let x := ejecutar_pipeline env fs in
  let fs1 := asegurar "bad_data" (asegurar "bronze" fs) in
  let t1 := cabecera ++
            [Call (c_mkdir "bronze") None; Call (c_mkdir "bad_data") None;
             Log INFO MCarpetasOk] in
  (result_of (crear_carpetas_destino env fs) = Ok tt ->
   fault env (c_exists ["landing"]) = None ->
   fs_get ["landing"] fs = None ->
   fault env (c_mkdir "landing") = None ->
     result_of x = Ok tt /\ (main env fs).1.1 = 0 /\
     fs_get ["landing"] (fs_of x) = Some (EDir ∅) /\
     fs_get ["bronze"] (fs_of x) = fs_get ["bronze"] fs1 /\
     fs_get ["bad_data"] (fs_of x) = fs_get ["bad_data"] fs1 /\
     trace_of x =
       t1 ++ [Call (c_exists ["landing"]) None; Log ERROR MLandingNoExiste;
              Call (c_mkdir "landing") None; Log WARNING MLandingCreada] /\
     sin_movimientos (trace_of x)) /\
  (result_of (crear_carpetas_destino env fs) = Ok tt ->
   fault env (c_exists ["landing"]) = None ->
   fs_get ["landing"] fs = Some (EDir ∅) ->
   fault env (c_iterdir ["landing"]) = None ->
     result_of x = Ok tt /\ (main env fs).1.1 = 0 /\
     fs_get ["landing"] (fs_of x) = Some (EDir ∅) /\
     fs_get ["bronze"] (fs_of x) = fs_get ["bronze"] fs1 /\
     fs_get ["bad_data"] (fs_of x) = fs_get ["bad_data"] fs1 /\
     trace_of x =
       t1 ++ [Call (c_exists ["landing"]) None; Call (c_iterdir ["landing"]) None;
              Log WARNING MNoArchivos] /\
     sin_movimientos (trace_of x)) /\
  (forall env0 fs0,
     result_of (ejecutar_pipeline env0 fs0) = Ok tt ->
     fs = fs_of (ejecutar_pipeline env0 fs0) ->
     fs_get ["landing"] fs = Some (EDir ∅) ->
       fs_get ["bronze"] (fs_of x) = fs_get ["bronze"] fs /\
       fs_get ["bad_data"] (fs_of x) = fs_get ["bad_data"] fs /\
       fs_get ["landing"] (fs_of x) = fs_get ["landing"] fs /\
       sin_movimientos (trace_of x)).
Proof.
  intros x fs1 t1.
  assert (Hl1 : fs_get ["landing"] fs1 = fs_get ["landing"] fs).
  { unfold fs1. by rewrite !fs_get_asegurar_ne. }
  split; [|split].
  - intros Hc Hx Hl Hm. subst x. unfold main.
    rewrite ejecutar_pipeline_etapas.
    apply crear_carpetas_destino_ok in Hc as (Hc & _). rewrite Hc. fold fs1.
    rewrite tras_crear_ausente by congruence.
    unfold result_of, fs_of, trace_of. simpl.
    split; [done|]. split; [done|]. split; [|split; [|split; [|split; [done|]]]].
    + unfold fs_get, asegurar. simpl. unfold fs_get in Hl1, Hl. simpl in Hl1, Hl.
      rewrite Hl1, Hl. by rewrite lookup_insert_eq.
    + by apply fs_get_asegurar_ne.
    + by apply fs_get_asegurar_ne.
    + intros src dst r Hin. subst t1. simpl in Hin. intuition congruence.
  - intros Hc Hx Hl Hi. subst x. unfold main.
    rewrite ejecutar_pipeline_etapas.
    apply crear_carpetas_destino_ok in Hc as (Hc & _). rewrite Hc. fold fs1.
    rewrite tras_crear_vacia by congruence.
    unfold result_of, fs_of, trace_of. simpl.
    split; [done|]. split; [done|]. split; [congruence|].
    split; [done|]. split; [done|]. split; [done|].
    intros src dst r Hin. subst t1. simpl in Hin. intuition congruence.
  - intros env0 fs0 Hr0 Hfs Hl.
    pose proof (pipeline_destinos env0 fs0) as [Hok H9].
    destruct (H9 (Hok Hr0)) as (_ & Hb & Hd). rewrite <- Hfs in Hb, Hd.
    pose proof (crear_carpetas_destino_fs env fs Hb Hd) as Hcf.
    pose proof (tras_crear_vacia_fs env fs Hl) as Htf.
    pose proof (tras_crear_vacia_sin_movimientos env fs Hl) as Htm.
    subst x. rewrite ejecutar_pipeline_etapas.
    destruct (crear_carpetas_destino_cases env fs) as [[Hc _]|[(e' & Hc)|(e' & Hc)]];
      rewrite Hc in Hcf |- *; unfold fs_of in Hcf; simpl in Hcf.
    + rewrite Hcf.
      destruct (tras_crear env fs) as [[[u'|e] fs2] t2];
        unfold fs_of, trace_of in *; simpl in *; subst fs2.
      * repeat split; try done. intros src dst r Hin.
        destruct Hin as [Hin|[Hin|[Hin|[Hin|[Hin|[Hin|Hin]]]]]]; try discriminate.
        by apply Htm in Hin.
      * repeat split; try done. intros src dst r Hin.
        destruct Hin as [Hin|[Hin|[Hin|[Hin|[Hin|[Hin|Hin]]]]]]; try discriminate.
        apply in_app_iff in Hin as [Hin|[Hin|[]]]; [|discriminate].
        by apply Htm in Hin.
    + unfold fs_of, trace_of. simpl. repeat split; try done.
      unfold sin_movimientos. intros src dst r Hin. simpl in Hin.
      intuition congruence.
    + unfold fs_of, trace_of. simpl. rewrite Hcf. repeat split; try done.
      unfold sin_movimientos. intros src dst r Hin. simpl in Hin.
      intuition congruence.
Qed.

(** C7, as stated, fails for a run that cannot create the absent
    [landing/]: the run raises, after its [CRITICAL] line, and the process
    exits with status 1. *)
Lemma sin_landing_contraejemplo :
  let x := ejecutar_pipeline sin_permiso_landing fs_sin_landing in
  fs_get ["landing"] fs_sin_landing = None /\
  result_of x = Raise PermissionError /\
  (main sin_permiso_landing fs_sin_landing).1.1 = 1 /\
  In (Log CRITICAL (MErrorFatal PermissionError)) (trace_of x) /\
  fs_get ["landing"] (fs_of x) = None.
Proof.
  simpl.
  split; [by vm_compute|]. split; [by vm_compute|]. split; [by vm_compute|].
  split; [|by vm_compute].
  vm_compute. tauto.
Qed.

(** * The complete run *)

Section Completa.

Variable env : Env.

Lemma filter_is_file_sin_fallos l fs :
  (forall p, In p l -> fault env (c_is_file p) = None) ->
  filter_is_file env l fs =
    (Ok (List.filter (fun p => is_reg (fs_get p fs)) l), fs,
     (fun p => Call (c_is_file p) None) <$> l).
Proof.
  induction l as [|p l IH]; intros Hall; [done|].
  simpl. unfold bind, is_file, call, ret.
  rewrite (Hall p) by (by left). simpl.
  rewrite IH by (intros; apply Hall; by right). simpl.
  rewrite app_nil_r. by destruct (is_reg (fs_get p fs)).
Qed.

Lemma tras_crear_completa fs :
  escaneo_sin_fallos env fs ->
  archivos_de fs <> [] ->
  fault env (c_glob ["landing"]) = None ->
  exists c fs' tl,
    bucle env (archivos_de fs) c0 fs = (Ok c, fs', tl) /\
    tras_crear env fs =
      (Ok tt, fs',
       traza_escaneo fs ++
       [Log INFO (MEncontrados (length (archivos_de fs)))] ++ tl ++
       lineas_resumen (length (archivos_de fs)) c (now env 1 - now env 0) ++
       [Call (c_glob ["landing"]) None; linea_final fs']).
Proof.
  intros (Hx & Hd & Hi & Hf) Hne Hg.
  pose proof (filter_is_file_sin_fallos (entradas_de fs) fs Hf) as Hff.
  fold (archivos_de fs) in Hff.
  pose proof (tras_crear_rama env fs) as R.
  inversion R as [e' Hx' Heq|e' Hx' Hn Hm Heq|Hx' Hn Hm Heq|e' Hx' Hn Hi' Heq
                 |e' Hx' Hdir Hi' Hf' Heq|Hx' Hdir Hi' Hf' Hnil Heq
                 |c fs' tl Hx' Hdir Hi' Hf' Hne' Hb Hg' Heq
                 |c fs' tl e' Hx' Hdir Hi' Hf' Hne' Hb Hg' Heq];
    try congruence; try (by rewrite Hn in Hd).
  - exfalso. revert Hi'. unfold iterdir, call, result_of. rewrite Hi.
    by destruct (fs_get ["landing"] fs) as [[?|?]|].
  - exfalso. revert Hf'. by rewrite Hff.
  - exists c, fs', tl. split; [done|]. rewrite Hff. unfold trace_of, traza_escaneo.
    simpl. by rewrite <- ?app_assoc.
Qed.

Lemma tras_crear_sin_archivos fs :
  escaneo_sin_fallos env fs ->
  archivos_de fs = [] ->
  tras_crear env fs = (Ok tt, fs, traza_escaneo fs ++ [Log WARNING MNoArchivos]).
Proof.
  intros (Hx & Hd & Hi & Hf) Hnil.
  pose proof (filter_is_file_sin_fallos (entradas_de fs) fs Hf) as Hff.
  fold (archivos_de fs) in Hff.
  pose proof (tras_crear_rama env fs) as R.
  inversion R as [e' Hx' Heq|e' Hx' Hn Hm Heq|Hx' Hn Hm Heq|e' Hx' Hn Hi' Heq
                 |e' Hx' Hdir Hi' Hf' Heq|Hx' Hdir Hi' Hf' Hnil' Heq
                 |c fs' tl Hx' Hdir Hi' Hf' Hne' Hb Hg' Heq
                 |c fs' tl e' Hx' Hdir Hi' Hf' Hne' Hb Hg' Heq];
    try congruence; try (by rewrite Hn in Hd).
  - exfalso. revert Hi'. unfold iterdir, call, result_of. rewrite Hi.
    by destruct (fs_get ["landing"] fs) as [[?|?]|].
  - exfalso. revert Hf'. by rewrite Hff.
  - rewrite Hff. unfold trace_of, traza_escaneo. simpl. by rewrite <- ?app_assoc.
Qed.

Lemma escaneo_tras_crear fs :
  escaneo_sin_fallos env fs ->
  escaneo_sin_fallos env (asegurar "bad_data" (asegurar "bronze" fs)).
Proof.
  intros (Hx & Hd & Hi & Hf). split; [done|]. split; [|split; [done|]].
  - by rewrite !fs_get_asegurar_ne.
  - by rewrite (entradas_de_ext _ fs (landing_tras_crear fs)).
Qed.

End Completa.

(** C8, as amended.  When the destination directories are created and
    the scan of [landing/] meets no failure:
    - if the scan finds at least one regular file and [glob] does not fail,
      the run emits, after the lines of the loop, the summary with the three
      counters and the elapsed time, and then checks [landing/]: a warning
      with the number of entries left when there are some, the confirmation
      otherwise;
    - if the scan finds no regular file, the run ends with the warning that
      no file was found, and emits neither the summary nor the closing
      line. *)
Theorem resumen_y_verificacion env fs :
  result_of (crear_carpetas_destino env fs) = Ok tt ->
  escaneo_sin_fallos env fs ->
  let x := ejecutar_pipeline env fs in
  let t1 := cabecera ++ trace_of (crear_carpetas_destino env fs) ++ traza_escaneo fs in
  (archivos_de fs <> [] -> fault env (c_glob ["landing"]) = None ->
     exists c tl,
       bucle env (archivos_de fs) c0 (fs_of (crear_carpetas_destino env fs)) =
         (Ok c, fs_of x, tl) /\
       result_of x = Ok tt /\
       trace_of x =
         t1 ++ [Log INFO (MEncontrados (length (archivos_de fs)))] ++ tl ++
         lineas_resumen (length (archivos_de fs)) c (now env 1 - now env 0) ++
         [Call (c_glob ["landing"]) None; linea_final (fs_of x)] /\
       (entradas_de (fs_of x) <> [] ->
          linea_final (fs_of x) =
            Log WARNING (MQuedan (length (entradas_de (fs_of x))))) /\
       (entradas_de (fs_of x) = [] ->
          linea_final (fs_of x) = Log INFO MCompletado)) /\
  (archivos_de fs = [] ->
     result_of x = Ok tt /\
     trace_of x = t1 ++ [Log WARNING MNoArchivos] /\
     ~ resumen_emitido (trace_of x) /\ ~ cierre_emitido (trace_of x)).
Proof.
  intros Hc Hs x t1. subst x t1.
  apply crear_carpetas_destino_ok in Hc as (Hc & _).
  apply escaneo_tras_crear in Hs.
  rewrite ejecutar_pipeline_etapas, Hc.
  set (fs1 := asegurar "bad_data" (asegurar "bronze" fs)) in *.
  assert (Ha : archivos_de fs1 = archivos_de fs)
    by apply archivos_de_ext, landing_tras_crear.
  assert (He : traza_escaneo fs1 = traza_escaneo fs).
  { unfold traza_escaneo, fs1.
    by rewrite (entradas_de_ext _ fs (landing_tras_crear fs)). }
  unfold fs_of at 1 5, trace_of at 2 4. simpl.
  split.
  - intros Hne Hg. rewrite <- Ha in Hne.
    destruct (tras_crear_completa env fs1 Hs Hne Hg) as (c & fs' & tl & Hb & ->).
    rewrite Ha, He in *. unfold fs_of, result_of, trace_of. simpl.
    exists c, tl. split; [done|]. split; [done|]. split.
    { by rewrite <- ?app_assoc. }
    unfold linea_final. destruct (entradas_de fs'); split; done.
  - intros Hnil. rewrite <- Ha in Hnil.
    rewrite (tras_crear_sin_archivos env fs1 Hs Hnil), He.
    unfold fs_of, result_of, trace_of. simpl.
    split; [done|]. split; [by rewrite <- ?app_assoc|].
    assert (Hsr : sin_resumen
              (cabecera ++
               [Call (c_mkdir "bronze") None; Call (c_mkdir "bad_data") None;
                Log INFO MCarpetasOk] ++
               traza_escaneo fs ++ [Log WARNING MNoArchivos])).
    { unfold traza_escaneo. sin_resumen_tac.
      apply llamadas_sin_resumen, Forall_fmap, Forall_true.
      intros p. by exists (c_is_file p), None. }
    split.
    + intros (k & c & d & Hinc).
      assert (Hin : In (Log INFO MResumen) (lineas_resumen k c d))
        by (simpl; auto).
      apply Hinc in Hin. by apply (sin_resumen_In _ _ Hsr) in Hin.
    + intros [Hin|(k & Hin)]; by apply (sin_resumen_In _ _ Hsr) in Hin.
Qed.

(** C8, as stated, fails for a run that finds an empty [landing/]: the
    directory exists at scan time and the run returns normally, but it emits
    neither the summary nor the closing line. *)
Lemma resumen_sin_archivos_contraejemplo :
  let x := ejecutar_pipeline sin_fallos fs_landing_vacia in
  is_dir (fs_get ["landing"] fs_landing_vacia) = true /\
  result_of x = Ok tt /\
  trace_of x =
    cabecera ++
    [Call (c_mkdir "bronze") None; Call (c_mkdir "bad_data") None;
     Log INFO MCarpetasOk; Call (c_exists ["landing"]) None;
     Call (c_iterdir ["landing"]) None; Log WARNING MNoArchivos] /\
  ~ resumen_emitido (trace_of x) /\
  ~ cierre_emitido (trace_of x).
Proof.
  assert (Ht : trace_of (ejecutar_pipeline sin_fallos fs_landing_vacia) =
    cabecera ++
    [Call (c_mkdir "bronze") None; Call (c_mkdir "bad_data") None;
     Log INFO MCarpetasOk; Call (c_exists ["landing"]) None;
     Call (c_iterdir ["landing"]) None; Log WARNING MNoArchivos])
    by (vm_compute; reflexivity).
  simpl. rewrite Ht. repeat split; try (vm_compute; reflexivity).
  - intros (k & c & d & Hinc).
    assert (Hin : In (Log INFO MResumen) (lineas_resumen k c d))
      by (simpl; auto).
    apply Hinc in Hin. simpl in Hin. intuition congruence.
  - intros [Hin|(k & Hin)]; simpl in Hin; intuition congruence.
Qed.

(** C3, at the input where it fails.  [landing/a.csv] is empty and
    [bronze/] already holds an [a.csv]: the run moves the file to
    [bad_data/] and moves nothing to [bronze/], yet the summary reports one
    file moved to Bronze and none to Bad Data. *)
Theorem conteo_con_colision :
  let x := ejecutar_pipeline sin_fallos fs_colision in
  result_of x = Ok tt /\
  movidos_a "bronze" (trace_of x) = 0 /\
  movidos_a "bad_data" (trace_of x) = 1 /\
  In (Log INFO (MBronze 1)) (trace_of x) /\
  In (Log INFO (MBadData 0)) (trace_of x) /\
  file_at ["bad_data"; "a.csv"] (fs_of x) = Some (File 1 0) /\
  file_at ["bronze"; "a.csv"] (fs_of x) = Some (File 2 5).
Proof.
  assert (Ht : trace_of (ejecutar_pipeline sin_fallos fs_colision) =
    cabecera ++
    [Call (c_mkdir "bronze") None; Call (c_mkdir "bad_data") None;
     Log INFO MCarpetasOk; Call (c_exists ["landing"]) None;
     Call (c_iterdir ["landing"]) None;
     Call (c_is_file ["landing"; "a.csv"]) None;
     Log INFO (MEncontrados 1);
     Log INFO (MIniciando "a.csv");
     Call (c_stat ["landing"; "a.csv"]) None;
     Log INFO (MTamanio 0);
     Call (c_move ["landing"; "a.csv"] ["bad_data"; "a.csv"]) None;
     Log WARNING (MRechazado "a.csv");
     Log INFO (MFinalizado "a.csv");
     Call (c_exists ["bronze"; "a.csv"]) None] ++
    lineas_resumen 1 (Contadores 1 0 0) 1 ++
    [Call (c_glob ["landing"]) None; Log INFO MCompletado])
    by (vm_compute; reflexivity).
  simpl. rewrite Ht.
  repeat split; try (vm_compute; reflexivity);
    simpl; repeat (first [left; reflexivity | right]).
Qed.

(** * Where each file ends up *)

Section Ubicacion.

Variable env : Env.

Lemma kind_None_get q fs r :
  kind_of (fs_get q fs) = KNone -> fs_get (q ++ r) fs = None.
Proof.
  unfold fs_get. rewrite geto_app.
  destruct (geto q (Some (EDir fs))) as [[?|?]|]; try done.
  intros _. apply geto_None.
Qed.

Lemma fs_get_app q r fs : fs_get (q ++ r) fs = geto r (fs_get q fs).
Proof. unfold fs_get. apply geto_app. Qed.






End Ubicacion.

Section Enumerados.

Variable env : Env.

Lemma NoDup_entradas_de fs : NoDup (entradas_de fs).
Proof.
  unfold entradas_de. destruct (fs_get ["landing"] fs) as [[f|ch]|];
    try apply NoDup_nil_2.
  assert (Heq : (fun kv : string * entry => ["landing"] ++ [kv.1]) <$> map_to_list ch =
                (fun k => ["landing"; k]) <$> (map_to_list ch).*1).
  { by rewrite <- list_fmap_compose. }
  rewrite Heq. apply NoDup_fmap_2_strong; [|apply NoDup_fst_map_to_list].
  intros k1 k2 _ _ [=]. done.
Qed.

Lemma NoDup_archivos_de fs : NoDup (archivos_de fs).
Proof.
  unfold archivos_de.
  apply NoDup_ListNoDup, List.NoDup_filter, NoDup_ListNoDup, NoDup_entradas_de.
Qed.


Lemma file_at_asegurar d q fs : file_at q (asegurar d fs) = file_at q fs.
Proof.
  unfold asegurar. destruct (fs !! d) as [ent|] eqn:Hd; [done|].
  unfold file_at, fs_get. destruct q as [|x q]; [done|]. simpl.
  destruct (decide (d = x)) as [->|Hne].
  - rewrite lookup_insert_eq, Hd.
    destruct q as [|y q]; simpl; [done|].
    rewrite lookup_empty. by rewrite !geto_None.
  - by rewrite lookup_insert_ne.
Qed.


Lemma kind_asegurar d q fs :
  q <> [d] -> kind_of (fs_get q (asegurar d fs)) = kind_of (fs_get q fs).
Proof.
  intros Hq. unfold asegurar. destruct (fs !! d) as [ent|] eqn:Hd; [done|].
  unfold fs_get. destruct q as [|x q]; [done|]. simpl.
  destruct (decide (d = x)) as [->|Hne].
  - rewrite lookup_insert_eq, Hd.
    destruct q as [|y q]; [done|]. simpl.
    rewrite lookup_empty. by rewrite !geto_None.
  - by rewrite lookup_insert_ne.
Qed.


End Enumerados.



(** * The theorems at concrete inputs *)

Ltac en_lista := simpl; repeat (first [left; reflexivity | right]).

Lemma escaneo_sin_fallos_ejemplo : escaneo_sin_fallos sin_fallos fs_ejemplo.
Proof. repeat split; by vm_compute. Qed.

Lemma clasificacion_por_tamanio_witness :
  en_destino "bronze" "a.csv" (File 1 10)
    (fs_of (procesar_archivo sin_fallos ["landing"; "a.csv"] fs_ejemplo)) /\
  en_destino "bad_data" "b.csv" (File 2 0)
    (fs_of (procesar_archivo sin_fallos ["landing"; "b.csv"] fs_ejemplo)) /\
  exists g,
    en_destino "bronze" "a.csv" g
      (fs_of (procesar_archivo otro_dispositivo ["landing"; "a.csv"] fs_ejemplo)) /\
    es_o_copia (File 1 10) g.
Proof.
  split; [|split].
  - refine (proj2 (proj2 (proj2 (proj1
      (clasificacion_por_tamanio sin_fallos "a.csv" (File 1 10) fs_ejemplo _ _ _) _)))
      _ _).
    + vm_compute. reflexivity.
    + vm_compute. tauto.
    + exists ["bronze"; "a.csv"]. vm_compute. tauto.
    + simpl. lia.
    + reflexivity.
    + vm_compute. reflexivity.
  - refine (proj2 (proj2 (proj2 (proj2
      (clasificacion_por_tamanio sin_fallos "b.csv" (File 2 0) fs_ejemplo _ _ _) _)))
      _ _).
    + vm_compute. reflexivity.
    + vm_compute. tauto.
    + exists ["bad_data"; "b.csv"]. vm_compute. tauto.
    + reflexivity.
    + reflexivity.
    + vm_compute. reflexivity.
  - refine (proj1 (proj2 (proj1
      (clasificacion_por_tamanio otro_dispositivo "a.csv" (File 1 10) fs_ejemplo _ _ _)
      _))).
    + vm_compute. reflexivity.
    + vm_compute. tauto.
    + exists ["bronze"; "a.csv"]. vm_compute. tauto.
    + simpl. lia.
Defined.


Lemma suma_de_contadores_witness :
  1 + 1 + 0 = length (archivos_de fs_ejemplo).
Proof.
  refine (proj1 (suma_de_contadores sin_fallos fs_ejemplo 1 1 0 _ _ _)).
  - vm_compute. tauto.
  - vm_compute. tauto.
  - vm_compute. tauto.
Defined.

Lemma error_contenido_witness :
  result_of (procesar_archivo sin_fallos ["landing"; "perdido.csv"] fs_ejemplo) =
    Ok false /\
  exists c', result_of (bucle sin_fallos
                          [["landing"; "perdido.csv"]; ["landing"; "a.csv"]]
                          c0 fs_ejemplo) = Ok c'.
Proof.
  destruct (error_contenido sin_fallos ["landing"; "perdido.csv"]
              [["landing"; "a.csv"]] c0 fs_ejemplo)
    as (Hr & _ & _ & _ & Hc & _).
  - left. vm_compute. reflexivity.
  - split; assumption.
Defined.

Lemma fallo_al_crear_destino_witness :
  result_of (ejecutar_pipeline sin_permiso fs_sin_landing) = Raise PermissionError /\
  (main sin_permiso fs_sin_landing).1.1 = 1.
Proof.
  destruct (fallo_al_crear_destino sin_permiso fs_sin_landing PermissionError)
    as (Hr & Hm & _).
  - vm_compute. reflexivity.
  - split; assumption.
Defined.

Lemma sin_archivos_sin_movimientos_witness :
  (result_of (ejecutar_pipeline sin_fallos fs_sin_landing) = Ok tt /\
   sin_movimientos (trace_of (ejecutar_pipeline sin_fallos fs_sin_landing))) /\
  (result_of (ejecutar_pipeline sin_fallos fs_landing_vacia) = Ok tt /\
   sin_movimientos (trace_of (ejecutar_pipeline sin_fallos fs_landing_vacia))) /\
  fs_get ["bronze"]
    (fs_of (ejecutar_pipeline sin_fallos
              (fs_of (ejecutar_pipeline sin_fallos fs_ejemplo)))) =
  fs_get ["bronze"] (fs_of (ejecutar_pipeline sin_fallos fs_ejemplo)).
Proof.
  split; [|split].
  - destruct (proj1 (sin_archivos_sin_movimientos sin_fallos fs_sin_landing))
      as (Hr & _ & _ & _ & _ & _ & Hm); try (vm_compute; reflexivity).
    split; assumption.
  - destruct (proj1 (proj2 (sin_archivos_sin_movimientos sin_fallos fs_landing_vacia)))
      as (Hr & _ & _ & _ & _ & _ & Hm); try (vm_compute; reflexivity).
    split; assumption.
  - refine (proj1 (proj2 (proj2 (sin_archivos_sin_movimientos sin_fallos
              (fs_of (ejecutar_pipeline sin_fallos fs_ejemplo))))
              sin_fallos fs_ejemplo _ _ _)).
    + vm_compute. reflexivity.
    + reflexivity.
    + vm_compute. reflexivity.
Defined.

Lemma procesar_archivo_total_witness :
  exists b,
    result_of (procesar_archivo sin_fallos ["landing"; "a.csv"] fs_ejemplo) = Ok b /\
    (b = true ->
     file_at ["landing"; "a.csv"]
       (fs_of (procesar_archivo sin_fallos ["landing"; "a.csv"] fs_ejemplo)) = None).
Proof.
  destruct (procesar_archivo_total sin_fallos ["landing"; "a.csv"] fs_ejemplo)
    as (b & Hb & _ & _ & _ & H).
  exists b. split; [exact Hb|]. intros Hbt.
  refine (proj1 (proj2 (proj1 (H "a.csv" (File 1 10) eq_refl _) Hbt)) _).
  - vm_compute. reflexivity.
  - vm_compute. reflexivity.
Defined.

Lemma resumen_y_verificacion_witness :
  exists c tl,
    trace_of (ejecutar_pipeline sin_fallos fs_ejemplo) =
      (cabecera ++ trace_of (crear_carpetas_destino sin_fallos fs_ejemplo) ++
       traza_escaneo fs_ejemplo) ++
      [Log INFO (MEncontrados 2)] ++ tl ++
      lineas_resumen 2 c 1 ++
      [Call (c_glob ["landing"]) None; Log INFO MCompletado].
Proof.
  destruct (proj1 (resumen_y_verificacion sin_fallos fs_ejemplo
                     ltac:(vm_compute; reflexivity) escaneo_sin_fallos_ejemplo))
    as (c & tl & _ & _ & Ht & _ & Hfin).
  - vm_compute. discriminate.
  - reflexivity.
  - exists c, tl. rewrite Ht. rewrite Hfin by (vm_compute; reflexivity).
    reflexivity.
Defined.

Lemma destinos_antes_de_landing_witness :
  is_dir (fs_get ["bronze"] (fs_of (ejecutar_pipeline sin_fallos fs_sin_landing))) = true /\
  is_dir (fs_get ["bad_data"] (fs_of (ejecutar_pipeline sin_fallos fs_sin_landing))) = true.
Proof.
  destruct (proj2 (destinos_antes_de_landing sin_fallos fs_sin_landing))
    as (_ & Hb & Hd).
  - vm_compute. reflexivity.
  - split; assumption.
Defined.

(** * Further properties of [crear_carpetas_destino] *)

Section CrearMas.

Variable env : Env.

Lemma fs_get_asegurar_existente d q e fs :
  q <> [] -> fs_get q fs = Some e -> fs_get q (asegurar d fs) = Some e.
Proof.
  intros Hq He. unfold asegurar. destruct (fs !! d) as [ent|] eqn:Hd; [done|].
  unfold fs_get in *. destruct q as [|x q]; [done|]. simpl in *.
  destruct (decide (d = x)) as [->|Hne].
  - rewrite Hd in He. by rewrite geto_None in He.
  - by rewrite lookup_insert_ne.
Qed.

(** Whatever its outcome, [crear_carpetas_destino] leaves the file
    system it found or adds empty directories to it. *)
Lemma crear_carpetas_destino_fs_cases fs :
  fs_of (crear_carpetas_destino env fs) = fs \/
  fs_of (crear_carpetas_destino env fs) = asegurar "bronze" fs \/
  fs_of (crear_carpetas_destino env fs) = asegurar "bad_data" (asegurar "bronze" fs).
Proof.
  destruct (crear_carpetas_destino_cases env fs) as [[Hc _]|[(e' & Hc)|(e' & Hc)]];
    rewrite Hc; unfold fs_of; simpl; auto.
Qed.

Lemma crear_conserva_entradas fs q e :
  q <> [] -> fs_get q fs = Some e ->
  fs_get q (fs_of (crear_carpetas_destino env fs)) = Some e.
Proof.
  intros Hq He.
  destruct (crear_carpetas_destino_fs_cases fs) as [-> |[-> | ->]];
    auto using fs_get_asegurar_existente.
Qed.

Lemma crear_conserva_archivos fs q :
  file_at q (fs_of (crear_carpetas_destino env fs)) = file_at q fs.
Proof.
  destruct (crear_carpetas_destino_fs_cases fs) as [-> |[-> | ->]];
    by rewrite ?file_at_asegurar.
Qed.


End CrearMas.

Lemma fuera_del_log_no_vacio q : fuera_del_log q -> q <> [].
Proof. by destruct q. Qed.

(** X1. [crear_carpetas_destino] only ever adds empty directories: every
    entry other than the log file keeps its place and its content, no
    regular file appears or disappears there, and when both directories
    already exist every entry other than the log file is left exactly as it
    was, whatever the environment does. *)
Theorem crear_carpetas_destino_conserva env fs :
  let fs' := fs_of (crear_carpetas_destino env fs) in
  (forall q e, fuera_del_log q -> fs_get q fs = Some e -> fs_get q fs' = Some e) /\
  (forall q, fuera_del_log q -> file_at q fs' = file_at q fs) /\
  (is_dir (fs_get ["bronze"] fs) = true ->
   is_dir (fs_get ["bad_data"] fs) = true ->
   forall q, fuera_del_log q -> fs_get q fs' = fs_get q fs).
Proof.
  split; [|split].
  - intros q e Hq. apply crear_conserva_entradas. by apply fuera_del_log_no_vacio.
  - intros q _. apply crear_conserva_archivos.
  - intros Hb Hd q _. by rewrite crear_carpetas_destino_fs.
Qed.

(** A run whose destination directories cannot be created. *)
Lemma pipeline_crear_falla env fs e :
  result_of (crear_carpetas_destino env fs) = Raise e ->
  ejecutar_pipeline env fs =
    (Raise e, fs_of (crear_carpetas_destino env fs),
     cabecera ++ trace_of (crear_carpetas_destino env fs) ++
     [Log CRITICAL (MErrorFatal e)]).
Proof.
  intros H. rewrite ejecutar_pipeline_etapas.
  destruct (crear_carpetas_destino env fs) as [[[u|e'] fs1] t1];
    unfold result_of in H; simpl in H; [done|]. by injection H as ->.
Qed.

Lemma crear_solo_mkdir env fs c r :
  In (Call c r) (trace_of (crear_carpetas_destino env fs)) -> es_mkdir_destino c.
Proof.
  destruct (crear_carpetas_destino_cases env fs) as [[Hc _]|[(e' & Hc)|(e' & Hc)]];
    rewrite Hc; unfold trace_of, es_mkdir_destino; simpl; intuition congruence.
Qed.

(** X2. [mkdir(exist_ok=True)] does not accept a regular file: when
    [bronze] or [bad_data] is a regular file and the environment lets the
    two [mkdir] through, the run aborts with [FileExistsError] and exit
    status 1, the regular file stays what it was, and the only calls of the
    run are the [mkdir] of the destination directories. *)
Theorem destino_es_archivo env fs d f :
  d = "bronze" \/ d = "bad_data" ->
  fs !! d = Some (EFile f) ->
  fault env (c_mkdir "bronze") = None ->
  fault env (c_mkdir "bad_data") = None ->
  let x := ejecutar_pipeline env fs in
  result_of x = Raise FileExistsError /\
  (main env fs).1.1 = 1 /\
  file_at [d] (fs_of x) = Some f /\
  (In (Call (c_mkdir "bronze") (Some FileExistsError)) (trace_of x) \/
   In (Call (c_mkdir "bad_data") (Some FileExistsError)) (trace_of x)) /\
  (forall c r, In (Call c r) (trace_of x) -> es_mkdir_destino c).
Proof.
  intros Hd Hf Hfb Hfd x. subst x.
  assert (Hc : result_of (crear_carpetas_destino env fs) = Raise FileExistsError /\
               (In (Call (c_mkdir "bronze") (Some FileExistsError))
                   (trace_of (crear_carpetas_destino env fs)) \/
                In (Call (c_mkdir "bad_data") (Some FileExistsError))
                   (trace_of (crear_carpetas_destino env fs)))).
  { unfold crear_carpetas_destino, try_except, bind, log, raise, mkdir, call.
    rewrite Hfb. destruct Hd as [-> | ->].
    - rewrite Hf. unfold result_of, trace_of. simpl. auto.
    - destruct (fs !! "bronze") as [[g|ch]|] eqn:Hb.
      + unfold result_of, trace_of. simpl. auto.
      + rewrite Hfd, Hf. unfold result_of, trace_of. simpl. auto.
      + rewrite Hfd, lookup_insert_ne, Hf by done.
        unfold result_of, trace_of. simpl. auto. }
  destruct Hc as [Hr Hin]. unfold main.
  rewrite (pipeline_crear_falla env fs _ Hr).
  pose proof (crear_conserva_archivos env fs [d]) as Hfa.
  pose proof (crear_solo_mkdir env fs) as Hsolo.
  set (fc := fs_of (crear_carpetas_destino env fs)) in *.
  set (tc := trace_of (crear_carpetas_destino env fs)) in *.
  unfold result_of, fs_of, trace_of. simpl.
  split; [done|]. split; [done|]. split; [|split].
  - rewrite Hfa. unfold file_at, fs_get. simpl. by rewrite Hf.
  - rewrite !in_app_iff.
    destruct Hin as [Hin|Hin]; [left|right]; do 3 right; auto.
  - intros c r [Hc|[Hc|[Hc|Hc]]]; try discriminate.
    apply in_app_iff in Hc as [Hc|[Hc|[]]]; [|discriminate].
    by apply (Hsolo c r).
Qed.

(** X3. [crear_carpetas_destino] does not undo what it did: when
    [bronze/] is missing and is created, and the creation of [bad_data/] then
    fails, the run aborts and [bronze/] stays behind, empty; [bad_data/],
    [landing/] and every other entry but the log file are as they were. *)
Theorem crear_sin_deshacer env fs e :
  fs !! "bronze" = None ->
  fault env (c_mkdir "bronze") = None ->
  fault env (c_mkdir "bad_data") = Some e ->
  let x := ejecutar_pipeline env fs in
  result_of x = Raise e /\
  fs_get ["bronze"] (fs_of x) = Some (EDir ∅) /\
  fs_get ["bad_data"] (fs_of x) = fs_get ["bad_data"] fs /\
  fs_get ["landing"] (fs_of x) = fs_get ["landing"] fs /\
  (forall d q, d <> "bronze" -> fuera_del_log (d :: q) ->
     fs_get (d :: q) (fs_of x) = fs_get (d :: q) fs).
Proof.
  intros Hb Hfb Hfd x. subst x.
  assert (Hc : crear_carpetas_destino env fs =
            (Raise e, <["bronze" := EDir ∅]> fs,
             [Call (c_mkdir "bronze") None; Call (c_mkdir "bad_data") (Some e);
              Log CRITICAL (MErrorCarpetas e)])).
  { unfold crear_carpetas_destino, try_except, bind, log, raise, mkdir, call.
    rewrite Hfb, Hb, Hfd. done. }
  rewrite (pipeline_crear_falla env fs e) by (by rewrite Hc).
  rewrite Hc. unfold result_of, fs_of, fs_get. simpl.
  rewrite lookup_insert_eq, !lookup_insert_ne by done.
  split; [done|]. split; [done|]. split; [done|]. split; [done|].
  intros d q Hd _. by rewrite lookup_insert_ne.
Qed.

(** * Fatal errors *)

Lemma sin_critico_app t1 t2 :
  sin_critico (t1 ++ t2) <-> sin_critico t1 /\ sin_critico t2.
Proof. apply Forall_app. Qed.

Lemma sin_critico_cons ev t :
  es_critico ev = false -> sin_critico t -> sin_critico (ev :: t).
Proof. intros. by apply Forall_cons_2. Qed.

Lemma sin_critico_In t m : sin_critico t -> ~ In (Log CRITICAL m) t.
Proof.
  unfold sin_critico. rewrite Forall_forall. intros H Hin.
  apply list_elem_of_In, H in Hin. discriminate.
Qed.

Ltac sin_critico_tac :=
  repeat first
    [ apply Forall_nil_2
    | apply sin_critico_cons; [reflexivity|]
    | apply sin_critico_app; split
    | assumption ].

Section Fatal.

Variable env : Env.

Lemma llamadas_sin_critico t : Forall es_llamada t -> sin_critico t.
Proof.
  unfold sin_critico. intros H. eapply Forall_impl; [exact H|].
  by intros ev (c & r & ->).
Qed.

Lemma procesar_archivo_sin_critico archivo fs :
  sin_critico (trace_of (procesar_archivo env archivo fs)).
Proof.
  destruct (procesar_archivo_cases env archivo fs)
    as [(e & _ & ->)|[(tam & e & fs0 & _ & _ & ->)|(tam & p & fs' & _ & _ & ->)]];
    unfold trace_of, sin_critico, linea_movido; simpl.
  - repeat (apply Forall_cons_2; [by try destruct e|]). apply Forall_nil_2.
  - repeat (apply Forall_cons_2; [by try destruct e|]). apply Forall_nil_2.
  - repeat (apply Forall_cons_2; [by try destruct (0 <? tam)%nat|]).
    apply Forall_nil_2.
Qed.

Lemma bucle_sin_critico archivos c fs :
  sin_critico (trace_of (bucle env archivos c fs)).
Proof.
  revert c fs. induction archivos as [|a l IH]; intros c fs.
  - apply Forall_nil_2.
  - destruct (paso_total env a c fs) as (c1 & tx & Hp & _ & _ & Htx).
    rewrite (bucle_cons _ _ _ _ _ _ _ _ Hp). unfold trace_of at 1. simpl.
    rewrite !sin_critico_app. split; [split|].
    + apply procesar_archivo_sin_critico.
    + eapply Forall_impl; [exact Htx|]. by intros ev [->|(e & ->)].
    + apply IH.
Qed.

(** [tras_crear] itself logs nothing at [CRITICAL] level. *)
Lemma tras_crear_sin_critico fs : sin_critico (trace_of (tras_crear env fs)).
Proof.
  pose proof (filter_is_file_spec env (entradas_de fs) fs) as (_ & Hll & _).
  apply llamadas_sin_critico in Hll.
  pose proof (tras_crear_rama env fs) as R.
  destruct R as [e' Hx|e' Hx Hn Hm|Hx Hn Hm|e' Hx Hn Hi
                 |e' Hx Hd Hi Hf|Hx Hd Hi Hf Hnil
                 |c fs' tl Hx Hd Hi Hf Hne Hb Hg
                 |c fs' tl e' Hx Hd Hi Hf Hne Hb Hg];
    unfold trace_of in *; cbn [fst snd] in *.
  1-6: sin_critico_tac.
  - pose proof (bucle_sin_critico (archivos_de fs) c0 fs) as Hsl.
    rewrite Hb in Hsl. unfold trace_of in Hsl. cbn [snd] in Hsl.
    unfold lineas_resumen, linea_final.
    destruct (entradas_de fs'); sin_critico_tac.
  - pose proof (bucle_sin_critico (archivos_de fs) c0 fs) as Hsl.
    rewrite Hb in Hsl. unfold trace_of in Hsl. cbn [snd] in Hsl.
    unfold lineas_resumen. sin_critico_tac.
Qed.

End Fatal.

(** X4. A run logs at [CRITICAL] level exactly when it fails: a run that
    returns normally has no [CRITICAL] line, and a run that raises [e] ends
    its trace with the [CRITICAL] line of [ejecutar_pipeline] for [e] and
    exits with status 1. *)
Theorem critico_ssi_falla env fs :
  let x := ejecutar_pipeline env fs in
  (result_of x = Ok tt <-> sin_critico (trace_of x)) /\
  (forall e, result_of x = Raise e ->
     List.last (trace_of x) (Log INFO MSeparador) = Log CRITICAL (MErrorFatal e) /\
     (main env fs).1.1 = 1).
Proof.
  intros x. subst x. unfold main. rewrite ejecutar_pipeline_etapas.
  destruct (crear_carpetas_destino_cases env fs) as [[Hc _]|[(e' & Hc)|(e' & Hc)]];
    rewrite Hc.
  - pose proof (tras_crear_sin_critico env
                  (asegurar "bad_data" (asegurar "bronze" fs))) as Hs.
    destruct (tras_crear env (asegurar "bad_data" (asegurar "bronze" fs)))
      as [[[[]|e] fs2] t2]; unfold result_of, trace_of in *; simpl in *.
    + split; [|intros e [=]]. split; [|done]. intros _.
      unfold sin_critico. sin_critico_tac.
    + split.
      * split; [done|]. intros H.
        exfalso. apply (sin_critico_In _ (MErrorFatal e) H).
        do 6 right. rewrite in_app_iff. right. by left.
      * intros e0 [= <-]. split; [|done].
        change (List.last
                  ((cabecera ++
                    [Call (c_mkdir "bronze") None; Call (c_mkdir "bad_data") None;
                     Log INFO MCarpetasOk] ++ t2) ++ [Log CRITICAL (MErrorFatal e)])
                  (Log INFO MSeparador) = Log CRITICAL (MErrorFatal e)).
        apply List.last_last.
  - unfold result_of, trace_of. simpl. split.
    + split; [done|]. intros H.
      exfalso. apply (sin_critico_In _ (MErrorFatal e') H). simpl. auto 10.
    + by intros e [= <-].
  - unfold result_of, trace_of. simpl. split.
    + split; [done|]. intros H.
      exfalso. apply (sin_critico_In _ (MErrorFatal e') H). simpl. auto 10.
    + by intros e [= <-].
Qed.

(** X5. [exists()] is true of a regular file: when [landing] is a
    regular file, the destination directories are created, the scan reaches
    [iterdir], which raises [NotADirectoryError], and the run aborts with
    exit status 1 without touching the file. *)
Theorem landing_es_archivo env fs f :
  result_of (crear_carpetas_destino env fs) = Ok tt ->
  fs !! "landing" = Some (EFile f) ->
  fault env (c_exists ["landing"]) = None ->
  fault env (c_iterdir ["landing"]) = None ->
  let x := ejecutar_pipeline env fs in
  result_of x = Raise NotADirectoryError /\
  (main env fs).1.1 = 1 /\
  fs_of x = asegurar "bad_data" (asegurar "bronze" fs) /\
  file_at ["landing"] (fs_of x) = Some f /\
  trace_of x =
    cabecera ++
    [Call (c_mkdir "bronze") None; Call (c_mkdir "bad_data") None;
     Log INFO MCarpetasOk; Call (c_exists ["landing"]) None;
     Call (c_iterdir ["landing"]) (Some NotADirectoryError);
     Log CRITICAL (MErrorFatal NotADirectoryError)].
Proof.
  intros Hc Hl Hx Hi x. subst x. unfold main.
  apply crear_carpetas_destino_ok in Hc as (Hc & _).
  rewrite ejecutar_pipeline_etapas, Hc.
  set (fs1 := asegurar "bad_data" (asegurar "bronze" fs)).
  assert (Hl1 : fs_get ["landing"] fs1 = Some (EFile f)).
  { unfold fs1. rewrite !fs_get_asegurar_ne by done. unfold fs_get. simpl. done. }
  assert (Ht : tras_crear env fs1 =
            (Raise NotADirectoryError, fs1,
             [Call (c_exists ["landing"]) None;
              Call (c_iterdir ["landing"]) (Some NotADirectoryError)])).
  { unfold tras_crear, bind, exists_, iterdir, call. rewrite Hx, Hl1. simpl.
    rewrite Hi, Hl1. done. }
  rewrite Ht. unfold result_of, fs_of, trace_of. simpl.
  repeat split; try done. unfold file_at. by rewrite Hl1.
Qed.

(** X6. The creation of a missing [landing/] can fail too, and then the
    run does not end quietly: the exception leaves [ejecutar_pipeline] after
    its [CRITICAL] line, the exit status is 1, and [landing/] is still
    missing. *)
Theorem landing_no_creada env fs e :
  result_of (crear_carpetas_destino env fs) = Ok tt ->
  fs !! "landing" = None ->
  fault env (c_exists ["landing"]) = None ->
  fault env (c_mkdir "landing") = Some e ->
  let x := ejecutar_pipeline env fs in
  result_of x = Raise e /\
  (main env fs).1.1 = 1 /\
  fs_get ["landing"] (fs_of x) = None /\
  trace_of x =
    cabecera ++
    [Call (c_mkdir "bronze") None; Call (c_mkdir "bad_data") None;
     Log INFO MCarpetasOk; Call (c_exists ["landing"]) None;
     Log ERROR MLandingNoExiste; Call (c_mkdir "landing") (Some e);
     Log CRITICAL (MErrorFatal e)].
Proof.
  intros Hc Hl Hx Hm x. subst x. unfold main.
  apply crear_carpetas_destino_ok in Hc as (Hc & _).
  rewrite ejecutar_pipeline_etapas, Hc.
  set (fs1 := asegurar "bad_data" (asegurar "bronze" fs)).
  assert (Hl1 : fs_get ["landing"] fs1 = None).
  { unfold fs1. rewrite !fs_get_asegurar_ne by done. unfold fs_get. simpl. done. }
  assert (Ht : tras_crear env fs1 =
            (Raise e, fs1,
             [Call (c_exists ["landing"]) None; Log ERROR MLandingNoExiste;
              Call (c_mkdir "landing") (Some e)])).
  { unfold tras_crear, bind, exists_, mkdir, call, log. rewrite Hx, Hl1. simpl.
    rewrite Hm. done. }
  rewrite Ht. unfold result_of, fs_of, trace_of. simpl.
  repeat split; done.
Qed.

(** * Further properties of [procesar_archivo] and of the loop *)

Section ProcesarMas.

Variable env : Env.

Lemma stat_size_archivo a f fs :
  fault env (c_stat a) = None ->
  fs_get a fs = Some (EFile f) ->
  stat_size env a fs = (Ok (st_size f), fs, [Call (c_stat a) None]).
Proof. intros Hf Ha. unfold stat_size, call. by rewrite Hf, Ha. Qed.

Lemma is_dir_padre d n ent fs :
  fs_get [d; n] fs = Some ent -> is_dir (fs_get [d] fs) = true.
Proof. unfold fs_get. simpl. by destruct (fs !! d) as [[g|ch]|]. Qed.

(** The move onto a regular file that is another file, when [os.rename]
    is not made to fail. *)
Lemma shutil_move_sobre_archivo n d f g fs :
  fault env (c_rename ["landing"; n] [d; n]) = None ->
  fs_get ["landing"; n] fs = Some (EFile f) ->
  fs_get [d; n] fs = Some (EFile g) ->
  fid g <> fid f ->
  shutil_move env ["landing"; n] [d; n] fs =
    (Ok [d; n], fs_upd [d; n] (Some (EFile f)) (fs_upd ["landing"; n] None fs),
     [Call (c_move ["landing"; n] [d; n]) None]).
Proof.
  intros Hf Hs Hd Hne. unfold shutil_move, mover_a, rename.
  rewrite Hd. cbn [is_dir]. rewrite Hs, Hf. cbn [is_dir andb].
  change (parent [d; n]) with [d]. rewrite (is_dir_padre d n _ fs Hd). cbn [negb].
  by rewrite decide_False.
Qed.

(** The move into an existing directory where the name is taken. *)
Lemma shutil_move_nombre_ocupado n d ent fs :
  d <> "landing" ->
  is_dir (fs_get [d; n] fs) = true ->
  fs_get [d; n; n] fs = Some ent ->
  shutil_move env ["landing"; n] [d; n] fs =
    (Raise ShutilError, fs, [Call (c_move ["landing"; n] [d; n]) (Some ShutilError)]).
Proof.
  intros Hd Hdir Hn. unfold shutil_move.
  rewrite Hdir. rewrite decide_False by congruence.
  change ([d; n] ++ [name ["landing"; n]]) with [d; n; n]. by rewrite Hn.
Qed.

End ProcesarMas.

(** X7. A regular file of the same name in the destination, when it is
    another file and [os.rename] is not made to fail, is replaced without
    notice: the file of [landing/] takes its path, [procesar_archivo] returns
    [True], and the file that was there, if it had that name only, is at no
    path any more. *)
Theorem sobrescribe_destino env n f g fs :
  file_at ["landing"; n] fs = Some f ->
  file_at [destino_de (st_size f); n] fs = Some g ->
  fid g <> fid f ->
  fault env (c_stat ["landing"; n]) = None ->
  fault env (c_rename ["landing"; n] [destino_de (st_size f); n]) = None ->
  let x := procesar_archivo env ["landing"; n] fs in
  result_of x = Ok true /\
  file_at [destino_de (st_size f); n] (fs_of x) = Some f /\
  file_at ["landing"; n] (fs_of x) = None /\
  (unico_en g [destino_de (st_size f); n] fs ->
   forall q g', file_at q (fs_of x) = Some g' -> fid g' <> fid g).
Proof.
  intros Hf Hg Hne Hfs Hfr x. subst x.
  pose proof (procesar_archivo_marco_archivo env n f fs Hf) as Hrest.
  apply file_at_get in Hf, Hg.
  pose proof (stat_size_archivo env _ f fs Hfs Hf) as Hstat.
  pose proof (shutil_move_sobre_archivo env n _ f g fs Hfr Hf Hg Hne) as Hmove.
  set (d := destino_de (st_size f)) in *.
  assert (Hp : destino_real d n fs = [d; n]).
  { unfold destino_real. by rewrite Hg. }
  rewrite Hp in Hrest.
  destruct (procesar_archivo_cases env ["landing"; n] fs)
    as [(e & Hs & _)|[(tam & e & fs0 & Hs & Hm & _)|(tam & p & fs' & Hs & Hm & Hpr)]];
    rewrite Hstat in Hs; try discriminate; injection Hs as <-;
    change (name ["landing"; n]) with n in *; fold d in Hm.
  { rewrite Hmove in Hm. discriminate. }
  rewrite Hmove in Hm.
  assert (Hfs' : fs' = fs_upd [d; n] (Some (EFile f)) (fs_upd ["landing"; n] None fs))
    by congruence.
  clear Hm. rewrite Hpr in Hrest |- *. rewrite !result_of_eq, !fs_of_eq in *.
  assert (Hd' : fs_get [d; n] fs' = Some (EFile f)).
  { rewrite Hfs'.
    assert (Hch : chain [d; n] (Some (EDir (fs_upd ["landing"; n] None fs)))).
    { apply chain_parent; [done|]. change (parent [d; n]) with [d].
      transitivity (is_dir (fs_get [d] fs)); [|by apply (is_dir_padre d n _ fs Hg)].
      apply is_dir_kind.
      change (kind_of (fs_get [d] (fs_upd ["landing"; n] None fs)) =
              kind_of (fs_get [d] fs)).
      apply kind_fs_upd_away. simpl.
      rewrite decide_False; [done|]. intros Heq.
      exact (destino_de_no_landing (st_size f) (eq_sym Heq)). }
    pose proof (fs_get_upd_under [d; n] [] (Some (EFile f)) _ ltac:(done) Hch) as H.
    by rewrite app_nil_r in H. }
  assert (Hgone : fs_get ["landing"; n] fs' = None).
  { apply kind_None_iff. rewrite Hfs'. rewrite kind_fs_upd_away.
    - pose proof (fs_get_upd_under ["landing"; n] [] None fs ltac:(done)
                    (chain_get _ _ _ Hf)) as H.
      rewrite app_nil_r in H. by rewrite H.
    - simpl. rewrite decide_False; [done|].
      exact (destino_de_no_landing (st_size f)). }
  split; [done|]. split; [by apply file_at_get|]. split.
  { unfold file_at. by rewrite Hgone. }
  intros [_ Hu] q g' Hq Hfid.
  destruct (strip_prefix [d; n] q) as [r|] eqn:Hpq.
  - apply strip_prefix_Some in Hpq as ->.
    unfold file_at in Hq. rewrite fs_get_app, Hd' in Hq.
    destruct r; simpl in Hq; [|done]. injection Hq as <-. congruence.
  - destruct (is_prefix ["landing"; n] q) eqn:Hsq.
    + apply is_prefix_true in Hsq as [r ->].
      unfold file_at in Hq. rewrite fs_get_app, Hgone in Hq.
      by rewrite geto_None in Hq.
    + assert (Hq' : file_at q fs = Some g').
      { rewrite <- Hq. symmetry. apply file_at_kind. by apply Hrest. }
      apply Hu in Hq'; [|done]. subst q.
      simpl in Hpq. by rewrite !decide_True in Hpq.
Qed.

(** X8. When the destination already holds a directory named like the
    file, and that directory holds an entry of the same name, the move fails
    with the error of [shutil] before anything is done: [procesar_archivo]
    returns [False], the failure is logged as an unexpected error, and
    [landing/], the destinations and every other entry but the log file are
    as they were. *)
Theorem nombre_ocupado env n f ent fs :
  file_at ["landing"; n] fs = Some f ->
  is_dir (fs_get [destino_de (st_size f); n] fs) = true ->
  fs_get [destino_de (st_size f); n; n] fs = Some ent ->
  fault env (c_stat ["landing"; n]) = None ->
  let x := procesar_archivo env ["landing"; n] fs in
  result_of x = Ok false /\
  trace_of x =
    [Log INFO (MIniciando n); Call (c_stat ["landing"; n]) None;
     Log INFO (MTamanio (st_size f));
     Call (c_move ["landing"; n] [destino_de (st_size f); n]) (Some ShutilError);
     Log ERROR (MInesperado n ShutilError); Log INFO (MFinalizado n)] /\
  (forall q, fuera_del_log q -> fs_get q (fs_of x) = fs_get q fs).
Proof.
  intros Hf Hdir Hn Hfs x. subst x.
  apply file_at_get in Hf.
  pose proof (stat_size_archivo env _ f fs Hfs Hf) as Hstat.
  pose proof (shutil_move_nombre_ocupado env n _ ent fs
                (destino_de_no_landing (st_size f)) Hdir Hn) as Hmove.
  destruct (procesar_archivo_cases env ["landing"; n] fs)
    as [(e & Hs & _)|[(tam & e & fs0 & Hs & Hm & Hp)|(tam & p & fs' & Hs & Hm & _)]];
    rewrite Hstat in Hs; try discriminate; injection Hs as <-;
    change (name ["landing"; n]) with n in *;
    rewrite Hmove in Hm; try discriminate.
  injection Hm as <- <-. rewrite Hp. unfold result_of, trace_of, fs_of. cbn [fst snd].
  done.
Qed.

(** X9. When the check that follows a successful move raises, the file
    has been moved and yet the iteration counts it as an error: [errores]
    grows, neither [procesados] nor [rechazados] does, and the loop goes
    on. *)
Theorem verificacion_fallida env archivo c fs e :
  result_of (procesar_archivo env archivo fs) = Ok true ->
  fault env (c_exists ["bronze"; name archivo]) = Some e ->
  movido (trace_of (procesar_archivo env archivo fs)) archivo /\
  paso env archivo c fs =
    (Ok (mas_error c), fs_of (procesar_archivo env archivo fs),
     trace_of (procesar_archivo env archivo fs) ++
     [Call (c_exists ["bronze"; name archivo]) (Some e);
      Log ERROR (MNoCapturado (name archivo) e)]).
Proof.
  intros Hr He. split.
  - destruct (procesar_archivo_resultado env archivo fs) as (b & Hb & Hmov & _).
    apply Hmov. congruence.
  - destruct (paso_cases env archivo c fs)
      as [[H _]|[_ [(e' & He' & H)|[(He' & _)|(He' & _)]]]]; congruence.
Qed.

(** * What a run leaves alone *)

Section MarcoRun.

Variable env : Env.





End MarcoRun.




(** * When the counters are right *)

Lemma kind_reg (o1 o2 : option entry) :
  kind_of o1 = kind_of o2 -> is_reg o1 = is_reg o2.
Proof. destruct o1 as [[?|?]|], o2 as [[?|?]|]; simpl; congruence. Qed.

Lemma is_reg_get (o : option entry) :
  is_reg o = true -> exists f, o = Some (EFile f).
Proof. destruct o as [[f|?]|]; try done. eauto. Qed.

Section Conteo.

Variable env : Env.

Lemma movidos_a_app d t1 t2 :
  movidos_a d (t1 ++ t2) = movidos_a d t1 + movidos_a d t2.
Proof. unfold movidos_a. by rewrite List.filter_app, length_app. Qed.

Lemma movidos_a_is_file d (l : list path) :
  movidos_a d ((fun p => Call (c_is_file p) None) <$> l) = 0.
Proof. by induction l. Qed.

(** One iteration over a regular file whose name is free in [bronze/]:
    the counter that grows is the one of the directory the file went to. *)
Lemma paso_conteo n c fs :
  is_reg (fs_get ["landing"; n] fs) = true ->
  fs_get ["bronze"; n] fs = None ->
  fault env (c_exists ["bronze"; n]) = None ->
  exists c' fs' t,
    paso env ["landing"; n] c fs = (Ok c', fs', t) /\
    fs' = fs_of (procesar_archivo env ["landing"; n] fs) /\
    procesados c' = procesados c + movidos_a "bronze" t /\
    rechazados c' = rechazados c + movidos_a "bad_data" t /\
    errores c' + movidos_a "bronze" t + movidos_a "bad_data" t = errores c + 1.
Proof.
  intros Hreg Hfree Hfx.
  destruct (fs_get ["landing"; n] fs) as [[f|?]|] eqn:Hsrc; try done. clear Hreg.
  apply file_at_get in Hsrc.
  pose proof (procesar_archivo_marco_archivo env n f fs Hsrc) as Hrest.
  pose proof (procesar_archivo_efecto env n f fs Hsrc) as Hef. cbv zeta in Hef.
  destruct (procesar_archivo_cases env ["landing"; n] fs)
    as [(e & _ & Hpa)|[(tam & e & fs0 & _ & _ & Hpa)|(tam & p & fs' & Hs & _ & Hpa)]];
    destruct (paso_cases env ["landing"; n] c fs)
      as [[Hr H]|[Hr [(e' & He' & _)|[(_ & Hsome & H)|(_ & Hnone & H)]]]];
    change (name ["landing"; n]) with n in *;
    rewrite Hpa in *; rewrite ?result_of_eq, ?fs_of_eq, ?trace_of_eq in *;
    try discriminate; try congruence.
  - eexists _, _, _. split; [exact H|]. split; [done|].
    unfold movidos_a. simpl. lia.
  - eexists _, _, _. split; [exact H|]. split; [done|].
    unfold movidos_a. simpl. lia.
  - (* counted as processed: the file is in bronze/ *)
    eexists _, _, _. split; [exact H|]. split; [done|].
    apply (stat_size_file _ _ _ f) in Hs as ->; [|done].
    unfold destino_de, destino_real, linea_movido in *.
    destruct (0 <? st_size f)%nat.
    + unfold movidos_a. simpl. lia.
    + exfalso. destruct Hsome as [ent Hent].
      assert (Hk : kind_of (fs_get ["bronze"; n] fs') = kind_of (fs_get ["bronze"; n] fs)).
      { apply Hrest; [|done].
        by destruct (is_dir (fs_get ["bad_data"; n] fs)). }
      rewrite Hfree, Hent in Hk. by destruct ent.
  - (* counted as rejected: nothing is at bronze/n *)
    eexists _, _, _. split; [exact H|]. split; [done|].
    apply (stat_size_file _ _ _ f) in Hs as ->; [|done].
    unfold destino_de, destino_real, linea_movido in *.
    destruct (0 <? st_size f)%nat.
    + exfalso. rewrite Hfree in Hef. cbn [is_dir] in Hef.
      destruct Hef as [(Hr' & _)|(_ & _ & _ & Hc)]; [discriminate|].
      unfold file_at in Hc. rewrite ?Hfree, ?Hnone in Hc.
      destruct Hc as [(_ & ? & _)|[(_ & _ & ? & _)|(_ & _ & _ & g & ? & _)]];
        discriminate.
    + unfold movidos_a. simpl. lia.
Qed.

(** The loop over regular files whose names are free in [bronze/]. *)
Lemma bucle_conteo archivos c fs :
  (forall a, In a archivos -> exists m, a = ["landing"; m]) ->
  NoDup archivos ->
  (forall a, In a archivos ->
     is_reg (fs_get a fs) = true /\
     fs_get ["bronze"; name a] fs = None /\
     fault env (c_exists ["bronze"; name a]) = None) ->
  exists c' fs' t,
    bucle env archivos c fs = (Ok c', fs', t) /\
    procesados c' = procesados c + movidos_a "bronze" t /\
    rechazados c' = rechazados c + movidos_a "bad_data" t /\
    errores c' + movidos_a "bronze" t + movidos_a "bad_data" t =
      errores c + length archivos.
Proof.
  revert c fs. induction archivos as [|a l IH]; intros c fs Hforma Hnd Hlibre.
  { exists c, fs, []. unfold movidos_a. simpl. repeat split; lia. }
  apply NoDup_cons in Hnd as [Hna Hnd].
  destruct (Hforma a (or_introl eq_refl)) as (m & ->).
  destruct (Hlibre _ (or_introl eq_refl)) as (Hreg & Hfree & Hfx).
  change (name ["landing"; m]) with m in *.
  destruct (paso_conteo m c fs Hreg Hfree Hfx)
    as (c1 & fs1 & t1 & Hp & Hfs1 & Hpr & Hre & Her).
  rewrite (bucle_cons _ _ _ _ _ _ _ _ Hp).
  destruct (IH c1 fs1) as (c' & fs' & t & Hb & Hpr' & Hre' & Her').
  - intros; apply Hforma; by right.
  - done.
  - intros a Ha. destruct (Hforma a (or_intror Ha)) as (m' & ->).
    destruct (Hlibre _ (or_intror Ha)) as (Hreg' & Hfree' & Hfx').
    change (name ["landing"; m']) with m' in *.
    assert (Hne : m' <> m).
    { intros ->. apply Hna. by apply list_elem_of_In. }
    subst fs1. split; [|split; [|done]].
    + etransitivity; [|exact Hreg']. apply kind_reg. by apply kind_procesar_ajeno.
    + apply kind_None_iff.
      rewrite kind_procesar_ajeno; [by rewrite Hfree'|]. done.
  - rewrite Hb. rewrite result_of_eq, fs_of_eq, trace_of_eq.
    eexists _, _, _. split; [reflexivity|]. rewrite !movidos_a_app.
    simpl. repeat split; lia.
Qed.

(** The trace of [tras_crear] when the scan meets no failure and finds
    files. *)
Lemma tras_crear_traza fs :
  escaneo_sin_fallos env fs ->
  archivos_de fs <> [] ->
  exists c fs' tl tg,
    bucle env (archivos_de fs) c0 fs = (Ok c, fs', tl) /\
    fs_of (tras_crear env fs) = fs' /\
    trace_of (tras_crear env fs) =
      traza_escaneo fs ++
      [Log INFO (MEncontrados (length (archivos_de fs)))] ++ tl ++
      lineas_resumen (length (archivos_de fs)) c (now env 1 - now env 0) ++ tg /\
    ((fault env (c_glob ["landing"]) = None /\
      result_of (tras_crear env fs) = Ok tt /\
      tg = [Call (c_glob ["landing"]) None; linea_final fs']) \/
     (exists e, fault env (c_glob ["landing"]) = Some e /\
                result_of (tras_crear env fs) = Raise e /\
                tg = [Call (c_glob ["landing"]) (Some e)])).
Proof.
  intros (Hx & Hd & Hi & Hf) Hne.
  pose proof (filter_is_file_sin_fallos env (entradas_de fs) fs Hf) as Hff.
  fold (archivos_de fs) in Hff.
  pose proof (tras_crear_rama env fs) as R.
  inversion R as [e' Hx' Heq|e' Hx' Hn Hm Heq|Hx' Hn Hm Heq|e' Hx' Hn Hi' Heq
                 |e' Hx' Hdir Hi' Hf' Heq|Hx' Hdir Hi' Hf' Hnil Heq
                 |c fs' tl Hx' Hdir Hi' Hf' Hne' Hb Hg' Heq
                 |c fs' tl e' Hx' Hdir Hi' Hf' Hne' Hb Hg' Heq];
    try congruence; try (by rewrite Hn in Hd).
  - exfalso. revert Hi'. unfold iterdir, call, result_of. rewrite Hi.
    by destruct (fs_get ["landing"] fs) as [[?|?]|].
  - exfalso. revert Hf'. by rewrite Hff.
  - exists c, fs', tl, [Call (c_glob ["landing"]) None; linea_final fs'].
    rewrite Hff. unfold fs_of, trace_of, result_of, traza_escaneo. cbn [fst snd].
    split; [done|]. split; [done|]. split; [by rewrite <- ?app_assoc|]. by left.
  - exists c, fs', tl, [Call (c_glob ["landing"]) (Some e')].
    rewrite Hff. unfold fs_of, trace_of, result_of, traza_escaneo. cbn [fst snd].
    split; [done|]. split; [done|]. split; [by rewrite <- ?app_assoc|].
    right. by exists e'.
Qed.

End Conteo.

Lemma movidos_a_traza_escaneo d fs : movidos_a d (traza_escaneo fs) = 0.
Proof.
  unfold traza_escaneo. rewrite movidos_a_app, movidos_a_is_file. done.
Qed.

Lemma movidos_a_linea_final d fs e :
  movidos_a d [Call (c_glob ["landing"]) e; linea_final fs] = 0.
Proof. unfold linea_final. by destruct (entradas_de fs). Qed.

(** The run over files whose names are free in [bronze/]. *)
Lemma pipeline_conteo env fs :
  result_of (crear_carpetas_destino env fs) = Ok tt ->
  escaneo_sin_fallos env fs ->
  archivos_de fs <> [] ->
  (forall a, In a (archivos_de fs) ->
     fs_get ["bronze"; name a] fs = None /\
     fault env (c_exists ["bronze"; name a]) = None) ->
  let t := trace_of (ejecutar_pipeline env fs) in
  exists c,
    incl (lineas_resumen (length (archivos_de fs)) c (now env 1 - now env 0)) t /\
    procesados c = movidos_a "bronze" t /\
    rechazados c = movidos_a "bad_data" t /\
    errores c + movidos_a "bronze" t + movidos_a "bad_data" t =
      length (archivos_de fs).
Proof.
  intros Hc Hs Hne Hlibre t. subst t.
  apply crear_carpetas_destino_ok in Hc as (Hc & _).
  apply (escaneo_tras_crear env) in Hs.
  rewrite ejecutar_pipeline_etapas, Hc.
  set (fs1 := asegurar "bad_data" (asegurar "bronze" fs)) in *.
  assert (Ha : archivos_de fs1 = archivos_de fs)
    by apply archivos_de_ext, landing_tras_crear.
  assert (He : traza_escaneo fs1 = traza_escaneo fs).
  { unfold traza_escaneo, fs1.
    by rewrite (entradas_de_ext _ fs (landing_tras_crear fs)). }
  rewrite <- Ha in Hne.
  destruct (tras_crear_traza env fs1 Hs Hne) as (c & fs' & tl & tg & Hb & _ & Ht & Hg).
  rewrite Ha, He in *.
  destruct (bucle_conteo env (archivos_de fs) c0 fs1)
    as (c' & fs'' & t' & Hb' & Hpr & Hre & Her).
  { intros a Hin. apply archivos_de_forma in Hin as (m & -> & _). eauto. }
  { apply NoDup_archivos_de. }
  { intros a Hin. destruct (Hlibre a Hin) as [Hfree Hfx].
    split; [|split; [|done]].
    - rewrite <- Ha in Hin. by apply archivos_de_forma in Hin as (m & -> & Hreg).
    - apply kind_None_iff. unfold fs1.
      rewrite !kind_asegurar by discriminate. by rewrite Hfree. }
  rewrite Hb in Hb'. injection Hb' as <- <- <-.
  assert (Htg : forall d, movidos_a d tg = 0).
  { intros d. destruct Hg as [(_ & _ & ->)|(e & _ & _ & ->)];
      [apply movidos_a_linea_final|done]. }
  exists c.
  destruct (tras_crear env fs1) as [[[u|e] fs2] t2];
    unfold trace_of in *; cbn [fst snd] in *; subst t2.
  - split.
    { intros ev Hev. rewrite !in_app_iff. simpl. rewrite ?in_app_iff. auto 10. }
    change (cabecera ++
            [Call (c_mkdir "bronze") None; Call (c_mkdir "bad_data") None;
             Log INFO MCarpetasOk] ++
            traza_escaneo fs ++ [Log INFO (MEncontrados (length (archivos_de fs)))] ++
            tl ++ lineas_resumen (length (archivos_de fs)) c (now env 1 - now env 0) ++ tg)
      with ((cabecera ++
             [Call (c_mkdir "bronze") None; Call (c_mkdir "bad_data") None;
              Log INFO MCarpetasOk]) ++
            traza_escaneo fs ++ [Log INFO (MEncontrados (length (archivos_de fs)))] ++
            tl ++ lineas_resumen (length (archivos_de fs)) c (now env 1 - now env 0) ++ tg).
    rewrite !movidos_a_app, !movidos_a_traza_escaneo, !Htg.
    unfold c0 in *. simpl in *. rewrite !Nat.add_0_r.
    split; [exact Hpr|]. split; [exact Hre|exact Her].
  - split.
    { intros ev Hev. rewrite !in_app_iff. simpl. rewrite ?in_app_iff. auto 10. }
    change (cabecera ++
            [Call (c_mkdir "bronze") None; Call (c_mkdir "bad_data") None;
             Log INFO MCarpetasOk] ++
            (traza_escaneo fs ++ [Log INFO (MEncontrados (length (archivos_de fs)))] ++
             tl ++ lineas_resumen (length (archivos_de fs)) c (now env 1 - now env 0) ++ tg) ++
            [Log CRITICAL (MErrorFatal e)])
      with ((cabecera ++
             [Call (c_mkdir "bronze") None; Call (c_mkdir "bad_data") None;
              Log INFO MCarpetasOk]) ++
            (traza_escaneo fs ++ [Log INFO (MEncontrados (length (archivos_de fs)))] ++
             tl ++ lineas_resumen (length (archivos_de fs)) c (now env 1 - now env 0) ++ tg) ++
            [Log CRITICAL (MErrorFatal e)]).
    rewrite !movidos_a_app, !movidos_a_traza_escaneo, !Htg.
    unfold c0 in *. simpl in *. rewrite !Nat.add_0_r.
    split; [exact Hpr|]. split; [exact Hre|exact Her].
Qed.

(** X12. In a tree without symbolic links, the counters of the summary
    are right when no name collides: if [bronze/] holds no entry named like a
    regular file of [landing/] and the check after each move does not fail,
    the summary of the run reports as moved to Bronze and to Bad Data exactly
    the numbers of successful moves into each directory, and as errors the
    rest of the files. *)
Theorem conteo_sin_colision env fs :
  result_of (crear_carpetas_destino env fs) = Ok tt ->
  escaneo_sin_fallos env fs ->
  archivos_de fs <> [] ->
  (forall a, In a (archivos_de fs) ->
     fs_get ["bronze"; name a] fs = None /\
     fault env (c_exists ["bronze"; name a]) = None) ->
  let t := trace_of (ejecutar_pipeline env fs) in
  In (Log INFO (MBronze (movidos_a "bronze" t))) t /\
  In (Log INFO (MBadData (movidos_a "bad_data" t))) t /\
  In (Log INFO (MErrores (length (archivos_de fs) -
                          movidos_a "bronze" t - movidos_a "bad_data" t))) t.
Proof.
  intros Hc Hs Hne Hlibre t.
  destruct (pipeline_conteo env fs Hc Hs Hne Hlibre)
    as (c & Hinc & Hpr & Hre & Her).
  fold t in Hinc, Hpr, Hre, Her.
  rewrite <- Hpr, <- Hre.
  replace (length (archivos_de fs) - procesados c - rechazados c) with (errores c)
    by lia.
  repeat split; apply Hinc; simpl; auto 10.
Qed.

(** * Each file once *)

Section UnaVez.

Variable env : Env.

Lemma veces_stat_app a t1 t2 :
  veces_stat a (t1 ++ t2) = veces_stat a t1 + veces_stat a t2.
Proof. unfold veces_stat. by rewrite List.filter_app, length_app. Qed.

Lemma veces_move_app a t1 t2 :
  veces_move a (t1 ++ t2) = veces_move a t1 + veces_move a t2.
Proof. unfold veces_move. by rewrite List.filter_app, length_app. Qed.

Lemma veces_procesar archivo a fs :
  veces_stat a (trace_of (procesar_archivo env archivo fs)) =
    (if bool_decide (archivo = a) then 1 else 0) /\
  veces_move a (trace_of (procesar_archivo env archivo fs)) <=
    (if bool_decide (archivo = a) then 1 else 0).
Proof.
  destruct (procesar_archivo_cases env archivo fs)
    as [(e & _ & ->)|[(tam & e & fs0 & _ & _ & ->)|(tam & p & fs' & _ & _ & ->)]];
    unfold trace_of, veces_stat, veces_move, linea_movido; simpl.
  - destruct (bool_decide (archivo = a)); destruct e; simpl; lia.
  - destruct (bool_decide (archivo = a)); destruct e; simpl; lia.
  - destruct (bool_decide (archivo = a)); destruct (0 <? tam)%nat; simpl; lia.
Qed.

Lemma veces_paso archivo a c fs :
  veces_stat a (trace_of (paso env archivo c fs)) =
    (if bool_decide (archivo = a) then 1 else 0) /\
  veces_move a (trace_of (paso env archivo c fs)) <=
    (if bool_decide (archivo = a) then 1 else 0).
Proof.
  destruct (veces_procesar archivo a fs) as [Hs Hm].
  destruct (paso_cases env archivo c fs)
    as [[_ H]|[_ [(e & _ & H)|[(_ & _ & H)|(_ & _ & H)]]]];
    rewrite H; unfold trace_of at 1 3; cbn [snd];
    rewrite ?veces_stat_app, ?veces_move_app;
    unfold veces_stat, veces_move in *;
    cbn [List.filter es_stat_de es_move_de length]; lia.
Qed.

Lemma bucle_veces archivos c fs a :
  NoDup archivos ->
  veces_stat a (trace_of (bucle env archivos c fs)) =
    (if bool_decide (a ∈ archivos) then 1 else 0) /\
  veces_move a (trace_of (bucle env archivos c fs)) <=
    (if bool_decide (a ∈ archivos) then 1 else 0).
Proof.
  revert c fs. induction archivos as [|a0 l IH]; intros c fs Hnd.
  { rewrite bool_decide_eq_false_2 by apply not_elem_of_nil.
    unfold trace_of, veces_stat, veces_move. simpl. lia. }
  apply NoDup_cons in Hnd as [Hna Hnd].
  destruct (paso_total env a0 c fs) as (c1 & tx & Hp & _).
  pose proof (veces_paso a0 a c fs) as [Hs Hm].
  assert (Ht : trace_of (bucle env (a0 :: l) c fs) =
               trace_of (paso env a0 c fs) ++
               trace_of (bucle env l c1 (fs_of (procesar_archivo env a0 fs)))).
  { rewrite (bucle_cons _ _ _ _ _ _ _ _ Hp), Hp. done. }
  rewrite Ht, veces_stat_app, veces_move_app, Hs.
  destruct (IH c1 (fs_of (procesar_archivo env a0 fs)) Hnd) as [IHs IHm].
  rewrite IHs.
  destruct (decide (a0 = a)) as [->|Hne].
  - rewrite bool_decide_eq_true_2 in Hm |- * by done.
    rewrite (bool_decide_eq_false_2 (a ∈ l)) in IHm |- * by done.
    rewrite (bool_decide_eq_true_2 (a ∈ a :: l)) by (apply elem_of_cons; by left). lia.
  - rewrite bool_decide_eq_false_2 in Hm |- * by done.
    destruct (decide (a ∈ l)) as [Hin|Hnin].
    + rewrite (bool_decide_eq_true_2 (a ∈ l)) in IHm |- * by done.
      rewrite (bool_decide_eq_true_2 (a ∈ a0 :: l))
        by (apply elem_of_cons; by right). lia.
    + rewrite (bool_decide_eq_false_2 (a ∈ l)) in IHm |- * by done.
      rewrite (bool_decide_eq_false_2 (a ∈ a0 :: l)); [lia|].
      intros [?|?]%elem_of_cons; congruence.
Qed.

End UnaVez.

(** X13. The loop handles each file once: over a list without
    repetition it calls [stat] exactly once on each file of the list and
    [shutil.move] at most once, and it calls neither on any other path,
    whatever fails along the way. *)
Theorem cada_archivo_una_vez env archivos c fs a :
  NoDup archivos ->
  let t := trace_of (bucle env archivos c fs) in
  (In a archivos -> veces_stat a t = 1 /\ veces_move a t <= 1) /\
  (~ In a archivos -> veces_stat a t = 0 /\ veces_move a t = 0).
Proof.
  intros Hnd t. destruct (bucle_veces env archivos c fs a Hnd) as [Hs Hm].
  fold t in Hs, Hm. split; intros Hin.
  - rewrite bool_decide_eq_true_2 in Hs, Hm by (by apply list_elem_of_In). done.
  - rewrite bool_decide_eq_false_2 in Hs, Hm by (by rewrite list_elem_of_In).
    split; [done|lia].
Qed.

(** * When everything goes well *)

Section Exito.

Variable env : Env.

Hypothesis Hsf : entorno_sin_fallos env.

Lemma shutil_move_exito n d f fs :
  d <> "landing" ->
  fs_get ["landing"; n] fs = Some (EFile f) ->
  is_dir (fs_get [d] fs) = true ->
  fs_get [d; n; n] fs = None ->
  exists p fs',
    shutil_move env ["landing"; n] [d; n] fs =
      (Ok p, fs', [Call (c_move ["landing"; n] [d; n]) None]).
Proof.
  intros Hd Hsrc Hdir Hnn. unfold shutil_move, mover_a.
  destruct (is_dir (fs_get [d; n] fs)) eqn:Hdn.
  - rewrite decide_False by congruence.
    change ([d; n] ++ [name ["landing"; n]]) with [d; n; n]. rewrite Hnn.
    rewrite Hsrc, Hsf. unfold rename. rewrite Hsrc. cbn [is_dir andb].
    change (parent [d; n; n]) with [d; n]. rewrite Hdn. cbn [negb].
    rewrite Hnn. eauto.
  - rewrite Hsrc, Hsf. unfold rename. rewrite Hsrc. cbn [is_dir andb].
    change (parent [d; n]) with [d]. rewrite Hdir. cbn [negb].
    destruct (fs_get [d; n] fs) as [[g|ch]|]; [|done|eauto].
    destruct (decide (fid g = fid f)); eauto.
Qed.

Lemma procesar_archivo_exito n f fs :
  fs_get ["landing"; n] fs = Some (EFile f) ->
  is_dir (fs_get [destino_de (st_size f)] fs) = true ->
  fs_get [destino_de (st_size f); n; n] fs = None ->
  (forall g, file_at [destino_de (st_size f); n] fs = Some g -> fid g <> fid f) ->
  result_of (procesar_archivo env ["landing"; n] fs) = Ok true /\
  fs_get ["landing"; n] (fs_of (procesar_archivo env ["landing"; n] fs)) = None.
Proof.
  intros Hsrc Hdir Hnn Hotro.
  assert (Hr : result_of (procesar_archivo env ["landing"; n] fs) = Ok true).
  { pose proof (stat_size_archivo env _ f fs (Hsf _) Hsrc) as Hstat.
    destruct (shutil_move_exito n _ f fs (destino_de_no_landing _) Hsrc Hdir Hnn)
      as (p & fs' & Hmove).
    destruct (procesar_archivo_cases env ["landing"; n] fs)
      as [(e & Hs & _)|[(tam & e & fs0 & Hs & Hm & _)|(tam & p' & fs'' & _ & _ & ->)]];
      [| |done]; rewrite Hstat in Hs; try discriminate.
    injection Hs as <-. change (name ["landing"; n]) with n in Hm.
    rewrite Hmove in Hm. discriminate. }
  split; [done|].
  assert (Hno : mismo_archivo f
            (file_at (destino_real (destino_de (st_size f)) n fs) fs) = false).
  { apply mismo_archivo_false. unfold destino_real.
    destruct (is_dir (fs_get [destino_de (st_size f); n] fs)); [|done].
    unfold file_at. rewrite Hnn. discriminate. }
  apply file_at_get in Hsrc.
  pose proof (procesar_archivo_efecto env n f fs Hsrc) as Hef. cbv zeta in Hef.
  destruct Hef as [(Hr' & _)|(_ & _ & _ & Hc)]; [congruence|].
  destruct Hc as [(_ & ? & _)|[(_ & _ & _ & ?)|(_ & _ & ? & _)]]; [congruence|done|done].
Qed.

(** The loop when nothing can fail: every file is moved. *)
Lemma bucle_exito archivos c fs :
  (forall a, In a archivos -> exists m, a = ["landing"; m]) ->
  NoDup archivos ->
  is_dir (fs_get ["bronze"] fs) = true ->
  is_dir (fs_get ["bad_data"] fs) = true ->
  (forall a, In a archivos ->
     is_reg (fs_get a fs) = true /\
     fs_get ["bronze"; name a; name a] fs = None /\
     fs_get ["bad_data"; name a; name a] fs = None /\
     (forall f g, file_at a fs = Some f ->
        file_at [destino_de (st_size f); name a] fs = Some g -> fid g <> fid f)) ->
  exists c' fs' t,
    bucle env archivos c fs = (Ok c', fs', t) /\
    errores c' = errores c /\
    (forall a, In a archivos -> fs_get a fs' = None /\ movido t a).
Proof.
  revert c fs.
  induction archivos as [|a0 l IH]; intros c fs Hforma Hnd Hb Hd Hok.
  { exists c, fs, []. split; [done|]. split; [done|]. intros a []. }
  apply NoDup_cons in Hnd as [Hna Hnd].
  destruct (Hforma a0 (or_introl eq_refl)) as (m & ->).
  destruct (Hok _ (or_introl eq_refl)) as (Hreg & Hnb & Hnd' & Hotro).
  change (name ["landing"; m]) with m in *.
  apply is_reg_get in Hreg as [f Hsrc].
  destruct (procesar_archivo_exito m f fs) as [Hr Hgone]; try done.
  { unfold destino_de; by destruct (0 <? st_size f)%nat. }
  { unfold destino_de; by destruct (0 <? st_size f)%nat. }
  { intros g. apply Hotro. by apply file_at_get. }
  set (fs1 := fs_of (procesar_archivo env ["landing"; m] fs)) in *.
  set (tp := trace_of (procesar_archivo env ["landing"; m] fs)).
  assert (Hmov : movido tp ["landing"; m]).
  { destruct (procesar_archivo_resultado env ["landing"; m] fs) as (b & Hb' & Hm & _).
    apply Hm. congruence. }
  assert (Hpaso : exists c1 tx,
            paso env ["landing"; m] c fs = (Ok c1, fs1, tp ++ tx) /\
            errores c1 = errores c).
  { destruct (paso_cases env ["landing"; m] c fs)
      as [[Hr' _]|[_ [(e & He & _)|[(_ & _ & H)|(_ & _ & H)]]]].
    - congruence.
    - by rewrite Hsf in He.
    - eauto.
    - eauto. }
  destruct Hpaso as (c1 & tx & Hp & He1).
  assert (Hajeno : forall a, In a l -> exists m', a = ["landing"; m'] /\ m' <> m).
  { intros a Ha. destruct (Hforma a (or_intror Ha)) as (m' & ->).
    exists m'. split; [done|]. intros ->. apply Hna. by apply list_elem_of_In. }
  destruct (IH c1 fs1) as (c' & fs' & t & Hbu & He' & Hall).
  - intros; apply Hforma; by right.
  - done.
  - transitivity (is_dir (fs_get ["bronze"] fs)); [|done].
    apply is_dir_kind. by apply kind_procesar_ajeno.
  - transitivity (is_dir (fs_get ["bad_data"] fs)); [|done].
    apply is_dir_kind. by apply kind_procesar_ajeno.
  - intros a Ha. destruct (Hajeno a Ha) as (m' & -> & Hne).
    destruct (Hok _ (or_intror Ha)) as (Hreg' & Hnb' & Hnd'' & Hotro').
    change (name ["landing"; m']) with m' in *.
    split; [|split; [|split]].
    + transitivity (is_reg (fs_get ["landing"; m'] fs)); [|done].
      apply kind_reg. by apply kind_procesar_ajeno.
    + apply kind_None_iff. unfold fs1. rewrite kind_procesar_ajeno by done.
      by rewrite Hnb'.
    + apply kind_None_iff. unfold fs1. rewrite kind_procesar_ajeno by done.
      by rewrite Hnd''.
    + intros f' g' Hf' Hg'. apply (Hotro' f' g').
      * rewrite <- Hf'. symmetry. apply file_at_kind.
        by apply kind_procesar_ajeno.
      * rewrite <- Hg'. symmetry. apply file_at_kind.
        by apply kind_procesar_ajeno.
  - rewrite (bucle_cons _ _ _ _ _ _ _ _ Hp), Hbu.
    unfold result_of, fs_of, trace_of. cbn [fst snd].
    eexists _, _, _. split; [reflexivity|]. split; [congruence|].
    intros a [<-|Ha].
    + split.
      * apply kind_None_iff.
        pose proof (kind_bucle_ajeno env l c1 fs1 ["landing"; m]) as Hk.
        rewrite Hbu in Hk. unfold fs_of in Hk. cbn [fst snd] in Hk.
        rewrite Hk; [by rewrite Hgone|].
        intros a Ha. destruct (Hajeno a Ha) as (m' & -> & Hne). by exists m'.
      * destruct Hmov as [dst Hin]. exists dst. rewrite !in_app_iff. auto.
    + destruct (Hall a Ha) as [Hnone [dst Hin]]. split; [done|].
      exists dst. rewrite !in_app_iff. auto.
Qed.

Lemma entradas_de_In fs x ent :
  fs_get ["landing"; x] fs = Some ent -> In ["landing"; x] (entradas_de fs).
Proof.
  unfold entradas_de, fs_get. simpl.
  destruct (fs !! "landing") as [[g|ch]|]; try done.
  intros Hx. apply list_elem_of_In, list_elem_of_fmap. exists (x, ent).
  split; [done|]. by apply elem_of_map_to_list.
Qed.

Lemma entradas_de_nil fs :
  (forall x, fs_get ["landing"; x] fs = None) -> entradas_de fs = [].
Proof.
  unfold entradas_de, fs_get. simpl. intros H.
  destruct (fs !! "landing") as [[g|ch]|]; try done.
  assert (ch = ∅) as -> by (apply map_empty; intros i; apply H).
  by rewrite map_to_list_empty.
Qed.

End Exito.

(** The run when nothing can fail. *)
Lemma pipeline_exito env fs :
  entorno_sin_fallos env ->
  result_of (crear_carpetas_destino env fs) = Ok tt ->
  is_dir (fs_get ["landing"] fs) = true ->
  archivos_de fs = entradas_de fs ->
  archivos_de fs <> [] ->
  (forall a, In a (archivos_de fs) ->
     fs_get ["bronze"; name a; name a] fs = None /\
     fs_get ["bad_data"; name a; name a] fs = None) ->
  (forall a f g, In a (archivos_de fs) -> file_at a fs = Some f ->
     file_at [destino_de (st_size f); name a] fs = Some g -> fid g <> fid f) ->
  let x := ejecutar_pipeline env fs in
  result_of x = Ok tt /\
  (forall a, In a (archivos_de fs) ->
     fs_get a (fs_of x) = None /\ movido (trace_of x) a) /\
  entradas_de (fs_of x) = [] /\
  In (Log INFO (MErrores 0)) (trace_of x) /\
  exists t0, trace_of x = t0 ++ [Log INFO MCompletado].
Proof.
  intros Hsf Hc Hdir Hsolo Hne Hlibre Hotro x. subst x.
  assert (Hs : escaneo_sin_fallos env fs) by (repeat split; auto).
  apply crear_carpetas_destino_ok in Hc as (Hc & Hrb & Hrd).
  apply (escaneo_tras_crear env) in Hs.
  rewrite ejecutar_pipeline_etapas, Hc.
  set (fs1 := asegurar "bad_data" (asegurar "bronze" fs)) in *.
  assert (Ha : archivos_de fs1 = archivos_de fs)
    by apply archivos_de_ext, landing_tras_crear.
  assert (He : entradas_de fs1 = entradas_de fs)
    by apply entradas_de_ext, landing_tras_crear.
  assert (Hb1 : is_dir (fs_get ["bronze"] fs1) = true).
  { unfold fs1, fs_get. simpl. rewrite lookup_asegurar_ne by done.
    rewrite is_dir_asegurar. by rewrite Hrb. }
  assert (Hd1 : is_dir (fs_get ["bad_data"] fs1) = true).
  { unfold fs1, fs_get. simpl. rewrite is_dir_asegurar.
    rewrite lookup_asegurar_ne by done. by rewrite Hrd. }
  assert (Hne1 : archivos_de fs1 <> []) by (by rewrite Ha).
  destruct (tras_crear_traza env fs1 Hs Hne1) as (c & fs' & tl & tg & Hb & Hfs & Ht & Hg).
  destruct Hg as [(_ & Hr & ->)|(e & Hge & _)]; [|by rewrite Hsf in Hge].
  assert (Hreg1 : forall a, In a (archivos_de fs1) -> is_reg (fs_get a fs1) = true).
  { intros a Hin. by apply archivos_de_forma in Hin as (m & -> & Hreg). }
  destruct (bucle_exito env Hsf (archivos_de fs1) c0 fs1)
    as (c' & fs'' & t' & Hb' & He' & Hall); try done.
  { intros a Hin. apply archivos_de_forma in Hin as (m & -> & _). eauto. }
  { apply NoDup_archivos_de. }
  { intros a Hin. split; [by apply Hreg1|].
    rewrite Ha in Hin. destruct (Hlibre a Hin) as [H1 H2].
    split; [|split].
    - apply kind_None_iff; unfold fs1; rewrite !kind_asegurar by discriminate.
      by rewrite H1.
    - apply kind_None_iff; unfold fs1; rewrite !kind_asegurar by discriminate.
      by rewrite H2.
    - intros f g Hf Hg. apply (Hotro a f g Hin).
      + rewrite <- Hf. symmetry. apply file_at_kind. unfold fs1.
        pose proof Hin as Hin'. apply archivos_de_forma in Hin' as (m & -> & _).
        by rewrite !kind_asegurar by discriminate.
      + rewrite <- Hg. symmetry. apply file_at_kind. unfold fs1.
        by rewrite !kind_asegurar by discriminate. }
  rewrite Hb in Hb'. injection Hb' as <- <- <-.
  assert (Hvacia : entradas_de fs' = []).
  { apply entradas_de_nil. intros x0.
    destruct (fs_get ["landing"; x0] fs1) as [ent|] eqn:Hx0.
    - apply entradas_de_In in Hx0. rewrite He, <- Hsolo, <- Ha in Hx0.
      by apply Hall.
    - apply kind_None_iff.
      pose proof (kind_bucle_ajeno env (archivos_de fs1) c0 fs1 ["landing"; x0]) as Hk.
      rewrite Hb in Hk. unfold fs_of in Hk. cbn [fst snd] in Hk.
      rewrite Hk; [by rewrite Hx0|].
      intros a Hin. pose proof (Hreg1 a Hin) as Hreg.
      apply archivos_de_forma in Hin as (m & -> & _).
      exists m. split; [done|]. simpl. intros ->. by rewrite Hx0 in Hreg. }
  assert (Hfin : linea_final fs' = Log INFO MCompletado).
  { unfold linea_final. by rewrite Hvacia. }
  rewrite Hfin in Ht. rewrite Ha in *.
  destruct (tras_crear env fs1) as [[[[]|e] fs2] t2];
    unfold result_of, fs_of, trace_of in *; cbn [fst snd] in *; try discriminate.
  subst fs2 t2.
  split; [done|]. split; [|split; [done|split]].
  - intros a Hin. destruct (Hall a Hin) as [Hnone [dst Hmov]]. split; [done|].
    exists dst. rewrite !in_app_iff. simpl. rewrite ?in_app_iff. auto 10.
  - unfold c0 in He'. simpl in He'.
    assert (Hin : In (Log INFO (MErrores 0))
              (lineas_resumen (length (archivos_de fs)) c (now env 1 - now env 0))).
    { simpl. rewrite He'. auto 10. }
    rewrite !in_app_iff. simpl. rewrite ?in_app_iff. auto 20.
  - exists (cabecera ++
            [Call (c_mkdir "bronze") None; Call (c_mkdir "bad_data") None;
             Log INFO MCarpetasOk] ++
            traza_escaneo fs1 ++
            [Log INFO (MEncontrados (length (archivos_de fs)))] ++ tl ++
            lineas_resumen (length (archivos_de fs)) c (now env 1 - now env 0) ++
            [Call (c_glob ["landing"]) None]).
    rewrite <- ?app_assoc. simpl. rewrite <- ?app_assoc. simpl.
    repeat f_equal; rewrite <- ?app_assoc; simpl; done.
Qed.

(** X14. When no call fails, [landing/] holds regular files only, no
    destination holds a directory named like one of them with an entry of
    that name inside, and no file of [landing/] has a second name, the same
    as in [landing/], in the directory it goes to, the run moves every file:
    it returns normally, each file has left its path and has a successful
    move in the trace, [landing/] ends empty, the summary reports no error,
    and the trace ends with the confirmation. *)
Theorem todo_movido env fs :
  entorno_sin_fallos env ->
  result_of (crear_carpetas_destino env fs) = Ok tt ->
  is_dir (fs_get ["landing"] fs) = true ->
  archivos_de fs = entradas_de fs ->
  archivos_de fs <> [] ->
  (forall a, In a (archivos_de fs) ->
     fs_get ["bronze"; name a; name a] fs = None /\
     fs_get ["bad_data"; name a; name a] fs = None) ->
  (forall a f g, In a (archivos_de fs) -> file_at a fs = Some f ->
     file_at [destino_de (st_size f); name a] fs = Some g -> fid g <> fid f) ->
  let x := ejecutar_pipeline env fs in
  result_of x = Ok tt /\
  (forall a, In a (archivos_de fs) ->
     fs_get a (fs_of x) = None /\ movido (trace_of x) a) /\
  entradas_de (fs_of x) = [] /\
  In (Log INFO (MErrores 0)) (trace_of x) /\
  exists t0, trace_of x = t0 ++ [Log INFO MCompletado].
Proof. apply pipeline_exito. Qed.

(** * More on attempts, the scan and the final check *)

(** X15. Every attempt is framed: whatever happens, the trace of
    [procesar_archivo] starts with the start line of the file and ends with
    its end line (the [finally] clause), and it holds an error line exactly
    when the function returns [False]. *)
Theorem intento_enmarcado env archivo fs :
  (exists t,
     trace_of (procesar_archivo env archivo fs) =
       Log INFO (MIniciando (name archivo)) :: t ++
       [Log INFO (MFinalizado (name archivo))]) /\
  (result_of (procesar_archivo env archivo fs) = Ok false <->
   errado (trace_of (procesar_archivo env archivo fs)) (name archivo)).
Proof.
  destruct (procesar_archivo_cases env archivo fs)
    as [(e & _ & ->)|[(tam & e & fs0 & _ & _ & ->)|(tam & p & fs' & _ & _ & ->)]];
    unfold trace_of, result_of, errado; cbn [fst snd].
  - split; [by eexists [_; _]|]. split; [|done]. intros _. exists e. simpl. auto.
  - split; [by eexists [_; _; _; _]|]. split; [|done]. intros _.
    exists e. simpl. auto 10.
  - split; [by eexists [_; _; _; _]|]. split; [done|].
    intros [e He]. exfalso. unfold linea_movido in He. simpl in He.
    destruct (0 <? tam)%nat, e; simpl in He; intuition congruence.
Qed.

Section EscaneoMas.

Variable env : Env.

Lemma filter_is_file_falla l fs p e :
  In p l -> fault env (c_is_file p) = Some e ->
  exists e', result_of (filter_is_file env l fs) = Raise e'.
Proof.
  induction l as [|p0 l IH]; intros Hin He; [done|].
  simpl. unfold bind, is_file, call.
  destruct (fault env (c_is_file p0)) as [e0|] eqn:H0.
  { exists e0. done. }
  destruct Hin as [->|Hin]; [congruence|].
  destruct (IH Hin He) as [e' He'].
  destruct (filter_is_file env l fs) as [[[l'|e1] fs1] t1];
    unfold result_of in *; simpl in *; [discriminate|]. eauto.
Qed.

Lemma filter_is_file_llamadas l fs :
  Forall (fun ev => exists p r, ev = Call (c_is_file p) r)
         (trace_of (filter_is_file env l fs)).
Proof.
  induction l as [|p0 l IH]; [apply Forall_nil_2|].
  simpl. unfold bind, is_file, call.
  destruct (fault env (c_is_file p0)) as [e0|].
  { unfold trace_of. simpl. apply Forall_cons_2; [eauto|apply Forall_nil_2]. }
  destruct (filter_is_file env l fs) as [[[l'|e1] fs1] t1];
    unfold trace_of in *; simpl in *.
  - rewrite app_nil_r. apply Forall_cons_2; [eauto|done].
  - apply Forall_cons_2; [eauto|done].
Qed.

End EscaneoMas.

(** X16. A failure of [is_file] during the scan is not contained like
    the failure of a file in the loop: one entry of [landing/] that cannot be
    examined aborts the run with exit status 1 before any file is processed;
    no size is read, nothing is moved, and apart from the log file every
    path holds what [crear_carpetas_destino] left there. *)
Theorem fallo_en_escaneo env fs p e :
  result_of (crear_carpetas_destino env fs) = Ok tt ->
  fault env (c_exists ["landing"]) = None ->
  is_dir (fs_get ["landing"] fs) = true ->
  fault env (c_iterdir ["landing"]) = None ->
  In p (entradas_de fs) ->
  fault env (c_is_file p) = Some e ->
  let x := ejecutar_pipeline env fs in
  (exists e', result_of x = Raise e' /\
              In (Log CRITICAL (MErrorFatal e')) (trace_of x)) /\
  (main env fs).1.1 = 1 /\
  (forall q, fuera_del_log q ->
     fs_get q (fs_of x) = fs_get q (fs_of (crear_carpetas_destino env fs))) /\
  (forall a r, ~ In (Call (c_stat a) r) (trace_of x)) /\
  sin_movimientos (trace_of x).
Proof.
  intros Hc Hx Hdir Hi Hp He x. subst x. unfold main.
  apply crear_carpetas_destino_ok in Hc as (Hc & _).
  rewrite ejecutar_pipeline_etapas, Hc.
  set (fs1 := asegurar "bad_data" (asegurar "bronze" fs)).
  unfold fs_of at 2. cbn [fst snd]. fold fs1.
  assert (Hent : entradas_de fs1 = entradas_de fs)
    by apply entradas_de_ext, landing_tras_crear.
  assert (Hdir1 : is_dir (fs_get ["landing"] fs1) = true).
  { unfold fs1. by rewrite !fs_get_asegurar_ne. }
  rewrite <- Hent in Hp.
  destruct (filter_is_file_falla env (entradas_de fs1) fs1 p e Hp He) as [e' Hff].
  pose proof (filter_is_file_llamadas env (entradas_de fs1) fs1) as Hll.
  assert (Ht : tras_crear env fs1 =
            (Raise e', fs1,
             [Call (c_exists ["landing"]) None; Call (c_iterdir ["landing"]) None] ++
             trace_of (filter_is_file env (entradas_de fs1) fs1))).
  { pose proof (tras_crear_rama env fs1) as R.
    inversion R as [e1 Hx' Heq|e1 Hx' Hn Hm Heq|Hx' Hn Hm Heq|e1 Hx' Hn Hi' Heq
                   |e1 Hx' Hd' Hi' Hf' Heq|Hx' Hd' Hi' Hf' Hnil Heq
                   |c fs' tl Hx' Hd' Hi' Hf' Hne' Hb Hg' Heq
                   |c fs' tl e1 Hx' Hd' Hi' Hf' Hne' Hb Hg' Heq];
      try congruence; try (by rewrite Hn in Hdir1).
    - exfalso. revert Hi'. unfold iterdir, call, result_of. rewrite Hi.
      by destruct (fs_get ["landing"] fs1) as [[?|?]|].
    - rewrite Hff in Hf'. by injection Hf' as <-. }
  rewrite Ht. unfold result_of, fs_of, trace_of in *. cbn [fst snd] in *.
  set (tf := (filter_is_file env (entradas_de fs1) fs1).2) in *.
  assert (Hno : forall c r, In (Call c r) tf -> exists q, c = c_is_file q).
  { intros c r Hin. rewrite Forall_forall in Hll.
    apply list_elem_of_In, Hll in Hin as (q & r' & [= -> _]). eauto. }
  split; [|split; [done|split; [done|split]]].
  - exists e'. split; [done|]. rewrite !in_app_iff. do 3 right. by left.
  - intros a r Hin. rewrite !in_app_iff in Hin.
    destruct Hin as [Hin|[Hin|[[Hin|Hin]|Hin]]];
      try (by apply Hno in Hin as [q [=]]);
      unfold cabecera in Hin; simpl in Hin; intuition discriminate.
  - intros src dst r Hin. rewrite !in_app_iff in Hin.
    destruct Hin as [Hin|[Hin|[[Hin|Hin]|Hin]]];
      try (by apply Hno in Hin as [q [=]]);
      unfold cabecera in Hin; simpl in Hin; intuition discriminate.
Qed.

(** X17. When the final [glob] raises, the run fails after the work is
    done: the loop has run over every file and, apart from the log file,
    every path holds at the end of the run what the loop left there, the
    summary is in the trace, no closing line follows, and the exit status
    is 1. *)
Theorem fallo_en_verificacion_final env fs e :
  result_of (crear_carpetas_destino env fs) = Ok tt ->
  escaneo_sin_fallos env fs ->
  archivos_de fs <> [] ->
  fault env (c_glob ["landing"]) = Some e ->
  let x := ejecutar_pipeline env fs in
  result_of x = Raise e /\
  (main env fs).1.1 = 1 /\
  (exists c tl fs',
     bucle env (archivos_de fs) c0 (fs_of (crear_carpetas_destino env fs)) =
       (Ok c, fs', tl) /\
     (forall q, fuera_del_log q -> fs_get q (fs_of x) = fs_get q fs') /\
     incl (lineas_resumen (length (archivos_de fs)) c (now env 1 - now env 0))
          (trace_of x)) /\
  ~ cierre_emitido (trace_of x).
Proof.
  intros Hc Hs Hne Hg x. subst x.
  assert (Hcierre : result_of (ejecutar_pipeline env fs) = Raise e ->
                    ~ cierre_emitido (trace_of (ejecutar_pipeline env fs))).
  { intros Hr [Hin|(k & Hin)];
      apply pipeline_resumen in Hin as (_ & c & tl & _ & _ & _ & Hev); try done;
      destruct Hev as [Hev|[Hev|[_ Hev]]]; try discriminate;
      try (simpl in Hev; intuition congruence); congruence. }
  revert Hcierre. unfold main.
  apply crear_carpetas_destino_ok in Hc as (Hc & _).
  apply (escaneo_tras_crear env) in Hs.
  rewrite ejecutar_pipeline_etapas, Hc.
  set (fs1 := asegurar "bad_data" (asegurar "bronze" fs)) in *.
  assert (Ha : archivos_de fs1 = archivos_de fs)
    by apply archivos_de_ext, landing_tras_crear.
  rewrite <- Ha in Hne.
  destruct (tras_crear_traza env fs1 Hs Hne) as (c & fs' & tl & tg & Hb & Hfs & Ht & Hgl).
  destruct Hgl as [(Hg' & _)|(e' & Hg' & Hr & ->)]; [congruence|].
  assert (e' = e) as -> by congruence.
  rewrite Ha in *.
  destruct (tras_crear env fs1) as [[[[]|e1] fs2] t2];
    unfold result_of, fs_of, trace_of in *; cbn [fst snd] in *; try discriminate.
  injection Hr as ->. subst fs2 t2. intros Hcierre.
  split; [done|]. split; [done|]. split; [|by apply Hcierre].
  exists c, tl, fs'. split; [done|]. split; [done|].
  intros ev Hev. rewrite !in_app_iff. simpl. rewrite ?in_app_iff. auto 10.
Qed.

(** * The further properties at concrete inputs *)

Lemma unico_en_fs_sobrescribe :
  unico_en (File 2 5) ["bronze"; "a.csv"] fs_sobrescribe.
Proof.
  split; [by vm_compute|].
  intros q g Hq Hfid. unfold file_at, fs_get, fs_sobrescribe in Hq.
  destruct q as [|x q]; [done|]. simpl in Hq.
  rewrite lookup_insert in Hq. case_decide; subst.
  - destruct q as [|y q]; [done|]. simpl in Hq.
    rewrite lookup_singleton in Hq. case_decide; subst.
    + destruct q; [|done]. simpl in Hq. injection Hq as <-. done.
    + by rewrite geto_None in Hq.
  - rewrite lookup_insert in Hq. case_decide; subst.
    + destruct q as [|y q]; [done|]. simpl in Hq.
      rewrite lookup_singleton in Hq. case_decide; subst.
      * destruct q; [|done]. done.
      * by rewrite geto_None in Hq.
    + rewrite lookup_singleton in Hq. case_decide; subst.
      * destruct q as [|y q]; [done|]. simpl in Hq.
        rewrite lookup_empty in Hq. by rewrite geto_None in Hq.
      * by rewrite geto_None in Hq.
Qed.

Lemma archivos_de_fs_ejemplo :
  archivos_de fs_ejemplo = [["landing"; "a.csv"]; ["landing"; "b.csv"]].
Proof. vm_compute. reflexivity. Qed.


Lemma crear_carpetas_destino_conserva_witness :
  fs_get ["landing"; "a.csv"] (fs_of (crear_carpetas_destino sin_permiso fs_ejemplo)) =
    fs_get ["landing"; "a.csv"] fs_ejemplo /\
  fs_get ["bronze"] (fs_of (crear_carpetas_destino sin_permiso fs_sin_landing)) =
    Some (EDir ∅).
Proof.
  split.
  - apply (proj2 (proj2 (crear_carpetas_destino_conserva sin_permiso fs_ejemplo))).
    + vm_compute. reflexivity.
    + vm_compute. reflexivity.
    + unfold fuera_del_log. discriminate.
  - apply (proj1 (crear_carpetas_destino_conserva sin_permiso fs_sin_landing)).
    + unfold fuera_del_log. discriminate.
    + vm_compute. reflexivity.
Defined.

Lemma destino_es_archivo_witness :
  result_of (ejecutar_pipeline sin_fallos fs_bronze_archivo) = Raise FileExistsError /\
  file_at ["bronze"] (fs_of (ejecutar_pipeline sin_fallos fs_bronze_archivo)) =
    Some (File 7 3).
Proof.
  destruct (destino_es_archivo sin_fallos fs_bronze_archivo "bronze" (File 7 3))
    as (Hr & _ & Hf & _).
  - left. reflexivity.
  - vm_compute. reflexivity.
  - reflexivity.
  - reflexivity.
  - split; assumption.
Defined.

Lemma crear_sin_deshacer_witness :
  result_of (ejecutar_pipeline sin_permiso fs_solo_landing) = Raise PermissionError /\
  fs_get ["bronze"] (fs_of (ejecutar_pipeline sin_permiso fs_solo_landing)) =
    Some (EDir ∅).
Proof.
  destruct (crear_sin_deshacer sin_permiso fs_solo_landing PermissionError)
    as (Hr & Hb & _).
  - vm_compute. reflexivity.
  - reflexivity.
  - reflexivity.
  - split; assumption.
Defined.

Lemma critico_ssi_falla_witness :
  sin_critico (trace_of (ejecutar_pipeline sin_fallos fs_ejemplo)) /\
  List.last (trace_of (ejecutar_pipeline sin_permiso fs_sin_landing))
            (Log INFO MSeparador) =
    Log CRITICAL (MErrorFatal PermissionError).
Proof.
  split.
  - apply (proj1 (proj1 (critico_ssi_falla sin_fallos fs_ejemplo))).
    vm_compute. reflexivity.
  - apply (proj2 (critico_ssi_falla sin_permiso fs_sin_landing) PermissionError).
    vm_compute. reflexivity.
Defined.

Lemma landing_es_archivo_witness :
  result_of (ejecutar_pipeline sin_fallos fs_landing_archivo) =
    Raise NotADirectoryError /\
  file_at ["landing"] (fs_of (ejecutar_pipeline sin_fallos fs_landing_archivo)) =
    Some (File 1 10).
Proof.
  destruct (landing_es_archivo sin_fallos fs_landing_archivo (File 1 10))
    as (Hr & _ & _ & Hf & _).
  - vm_compute. reflexivity.
  - vm_compute. reflexivity.
  - reflexivity.
  - reflexivity.
  - split; assumption.
Defined.

Lemma landing_no_creada_witness :
  result_of (ejecutar_pipeline sin_permiso_landing fs_sin_landing) =
    Raise PermissionError /\
  fs_get ["landing"] (fs_of (ejecutar_pipeline sin_permiso_landing fs_sin_landing)) =
    None.
Proof.
  destruct (landing_no_creada sin_permiso_landing fs_sin_landing PermissionError)
    as (Hr & _ & Hl & _).
  - vm_compute. reflexivity.
  - vm_compute. reflexivity.
  - reflexivity.
  - reflexivity.
  - split; assumption.
Defined.

Lemma sobrescribe_destino_witness :
  file_at ["bronze"; "a.csv"]
    (fs_of (procesar_archivo sin_fallos ["landing"; "a.csv"] fs_sobrescribe)) =
    Some (File 1 10) /\
  forall q g',
    file_at q (fs_of (procesar_archivo sin_fallos ["landing"; "a.csv"] fs_sobrescribe)) =
      Some g' ->
    fid g' <> 2.
Proof.
  destruct (sobrescribe_destino sin_fallos "a.csv" (File 1 10) (File 2 5) fs_sobrescribe)
    as (_ & Hd & _ & Hu).
  - vm_compute. reflexivity.
  - vm_compute. reflexivity.
  - simpl. lia.
  - reflexivity.
  - reflexivity.
  - split; [exact Hd|].
    intros q g' Hq. exact (Hu unico_en_fs_sobrescribe q g' Hq).
Defined.

Lemma nombre_ocupado_witness :
  result_of (procesar_archivo sin_fallos ["landing"; "a.csv"] fs_ocupado) = Ok false /\
  fs_get ["landing"; "a.csv"]
    (fs_of (procesar_archivo sin_fallos ["landing"; "a.csv"] fs_ocupado)) =
    fs_get ["landing"; "a.csv"] fs_ocupado.
Proof.
  destruct (nombre_ocupado sin_fallos "a.csv" (File 1 10) (EFile (File 2 5)) fs_ocupado)
    as (Hr & _ & Hq).
  - vm_compute. reflexivity.
  - vm_compute. reflexivity.
  - vm_compute. reflexivity.
  - reflexivity.
  - split; [exact Hr|]. apply Hq. unfold fuera_del_log. discriminate.
Defined.

Lemma verificacion_fallida_witness :
  movido (trace_of (procesar_archivo sin_verificacion ["landing"; "a.csv"] fs_ejemplo))
         ["landing"; "a.csv"] /\
  result_of (paso sin_verificacion ["landing"; "a.csv"] c0 fs_ejemplo) =
    Ok (mas_error c0).
Proof.
  destruct (verificacion_fallida sin_verificacion ["landing"; "a.csv"] c0
              fs_ejemplo OSError) as (Hm & Hp).
  - vm_compute. reflexivity.
  - reflexivity.
  - split; [exact Hm|]. rewrite Hp. reflexivity.
Defined.



Lemma conteo_sin_colision_witness :
  let t := trace_of (ejecutar_pipeline sin_fallos fs_ejemplo) in
  In (Log INFO (MBronze (movidos_a "bronze" t))) t /\
  In (Log INFO (MBadData (movidos_a "bad_data" t))) t.
Proof.
  destruct (conteo_sin_colision sin_fallos fs_ejemplo) as (Hb & Hd & _).
  - vm_compute. reflexivity.
  - exact escaneo_sin_fallos_ejemplo.
  - vm_compute. discriminate.
  - intros a Ha. split; [|reflexivity].
    rewrite archivos_de_fs_ejemplo in Ha.
    destruct Ha as [<-|[<-|[]]]; vm_compute; reflexivity.
  - split; assumption.
Defined.

Lemma cada_archivo_una_vez_witness :
  veces_stat ["landing"; "a.csv"]
    (trace_of (bucle sin_fallos (archivos_de fs_ejemplo) c0 fs_ejemplo)) = 1.
Proof.
  apply (proj1 (cada_archivo_una_vez sin_fallos (archivos_de fs_ejemplo) c0
                  fs_ejemplo ["landing"; "a.csv"] (NoDup_archivos_de fs_ejemplo))).
  vm_compute. auto.
Defined.

Lemma sin_otro_nombre_fs_ejemplo a f g :
  In a (archivos_de fs_ejemplo) -> file_at a fs_ejemplo = Some f ->
  file_at [destino_de (st_size f); name a] fs_ejemplo = Some g -> fid g <> fid f.
Proof.
  rewrite archivos_de_fs_ejemplo. intros [<-|[<-|[]]] Hf; vm_compute in Hf;
    injection Hf as <-; intros Hg; vm_compute in Hg; discriminate.
Qed.

Lemma todo_movido_witness :
  result_of (ejecutar_pipeline sin_fallos fs_ejemplo) = Ok tt /\
  entradas_de (fs_of (ejecutar_pipeline sin_fallos fs_ejemplo)) = [].
Proof.
  destruct (todo_movido sin_fallos fs_ejemplo) as (Hr & _ & He & _).
  - intros c. reflexivity.
  - vm_compute. reflexivity.
  - vm_compute. reflexivity.
  - vm_compute. reflexivity.
  - vm_compute. discriminate.
  - intros a Ha. rewrite archivos_de_fs_ejemplo in Ha.
    destruct Ha as [<-|[<-|[]]]; vm_compute; split; reflexivity.
  - exact sin_otro_nombre_fs_ejemplo.
  - split; assumption.
Defined.

Lemma intento_enmarcado_witness :
  errado (trace_of (procesar_archivo sin_fallos ["landing"; "perdido.csv"] fs_ejemplo))
         "perdido.csv".
Proof.
  apply (proj1 (proj2 (intento_enmarcado sin_fallos ["landing"; "perdido.csv"]
                         fs_ejemplo))).
  vm_compute. reflexivity.
Defined.

Lemma fallo_en_escaneo_witness :
  (main sin_is_file fs_ejemplo).1.1 = 1 /\
  sin_movimientos (trace_of (ejecutar_pipeline sin_is_file fs_ejemplo)).
Proof.
  destruct (fallo_en_escaneo sin_is_file fs_ejemplo ["landing"; "a.csv"]
              PermissionError) as (_ & Hm & _ & _ & Hs).
  - vm_compute. reflexivity.
  - reflexivity.
  - vm_compute. reflexivity.
  - reflexivity.
  - vm_compute. auto.
  - reflexivity.
  - split; assumption.
Defined.

Lemma fallo_en_verificacion_final_witness :
  result_of (ejecutar_pipeline sin_glob fs_ejemplo) = Raise OSError /\
  ~ cierre_emitido (trace_of (ejecutar_pipeline sin_glob fs_ejemplo)).
Proof.
  destruct (fallo_en_verificacion_final sin_glob fs_ejemplo OSError)
    as (Hr & _ & _ & Hc).
  - vm_compute. reflexivity.
  - repeat split; by vm_compute.
  - vm_compute. discriminate.
  - reflexivity.
  - split; assumption.
Defined.
